(** * dcos-launch command line: a shallow embedding of [dcos_launch/cli.py]

    The development follows the module top-down:

    - [Py]: the pieces of the Python runtime the module relies on
      (strings as sequences of code points, [str.split], [str.join],
      [repr], decimal integers);
    - [Json]: the standard [json] encoder with the module's
      [json_prettyprint_args] and the standard decoder;
    - [Cli]: [write_json], [json_prettyprint], [load_json], [do_main] and
      [main], written in a state-and-exception monad over the file system,
      the process environment, standard output and the collaborators
      ([dcos_launch.config], [dcos_launch.get_launcher], the launcher
      object, [docopt], [dcos_test_utils.logging]);
    - the properties of the command line proved over these definitions. *)

From Stdlib Require Import ZArith NArith Ascii String List Lia Bool.
From stdpp Require Import gmap list sorting.

Set Default Proof Using "Type".
Set Warnings "-register-all".

(* ===================================================================== *)
(** * Python runtime                                                      *)
(* ===================================================================== *)

Module Py.

(** A Python [str] is a sequence of Unicode code points. *)
Abbreviation str := (list N).

(** String literals of the source are written [lit "..."]. *)
Definition lit (s : string) : str :=
  List.map N_of_ascii (list_ascii_of_string s).

(** Characters that cannot be written inside a literal. *)
Definition QUOTE : N := 34.        (* the double quote *)
Definition APOSTROPHE : N := 39.
Definition BACKSLASH : N := 92.
Definition NEWLINE : N := 10.
Definition SPACE : N := 32.

(** [sep.join(chunks)] *)
Fixpoint str_join (sep : str) (chunks : list str) : str :=
  match chunks with
  | [] => []
  | [c] => c
  | c :: rest => c ++ sep ++ str_join sep rest
  end.

(** [s.split(sep)] for a one-character separator: always at least one
    field, and an empty field wherever two separators touch. *)
Fixpoint str_split (sep : N) (s : str) : list str :=
  match s with
  | [] => [[]]
  | c :: s' =>
      if (c =? sep)%N then [] :: str_split sep s'
      else match str_split sep s' with
           | [] => [[c]]
           | field :: fields => (c :: field) :: fields
           end
  end.

(** [c in s] for a one-character [c]. *)
Definition str_contains (c : N) (s : str) : bool :=
  existsb (N.eqb c) s.

(** [s.startswith(prefix)], returning what follows the prefix. *)
Fixpoint strip_prefix (prefix s : str) : option str :=
  match prefix, s with
  | [], _ => Some s
  | p :: prefix', c :: s' =>
      if (p =? c)%N then strip_prefix prefix' s' else None
  | _ :: _, [] => None
  end.

(** Comparison of strings: lexicographic, by code point. *)
Fixpoint str_compare (a b : str) : comparison :=
  match a, b with
  | [], [] => Eq
  | [], _ :: _ => Lt
  | _ :: _, [] => Gt
  | x :: a', y :: b' =>
      match (x ?= y)%N with
      | Eq => str_compare a' b'
      | c => c
      end
  end.

Definition str_leb (a b : str) : bool :=
  match str_compare a b with Gt => false | _ => true end.

Definition str_ltb (a b : str) : bool :=
  match str_compare a b with Lt => true | _ => false end.

(** [sorted(d.items())] for a dict with string keys: the items in
    increasing key order.  [sorted] is stable; so is this insertion sort. *)
Fixpoint insert_item {V} (kv : str * V) (l : list (str * V))
  : list (str * V) :=
  match l with
  | [] => [kv]
  | x :: l' =>
      if str_leb (fst kv) (fst x) then kv :: l
      else x :: insert_item kv l'
  end.

Fixpoint sorted_items {V} (l : list (str * V)) : list (str * V) :=
  match l with
  | [] => []
  | kv :: l' => insert_item kv (sorted_items l')
  end.

(** [dict(pairs)]: a later pair replaces the value of an earlier one with
    the same key and keeps its place. *)
Fixpoint dict_set {V} (k : str) (v : V) (d : list (str * V))
  : list (str * V) :=
  match d with
  | [] => [(k, v)]
  | (k', v') :: d' =>
      if decide (k' = k) then (k, v) :: d' else (k', v') :: dict_set k v d'
  end.

Definition dict_of_pairs {V} (pairs : list (str * V)) : list (str * V) :=
  fold_left (fun d kv => dict_set (fst kv) (snd kv) d) pairs [].

(** [d.get(k)] *)
Fixpoint dict_get {V} (k : str) (d : list (str * V)) : option V :=
  match d with
  | [] => None
  | (k', v) :: d' => if decide (k' = k) then Some v else dict_get k d'
  end.

(** ** Decimal integers: [int.__repr__] and [int(s)] *)

Definition is_digit (c : N) : bool := ((48 <=? c) && (c <=? 57))%N.

Fixpoint digits_aux (fuel : nat) (n : N) (acc : str) : str :=
  let acc' := (48 + n mod 10)%N :: acc in
  match fuel with
  | O => acc'
  | S fuel' =>
      if (n / 10 =? 0)%N then acc' else digits_aux fuel' (n / 10)%N acc'
  end.

Definition nat_str (n : N) : str := digits_aux (N.size_nat n) n [].

Definition int_str (z : Z) : str :=
  match z with
  | Z0 => nat_str 0
  | Zpos p => nat_str (Npos p)
  | Zneg p => 45%N :: nat_str (Npos p)
  end.

(** The value of a run of decimal digits. *)
Definition digits_value (ds : str) : N :=
  fold_left (fun acc c => (10 * acc + (c - 48))%N) ds 0%N.

(** ** Hexadecimal *)

Definition hex_digit (d : N) : N :=
  if (d <? 10)%N then (48 + d)%N else (87 + d)%N.

(** ['{0:02x}'.format(n)] for [n < 0x100], and so on. *)
Definition hex2 (n : N) : str :=
  [hex_digit (n / 16 mod 16); hex_digit (n mod 16)]%N.
Definition hex4 (n : N) : str :=
  hex2 (n / 256 mod 256)%N ++ hex2 (n mod 256)%N.
Definition hex8 (n : N) : str :=
  hex4 (n / 65536 mod 65536)%N ++ hex4 (n mod 65536)%N.

(** The value of one hexadecimal digit, in either case. *)
Definition hex_value (c : N) : option N :=
  if ((48 <=? c) && (c <=? 57))%N then Some (c - 48)%N
  else if ((97 <=? c) && (c <=? 102))%N then Some (c - 87)%N
  else if ((65 <=? c) && (c <=? 70))%N then Some (c - 55)%N
  else None.

(** ** [repr] *)

Section Repr.
(** [str.isprintable] on one code point outside ASCII: a table of the
    Unicode database, which the interpreter supplies. *)
Variable isprintable : N -> bool.

Definition repr_char (quote c : N) : str :=
  if ((c =? quote) || (c =? BACKSLASH))%N then [BACKSLASH; c]
  else if (c =? 9)%N then lit "\t"
  else if (c =? 10)%N then lit "\n"
  else if (c =? 13)%N then lit "\r"
  else if ((c <? 32) || (c =? 127))%N then lit "\x" ++ hex2 c
  else if (c <? 127)%N then [c]
  else if isprintable c then [c]
  else if (c <? 256)%N then lit "\x" ++ hex2 c
  else if (c <? 65536)%N then lit "\u" ++ hex4 c
  else lit "\U" ++ hex8 c.

(** [repr(s)] for a string: single quotes, unless the string holds a
    single quote and no double quote. *)
Definition str_repr (s : str) : str :=
  let quote :=
    if str_contains APOSTROPHE s && negb (str_contains QUOTE s)
    then QUOTE else APOSTROPHE in
  quote :: flat_map (repr_char quote) s ++ [quote].

(** [repr(l)] for a list of strings. *)
Definition list_repr (l : list str) : str :=
  lit "[" ++ str_join (lit ", ") (List.map str_repr l) ++ lit "]".
End Repr.

End Py.

(* ===================================================================== *)
(** * The [json] module of the standard library                           *)
(* ===================================================================== *)

Module Json.
Import Py.

(** Python floats are kept abstract: what the encoder writes for one, what
    [float(literal)] reads, the three constants of the decoder, and whether
    two floats are the same float. *)
Class PyFloat (F : Type) := {
  floatstr : F -> str;
  parse_float : str -> F;
  float_nan : F;
  float_inf : F;
  float_neg_inf : F;
  float_same : F -> F -> bool;
  float_same_eq : forall x y, float_same x y = true -> x = y
}.

(** The values [json.dump] accepts and [json.load] returns: [None], [bool],
    [int], [float], [str], [list], and [dict] with string keys.  A dict is
    held in insertion order. *)
Inductive json {F : Type} : Type :=
| JNone
| JBool (b : bool)
| JInt (n : Z)
| JFloat (x : F)
| JStr (s : str)
| JList (items : list json)
| JDict (pairs : list (str * json)).
Arguments json : clear implicits.

Section Encoder.
Context {F : Type} `{PyFloat F}.

(** ** [json.encoder]: [encode_basestring_ascii] *)

Definition escape_char (c : N) : str :=
  if (c =? BACKSLASH)%N then [BACKSLASH; BACKSLASH]
  else if (c =? QUOTE)%N then [BACKSLASH; QUOTE]
  else if (c =? 8)%N then lit "\b"
  else if (c =? 12)%N then lit "\f"
  else if (c =? 10)%N then lit "\n"
  else if (c =? 13)%N then lit "\r"
  else if (c =? 9)%N then lit "\t"
  else if ((32 <=? c) && (c <=? 126))%N then [c]
  else if (c <? 65536)%N then lit "\u" ++ hex4 c
  else
    let n := (c - 65536)%N in
    let s1 := N.lor 55296 (N.land (N.shiftr n 10) 1023) in
    let s2 := N.lor 56320 (N.land n 1023) in
    lit "\u" ++ hex4 s1 ++ lit "\u" ++ hex4 s2.

Definition encode_basestring_ascii (s : str) : str :=
  QUOTE :: flat_map escape_char s ++ [QUOTE].

(** ** [json_prettyprint_args] of the module *)

Definition indent : nat := 2.
Definition item_separator : str := lit ",".
Definition key_separator : str := lit ":".

Definition newline_indent (level : nat) : str :=
  NEWLINE :: repeat SPACE (indent * level).

(** ** [json.encoder]: [_iterencode] with [sort_keys=True], an indent
    and the separators above.  The chunks are concatenated. *)
Fixpoint iterencode (level : nat) (o : json F) : str :=
  match o with
  | JStr s => encode_basestring_ascii s
  | JNone => lit "null"
  | JBool true => lit "true"
  | JBool false => lit "false"
  | JInt n => int_str n
  | JFloat x => floatstr x
  | JList [] => lit "[]"
  | JList items =>
      lit "[" ++ newline_indent (S level)
      ++ str_join (item_separator ++ newline_indent (S level))
           (List.map (iterencode (S level)) items)
      ++ newline_indent level ++ lit "]"
  | JDict [] => lit "{}"
  | JDict pairs =>
      let chunks :=
        List.map (fun kv => match kv with
                            | (k, v) => (k, iterencode (S level) v)
                            end) pairs in
      lit "{" ++ newline_indent (S level)
      ++ str_join (item_separator ++ newline_indent (S level))
           (List.map (fun kc => encode_basestring_ascii (fst kc)
                                ++ key_separator ++ snd kc)
              (sorted_items chunks))
      ++ newline_indent level ++ lit "}"
  end.

(** [json.dumps(data, **json_prettyprint_args)] *)
Definition dumps (data : json F) : str := iterencode 0 data.

(** The layout of what lies between the brackets of a list, and between
    the braces of a dict whose pairs are given in the order written. *)
Definition encode_items (level : nat) (items : list (json F)) : str :=
  str_join (item_separator ++ newline_indent (S level))
    (List.map (iterencode (S level)) items).

Definition encode_pairs (level : nat) (pairs : list (str * json F)) : str :=
  str_join (item_separator ++ newline_indent (S level))
    (List.map (fun kv => encode_basestring_ascii (fst kv) ++ key_separator
                         ++ iterencode (S level) (snd kv)) pairs).
End Encoder.

(** What may follow a value in the encoder's output: the end, a comma or
    a newline. *)
Definition delimited (rest : str) : Prop :=
  match rest with
  | [] => True
  | c :: _ => c = 44%N \/ c = 10%N
  end.

(** ** [json.decoder] and [json.scanner] *)

(** The messages of [JSONDecodeError]. *)
Inductive decode_msg : Type :=
| Expecting_value
| Expecting_property_name
| Expecting_colon_delimiter
| Expecting_comma_delimiter
| Extra_data
| Unterminated_string
| Invalid_control_character (c : N)
| Invalid_escape (c : N)
| Invalid_uXXXX_escape
| Unexpected_BOM.

(** A scan yields a value and the input that follows it, or fails at a
    position, given as the input left from that position on.  [Exhausted]
    is the recursion running out of depth. *)
Inductive scan_result (A : Type) : Type :=
| Scanned (a : A) (rest : str)
| Failed (msg : decode_msg) (rest : str)
| Exhausted.
Arguments Scanned {A} a rest.
Arguments Failed {A} msg rest.
Arguments Exhausted {A}.

Definition scan_map {A B} (f : A -> B) (r : scan_result A) : scan_result B :=
  match r with
  | Scanned a rest => Scanned (f a) rest
  | Failed msg rest => Failed msg rest
  | Exhausted => Exhausted
  end.

(** [WHITESPACE.match(s, idx).end()] *)
Definition is_whitespace (c : N) : bool :=
  ((c =? 32) || (c =? 9) || (c =? 10) || (c =? 13))%N.

Fixpoint skip_whitespace (s : str) : str :=
  match s with
  | c :: s' => if is_whitespace c then skip_whitespace s' else s
  | [] => []
  end.

(** The [BACKSLASH] table of the decoder. *)
Definition unescape (esc : N) : option N :=
  if (esc =? QUOTE)%N then Some QUOTE
  else if (esc =? BACKSLASH)%N then Some BACKSLASH
  else if (esc =? 47)%N then Some 47%N
  else if (esc =? 98)%N then Some 8%N
  else if (esc =? 102)%N then Some 12%N
  else if (esc =? 110)%N then Some 10%N
  else if (esc =? 114)%N then Some 13%N
  else if (esc =? 116)%N then Some 9%N
  else None.

(** [_decode_uXXXX]: four hexadecimal digits. *)
Definition decode_uXXXX (h1 h2 h3 h4 : N) : option N :=
  match hex_value h1, hex_value h2, hex_value h3, hex_value h4 with
  | Some a, Some b, Some c, Some d => Some (((a * 16 + b) * 16 + c) * 16 + d)%N
  | _, _, _, _ => None
  end.

Definition is_high_surrogate (c : N) : bool := ((55296 <=? c) && (c <=? 56319))%N.
Definition is_low_surrogate (c : N) : bool := ((56320 <=? c) && (c <=? 57343))%N.

Definition join_surrogates (uni uni2 : N) : N :=
  (65536 + N.lor (N.shiftl (uni - 55296) 10) (uni2 - 56320))%N.

(** [scanstring(s, end)] in strict mode; [s] starts after the opening
    quote and [begin] at it. *)
Fixpoint scanstring (begin s : str) : scan_result str :=
  match s with
  | [] => Failed Unterminated_string begin
  | c :: s1 =>
      if (c =? QUOTE)%N then Scanned [] s1
      else if (c =? BACKSLASH)%N then
        match s1 with
        | [] => Failed Unterminated_string begin
        | esc :: s2 =>
            if (esc =? 117)%N then
              match s2 with
              | h1 :: h2 :: h3 :: h4 :: s3 =>
                  match decode_uXXXX h1 h2 h3 h4 with
                  | None => Failed Invalid_uXXXX_escape s1
                  | Some uni =>
                      let single := scan_map (cons uni) (scanstring begin s3) in
                      if is_high_surrogate uni then
                        match s3 with
                        | b :: u :: s4 =>
                            if ((b =? BACKSLASH) && (u =? 117))%N then
                              match s4 with
                              | k1 :: k2 :: k3 :: k4 :: s5 =>
                                  match decode_uXXXX k1 k2 k3 k4 with
                                  | None => Failed Invalid_uXXXX_escape (u :: s4)
                                  | Some uni2 =>
                                      if is_low_surrogate uni2 then
                                        scan_map (cons (join_surrogates uni uni2))
                                          (scanstring begin s5)
                                      else single
                                  end
                              | _ => Failed Invalid_uXXXX_escape (u :: s4)
                              end
                            else single
                        | _ => single
                        end
                      else single
                  end
              | _ => Failed Invalid_uXXXX_escape s1
              end
            else
              match unescape esc with
              | Some char => scan_map (cons char) (scanstring begin s2)
              | None => Failed (Invalid_escape esc) s1
              end
        end
      else if (c <? 32)%N then Failed (Invalid_control_character c) s1
      else scan_map (cons c) (scanstring begin s1)
  end.

(** [NUMBER_RE]: an optional minus sign and either a zero or a non-zero
    digit followed by digits; then optionally a dot and digits; then
    optionally an exponent mark, a sign and digits. *)
Fixpoint span_digits (s : str) : str * str :=
  match s with
  | c :: s' =>
      if is_digit c then
        let '(ds, rest) := span_digits s' in (c :: ds, rest)
      else ([], s)
  | [] => ([], [])
  end.

Definition match_integer (s : str) : option (str * str) :=
  let '(sign, s1) :=
    match s with
    | c :: s' => if (c =? 45)%N then ([c], s') else ([], s)
    | [] => ([], s)
    end in
  match s1 with
  | c :: s2 =>
      if (c =? 48)%N then Some (sign ++ [c], s2)
      else if is_digit c then
        let '(ds, s3) := span_digits s2 in Some (sign ++ c :: ds, s3)
      else None
  | [] => None
  end.

Definition match_frac (s : str) : str * str :=
  match s with
  | c :: s1 =>
      if (c =? 46)%N then
        match span_digits s1 with
        | ([], _) => ([], s)
        | (ds, s2) => (c :: ds, s2)
        end
      else ([], s)
  | [] => ([], s)
  end.

Definition match_exp (s : str) : str * str :=
  match s with
  | c :: s1 =>
      if ((c =? 101) || (c =? 69))%N then
        let '(sign, s2) :=
          match s1 with
          | d :: s1' => if ((d =? 43) || (d =? 45))%N then ([d], s1') else ([], s1)
          | [] => ([], s1)
          end in
        match span_digits s2 with
        | ([], _) => ([], s)
        | (ds, s3) => (c :: sign ++ ds, s3)
        end
      else ([], s)
  | [] => ([], s)
  end.

(** [int(literal)] for a literal matched by the integer part. *)
Definition parse_int (literal : str) : Z :=
  match literal with
  | c :: ds => if (c =? 45)%N then (- Z.of_N (digits_value ds))%Z
               else Z.of_N (digits_value literal)
  | [] => 0%Z
  end.

Section Decoder.
Context {F : Type} `{PyFloat F}.

Definition match_number (s : str) : option (json F * str) :=
  match match_integer s with
  | None => None
  | Some (integer, s1) =>
      let '(frac, s2) := match_frac s1 in
      let '(exp, s3) := match_exp s2 in
      match frac, exp with
      | [], [] => Some (JInt (parse_int integer), s3)
      | _, _ => Some (JFloat (parse_float (integer ++ frac ++ exp)), s3)
      end
  end.

(** The part of [scan_once] that needs no recursion: the three names,
    numbers and the float constants. *)
Definition scan_atom (s : str) : scan_result (json F) :=
  match strip_prefix (lit "null") s with
  | Some rest => Scanned JNone rest
  | None =>
  match strip_prefix (lit "true") s with
  | Some rest => Scanned (JBool true) rest
  | None =>
  match strip_prefix (lit "false") s with
  | Some rest => Scanned (JBool false) rest
  | None =>
  match match_number s with
  | Some (res, rest) => Scanned res rest
  | None =>
  match strip_prefix (lit "NaN") s with
  | Some rest => Scanned (JFloat float_nan) rest
  | None =>
  match strip_prefix (lit "Infinity") s with
  | Some rest => Scanned (JFloat float_inf) rest
  | None =>
  match strip_prefix (lit "-Infinity") s with
  | Some rest => Scanned (JFloat float_neg_inf) rest
  | None => Failed Expecting_value s
  end end end end end end end.

(** [JSONArray]: [s] follows the opening bracket; [items] scans the
    elements up to the closing bracket. *)
Definition JSONArray (items : str -> scan_result (list (json F))) (s : str)
  : scan_result (json F) :=
  let s1 := skip_whitespace s in
  match s1 with
  | c :: s2 =>
      if (c =? 93)%N then Scanned (JList []) s2
      else scan_map JList (items s1)
  | [] => scan_map JList (items s1)
  end.

(** [JSONObject]: [s] follows the opening brace; [items] scans the
    pairs, starting after the opening quote of the first key. *)
Definition JSONObject
    (items : str -> str -> scan_result (list (str * json F))) (s : str)
  : scan_result (json F) :=
  let s1 := skip_whitespace s in
  match s1 with
  | c :: s2 =>
      if (c =? 125)%N then Scanned (JDict []) s2
      else if (c =? QUOTE)%N then
        scan_map (fun pairs => JDict (dict_of_pairs pairs)) (items s1 s2)
      else Failed Expecting_property_name s1
  | [] => Failed Expecting_property_name s1
  end.

Fixpoint scan_once (depth : nat) (s : str) : scan_result (json F) :=
  match depth with
  | O => Exhausted
  | S depth' =>
      match s with
      | [] => Failed Expecting_value s
      | c :: s' =>
          if (c =? QUOTE)%N then scan_map JStr (scanstring s s')
          else if (c =? 123)%N then JSONObject (object_items depth') s'
          else if (c =? 91)%N then JSONArray (array_items depth') s'
          else scan_atom s
      end
  end
(** the loop of [JSONArray] *)
with array_items (depth : nat) (s : str) : scan_result (list (json F)) :=
  match depth with
  | O => Exhausted
  | S depth' =>
      match scan_once depth' s with
      | Scanned value s1 =>
          let s2 := skip_whitespace s1 in
          match s2 with
          | c :: s3 =>
              if (c =? 93)%N then Scanned [value] s3
              else if (c =? 44)%N then
                scan_map (cons value)
                  (array_items depth' (skip_whitespace s3))
              else Failed Expecting_comma_delimiter s2
          | [] => Failed Expecting_comma_delimiter s2
          end
      | Failed msg rest => Failed msg rest
      | Exhausted => Exhausted
      end
  end
(** the loop of [JSONObject] *)
with object_items (depth : nat) (begin s : str)
  : scan_result (list (str * json F)) :=
  match depth with
  | O => Exhausted
  | S depth' =>
      match scanstring begin s with
      | Scanned key s1 =>
          let s2 := skip_whitespace s1 in
          match s2 with
          | c :: s3 =>
              if (c =? 58)%N then
                match scan_once depth' (skip_whitespace s3) with
                | Scanned value s4 =>
                    let s5 := skip_whitespace s4 in
                    match s5 with
                    | d :: s6 =>
                        if (d =? 125)%N then Scanned [(key, value)] s6
                        else if (d =? 44)%N then
                          let s7 := skip_whitespace s6 in
                          match s7 with
                          | q :: s8 =>
                              if (q =? QUOTE)%N then
                                scan_map (cons (key, value))
                                  (object_items depth' s7 s8)
                              else Failed Expecting_property_name s7
                          | [] => Failed Expecting_property_name s7
                          end
                        else Failed Expecting_comma_delimiter s5
                    | [] => Failed Expecting_comma_delimiter s5
                    end
                | Failed msg rest => Failed msg rest
                | Exhausted => Exhausted
                end
              else Failed Expecting_colon_delimiter s2
          | [] => Failed Expecting_colon_delimiter s2
          end
      | Failed msg rest => Failed msg rest
      | Exhausted => Exhausted
      end
  end.

(** What [json.loads] does with a document: a value, a
    [JSONDecodeError] with its message and character position, or the
    recursion giving out. *)
Inductive decode_result : Type :=
| Decoded (obj : json F)
| DecodeError (msg : decode_msg) (pos : nat)
| DepthExceeded.

(** The scanner enters a value, and goes round a loop, only after it
    has consumed a character: this depth is never exceeded. *)
Definition depth_for (s : str) : nat := 2 * length s + 1.

(** [JSONDecoder.decode] *)
Definition decode (s : str) : decode_result :=
  match scan_once (depth_for s) (skip_whitespace s) with
  | Scanned obj rest =>
      match skip_whitespace rest with
      | [] => Decoded obj
      | extra => DecodeError Extra_data (length s - length extra)
      end
  | Failed msg rest => DecodeError msg (length s - length rest)
  | Exhausted => DepthExceeded
  end.

(** [json.loads] *)
Definition loads (s : str) : decode_result :=
  match s with
  | c :: _ => if (c =? 65279)%N then DecodeError Unexpected_BOM 0
              else decode s
  | [] => decode s
  end.
End Decoder.

(** [str(ex)] for a [JSONDecodeError]:
    ["%s: line %d column %d (char %d)"]. *)
Section ErrorText.
Variable isprintable : N -> bool.

Definition msg_text (msg : decode_msg) : str :=
  match msg with
  | Expecting_value => lit "Expecting value"
  | Expecting_property_name =>
      lit "Expecting property name enclosed in double quotes"
  | Expecting_colon_delimiter => lit "Expecting ':' delimiter"
  | Expecting_comma_delimiter => lit "Expecting ',' delimiter"
  | Extra_data => lit "Extra data"
  | Unterminated_string => lit "Unterminated string starting at"
  | Invalid_control_character c =>
      lit "Invalid control character " ++ str_repr isprintable [c] ++ lit " at"
  | Invalid_escape c => lit "Invalid \escape: " ++ str_repr isprintable [c]
  | Invalid_uXXXX_escape => lit "Invalid \uXXXX escape"
  | Unexpected_BOM => lit "Unexpected UTF-8 BOM (decode using utf-8-sig)"
  end.

(** [doc.count('\n', 0, pos) + 1] and [pos - doc.rfind('\n', 0, pos)] *)
Fixpoint line_column (doc : str) (pos : nat) (line col : N) : N * N :=
  match pos, doc with
  | S pos', c :: doc' =>
      if (c =? NEWLINE)%N then line_column doc' pos' (line + 1)%N 1%N
      else line_column doc' pos' line (col + 1)%N
  | _, _ => (line, col)
  end.

Definition decode_error_str (msg : decode_msg) (doc : str) (pos : nat) : str :=
  let '(line, col) := line_column doc pos 1%N 1%N in
  msg_text msg ++ lit ": line " ++ nat_str line ++ lit " column " ++ nat_str col
  ++ lit " (char " ++ nat_str (N.of_nat pos) ++ lit ")".
End ErrorText.

(** ** Values as data *)

Section Values.
Context {F : Type} `{PyFloat F}.

(** The same logical value: equal scalars, lists equal element by
    element, and dicts with the same keys bound to the same values,
    whatever the insertion order (as [==] compares two dicts). *)
Fixpoint same_value (a b : json F) : bool :=
  match a, b with
  | JNone, JNone => true
  | JBool x, JBool y => Bool.eqb x y
  | JInt x, JInt y => (x =? y)%Z
  | JFloat x, JFloat y => float_same x y
  | JStr x, JStr y => bool_decide (x = y)
  | JList xs, JList ys =>
      (fix all2 (xs ys : list (json F)) : bool :=
         match xs, ys with
         | [], [] => true
         | x :: xs', y :: ys' => same_value x y && all2 xs' ys'
         | _, _ => false
         end) xs ys
  | JDict ps, JDict qs =>
      (length ps =? length qs)%nat
      && forallb (fun kv => match kv with
                            | (k, v) =>
                                match dict_get k qs with
                                | Some v' => same_value v v'
                                | None => false
                                end
                            end) ps
  | _, _ => false
  end.

(** The value with the pairs of every dict in key order: what the
    encoder's [sort_keys=True] writes. *)
Fixpoint sort_keys (o : json F) : json F :=
  match o with
  | JList items => JList (List.map sort_keys items)
  | JDict pairs =>
      JDict (sorted_items
               (List.map (fun kv => match kv with
                                    | (k, v) => (k, sort_keys v)
                                    end) pairs))
  | _ => o
  end.

(** The invariant of a Python dict: no key twice. *)
Fixpoint distinct_keys (o : json F) : bool :=
  match o with
  | JList items => forallb distinct_keys items
  | JDict pairs =>
      bool_decide (NoDup (List.map fst pairs))
      && forallb (fun kv => match kv with (_, v) => distinct_keys v end) pairs
  | _ => true
  end.

(** A string of Unicode text: every code point a scalar value, that
    is, in range and not a surrogate. *)
Definition is_scalar_value (c : N) : bool :=
  ((c <? 55296) || ((57343 <? c) && (c <? 1114112)))%N.

Definition is_text (s : str) : bool := forallb is_scalar_value s.

(** The supported shapes of a cluster info document: text strings,
    integers, booleans, null, and lists and dicts of them. *)
Fixpoint supported (o : json F) : bool :=
  match o with
  | JNone | JBool _ | JInt _ => true
  | JFloat _ => false
  | JStr s => is_text s
  | JList items => forallb supported items
  | JDict pairs =>
      bool_decide (NoDup (List.map fst pairs))
      && forallb (fun kv => match kv with
                            | (k, v) => is_text k && supported v
                            end) pairs
  end.
End Values.

(** A value is read back when the scanner, given what the encoder writes
    for it at any level and whatever follows, returns the value with its
    keys sorted and stops where the encoding stops. *)
Definition reads_back {F : Type} `{PyFloat F} (o : json F) : Prop :=
  forall level depth rest,
    delimited rest ->
    2 * length (iterencode level o ++ rest) + 1 <= depth ->
    scan_once depth (iterencode level o ++ rest) = Scanned (sort_keys o) rest.

End Json.

(* ===================================================================== *)
(** * [dcos_launch/cli.py]                                                *)
(* ===================================================================== *)

Module Cli.
Import Py Json.

(** ** Exceptions *)

(** The exceptions that travel through the module.  [JSONDecodeError] is a
    subclass of [ValueError]; [cause] is the [__cause__] set by
    [raise ... from ex]; [FileNotFoundError], [NotADirectoryError],
    [IsADirectoryError] and [PermissionError] are the subclasses of
    [OSError] that [open] raises, and [OSError] itself, with the name of
    its [errno], stands for the others; [OtherError] stands for any
    exception of another class that a collaborator raises. *)
Inductive exn : Type :=
| LauncherError (error : str) (msg : option str) (cause : option exn)
| ValueError (msg : str) (cause : option exn)
| JSONDecodeError (msg : decode_msg) (doc : str) (pos : nat)
| FileNotFoundError (filename : str)
| NotADirectoryError (filename : str)
| IsADirectoryError (filename : str)
| PermissionError (filename : str)
| OSError (errno : str) (filename : str)
| KeyError (key : str)
| RecursionError
| OtherError (name : str).

Inductive Outcome (A : Type) : Type :=
| Returns (a : A)
| Raises (ex : exn).
Arguments Returns {A} a.
Arguments Raises {A} ex.

(** ** The parsed command line: the dictionary [docopt] returns *)

Record Args : Type := {
  args_create : bool;
  args_wait : bool;
  args_describe : bool;
  args_pytest : bool;
  args_delete : bool;
  args_config_path : str;          (* '--config-path' *)
  args_info_path : str;            (* '--info-path' *)
  args_env : option str;           (* '--env', None when not given *)
  args_log_level : str;            (* '--log-level' *)
  args_pytest_extras : list str    (* '<pytest_extras>' *)
}.

(** ** The monad: state and exceptions *)

Definition M (S A : Type) : Type := S -> Outcome A * S.

Definition ret {S A} (a : A) : M S A := fun st => (Returns a, st).

Definition raise {S A} (ex : exn) : M S A := fun st => (Raises ex, st).

Definition bind {S A B} (m : M S A) (k : A -> M S B) : M S B :=
  fun st =>
    match m st with
    | (Returns a, st') => k a st'
    | (Raises ex, st') => (Raises ex, st')
    end.

(** [try: body except ... as ex: handler]; the handler declines an
    exception it does not catch. *)
Definition try_except {S A} (body : M S A) (handler : exn -> option (M S A))
  : M S A :=
  fun st =>
    match body st with
    | (Returns a, st') => (Returns a, st')
    | (Raises ex, st') =>
        match handler ex with
        | Some h => h st'
        | None => (Raises ex, st')
        end
    end.

Declare Scope py_scope.
Delimit Scope py_scope with py.
Notation "x <- m ;; k" := (bind m (fun x => k))
  (at level 100, m at next level, right associativity) : py_scope.
Notation "m ;; k" := (bind m (fun _ => k))
  (at level 100, right associativity) : py_scope.

Section Program.
Context {F : Type} `{PyFloat F}.

(** The state of what lies outside the process: the provider's
    infrastructure, the logger, [sys.argv]. *)
Context {External : Type}.

(** ** The world the program runs in *)

(** [files] holds the files that the process can open and read, each
    with its text.  [unreadable] holds the paths that name no such file
    and at which [open], or the read that follows, fails otherwise than
    by finding nothing: a path through a regular file
    ([NotADirectoryError]), a directory ([IsADirectoryError]), a file
    or a directory that is forbidden ([PermissionError]), a name that
    is too long ([OSError]), a name that holds a NUL or a file that is
    not text ([ValueError]); each with the exception raised.  For a
    path in neither, nothing is there. *)
Record World : Type := {
  files : gmap str str;        (* path to text content *)
  unreadable : gmap str exn;   (* path to the error of [open] *)
  environ : gmap str str;      (* os.environ *)
  stdout : list str;           (* the lines printed *)
  external : External
}.

(** ** Collaborators *)

(** The launcher interface: an object with five methods, which may do
    anything to the world. *)
Record Launcher : Type := {
  create : World -> Outcome (json F) * World;
  wait : World -> Outcome unit * World;
  describe : World -> Outcome (json F) * World;
  test : list str -> gmap str str -> World -> Outcome Z * World;
  delete : World -> Outcome unit * World
}.

(** What the module imports.  [isprintable] and [str_upper] are the
    interpreter's Unicode tables behind [repr] and [str.upper].
    [setup_logging] configures the logger and returns.
    [get_validated_config] reads and validates, without side effect.
    [launcher_error_repr] is [LauncherError.__repr__]. *)
Record Collaborators : Type := {
  isprintable : N -> bool;
  str_upper : str -> str;
  docopt : option (list str) -> External -> Outcome Args;
  setup_logging : str -> External -> External;
  get_validated_config : str -> World -> Outcome (json F);
  get_launcher : json F -> World -> Outcome Launcher * World;
  launcher_error_repr : str -> option str -> option exn -> str
}.

Variable co : Collaborators.

(** ** The state of a run *)

(** Calls to the collaborators are recorded, in order. *)
Inductive Event : Type :=
| Call_setup_logging (level : str)
| Call_get_validated_config (path : str)
| Call_get_launcher (data : json F)
| Call_create
| Call_wait
| Call_describe
| Call_test (extras : list str) (env : gmap str str)
| Call_delete.

Record State : Type := {
  world : World;
  calls : list Event
}.

(** A call of a collaborator that may change the world. *)
Definition call {A} (ev : Event) (f : World -> Outcome A * World)
  : M State A :=
  fun st =>
    let '(r, w) := f (world st) in
    (r, {| world := w; calls := calls st ++ [ev] |}).

Definition get_world : M State World := fun st => (Returns (world st), st).

Definition set_files (fs : gmap str str) : M State unit :=
  fun st =>
    let w := world st in
    (Returns tt,
     {| world := {| files := fs; unreadable := unreadable w;
                    environ := environ w;
                    stdout := stdout w; external := external w |};
        calls := calls st |}).

(** [print(line)] *)
Definition print (line : str) : M State unit :=
  fun st =>
    let w := world st in
    (Returns tt,
     {| world := {| files := files w; unreadable := unreadable w;
                    environ := environ w;
                    stdout := stdout w ++ [line]; external := external w |};
        calls := calls st |}).

Local Open Scope py_scope.

(** [open(filename)] and [f.read()] *)
Definition open_read (filename : str) : M State str :=
  w <- get_world ;;
  match files w !! filename with
  | Some content => ret content
  | None =>
      match unreadable w !! filename with
      | Some ex => raise ex
      | None => raise (FileNotFoundError filename)
      end
  end.

(** [open(filename, "w+")] and the writes that follow: the file is
    created or truncated and holds [content].  The write is taken to
    succeed: a path that cannot be opened for writing, and an encoder
    that raises after the file was truncated, are not modelled. *)
Definition open_write (filename content : str) : M State unit :=
  w <- get_world ;;
  set_files (<[filename := content]> (files w)).

(** [os.path.exists(path)], which holds of the files that can be read.
    It holds as well of a directory and of a forbidden file: the create
    command, the one caller, is modelled for the info paths at which
    neither lies. *)
Definition os_path_exists (path : str) : M State bool :=
  w <- get_world ;;
  ret (bool_decide (is_Some (files w !! path))).

(** [json.load(f)] on the text read.  [loads] reads a text of any
    nesting and with integers of any length, so that [RecursionError] is
    never raised here: the texts on which the interpreter meets its
    recursion limit or its limit on the digits of an integer are set
    apart, in the properties that depend on it, by a hypothesis. *)
Definition json_load (content : str) : M State (json F) :=
  match loads content with
  | Decoded obj => ret obj
  | DecodeError msg pos => raise (JSONDecodeError msg content pos)
  | DepthExceeded => raise RecursionError
  end.

(** ** The module's functions *)

(** [write_json]: the file is opened, then [json.dump] writes into it.
    The two steps are taken together and to succeed, as in
    [open_write]. *)
Definition write_json (filename : str) (data : json F) : M State unit :=
  open_write filename (dumps data).

Definition json_prettyprint (data : json F) : str := dumps data.

Definition load_json (filename : str) : M State (json F) :=
  try_except
    (content <- open_read filename ;;
     json_load content)
    (fun ex =>
       match ex with
       | JSONDecodeError msg doc pos =>
           Some (raise (ValueError
                          (lit "Invalid JSON in " ++ filename ++ lit ": "
                           ++ decode_error_str (isprintable co) msg doc pos)
                          (Some ex)))
       | ValueError msg _ =>
           Some (raise (ValueError
                          (lit "Invalid JSON in " ++ filename ++ lit ": " ++ msg)
                          (Some ex)))
       | _ => None
       end).

(** The calls of [do_main] into its collaborators. *)
Definition call_setup_logging (level : str) : M State unit :=
  call (Call_setup_logging level)
    (fun w => (Returns tt,
               {| files := files w; unreadable := unreadable w;
                  environ := environ w; stdout := stdout w;
                  external := setup_logging co level (external w) |})).

Definition call_get_validated_config (path : str) : M State (json F) :=
  call (Call_get_validated_config path)
    (fun w => (get_validated_config co path w, w)).

Definition call_get_launcher (data : json F) : M State Launcher :=
  call (Call_get_launcher data) (get_launcher co data).

(** [[v for v in var_list if v not in os.environ]] *)
Definition missing_from (env : gmap str str) (var_list : list str) : list str :=
  List.filter (fun v => negb (bool_decide (is_Some (env !! v)))) var_list.

(** [{e: os.environ[e] for e in var_list}] *)
Fixpoint env_dict_from (env : gmap str str) (var_list : list str)
    (acc : gmap str str) : Outcome (gmap str str) :=
  match var_list with
  | [] => Returns acc
  | e :: var_list' =>
      match env !! e with
      | Some value => env_dict_from env var_list' (<[e := value]> acc)
      | None => Raises (KeyError e)
      end
  end.

Definition input_conflict_msg (info_path : str) : str :=
  info_path ++ lit " already exists! Delete this or specify a different cluster info path with the -i option".

Definition option_error_msg : str :=
  lit "The '--env' option can only pass through environment variables from the current environment. Set variables according to the shell being used.".

Definition missing_input_msg (missing : list str) : str :=
  lit "Environment variable arguments have been indicated but not set: "
  ++ list_repr (isprintable co) missing.

Definition do_main (args : Args) : M State (option Z) :=
  call_setup_logging (str_upper co (args_log_level args)) ;;
  let config_path := args_config_path args in
  if args_create args then
    config <- call_get_validated_config config_path ;;
    let info_path := args_info_path args in
    present <- os_path_exists info_path ;;
    if (present : bool) then
      raise (LauncherError (lit "InputConflict")
               (Some (input_conflict_msg info_path)) None)
    else
      launcher <- call_get_launcher config ;;
      data <- call Call_create (create launcher) ;;
      write_json info_path data ;;
      ret (Some 0%Z)
  else
    info <- try_except (load_json (args_info_path args))
              (fun ex =>
                 match ex with
                 | FileNotFoundError _ =>
                     Some (raise (LauncherError (lit "MissingInfoJSON") None
                                    (Some ex)))
                 | _ => None
                 end) ;;
    launcher <- call_get_launcher info ;;
    if args_wait args then
      call Call_wait (wait launcher) ;;
      print (lit "Cluster is ready!") ;;
      ret (Some 0%Z)
    else if args_describe args then
      description <- call Call_describe (describe launcher) ;;
      print (json_prettyprint description) ;;
      ret (Some 0%Z)
    else if args_pytest args then
      var_list <-
        match args_env args with
        | None => ret []
        | Some env =>
            if str_contains 61 env then
              (* User is attempting to do an assigment with the option *)
              raise (LauncherError (lit "OptionError") (Some option_error_msg)
                       None)
            else
              let var_list := str_split 44 env in
              w <- get_world ;;
              let missing := missing_from (environ w) var_list in
              if (0 <? length missing)%nat then
                raise (LauncherError (lit "MissingInput")
                         (Some (missing_input_msg missing)) None)
              else ret var_list
        end ;;
      w <- get_world ;;
      match env_dict_from (environ w) var_list ∅ with
      | Raises ex => raise ex
      | Returns env_dict =>
          code <- call (Call_test (args_pytest_extras args) env_dict)
                    (test launcher (args_pytest_extras args) env_dict) ;;
          ret (Some code)
      end
    else if args_delete args then
      call Call_delete (delete launcher) ;;
      ret (Some 0%Z)
    else ret None.

Definition main (argv : option (list str)) : M State (option Z) :=
  w <- get_world ;;
  match docopt co argv (external w) with
  | Raises ex => raise ex
  | Returns args =>
      try_except (do_main args)
        (fun ex =>
           match ex with
           | LauncherError error msg cause =>
               Some (print (lit "DC/OS Launch encountered an error!") ;;
                     print (launcher_error_repr co error msg cause) ;;
                     ret (Some 1%Z))
           | _ => None
           end)
  end.

(** ** Vocabulary for the properties *)

(** The branch of [do_main] that an argument dictionary selects. *)
Inductive Command : Type := Create | Wait | Describe | Pytest | Delete.

Definition branch (args : Args) : option Command :=
  if args_create args then Some Create
  else if args_wait args then Some Wait
  else if args_describe args then Some Describe
  else if args_pytest args then Some Pytest
  else if args_delete args then Some Delete
  else None.

(** The first statement of the commands other than [create]: the [try]
    around [load_json]. *)
Definition load_info (args : Args) : M State (json F) :=
  try_except (load_json (args_info_path args))
    (fun ex =>
       match ex with
       | FileNotFoundError _ =>
           Some (raise (LauncherError (lit "MissingInfoJSON") None (Some ex)))
       | _ => None
       end).

(** The state once [logging.setup_logging] has returned. *)
Definition after_logging (args : Args) (st : State) : State :=
  snd (call_setup_logging (str_upper co (args_log_level args)) st).

(** The state once the info file is loaded and the launcher is built:
    the factory left the world [w1]. *)
Definition at_launcher (args : Args) (st : State) (info : json F)
    (w1 : World) : State :=
  {| world := w1;
     calls := calls st
              ++ [Call_setup_logging (str_upper co (args_log_level args));
                  Call_get_launcher info] |}.

(** The state after one more call, which left the world [w2]. *)
Definition and_then (st : State) (ev : Event) (w2 : World) : State :=
  {| world := w2; calls := calls st ++ [ev] |}.

(** A program that leaves every file as it is, whatever its outcome. *)
Definition keeps_files {A} (m : M State A) : Prop :=
  forall st, files (world (snd (m st))) = files (world st).

(** A launcher, and a factory, that do not touch the file system. *)
Definition launcher_keeps_files (l : Launcher) : Prop :=
  (forall w, files (snd (create l w)) = files w)
  /\ (forall w, files (snd (wait l w)) = files w)
  /\ (forall w, files (snd (describe l w)) = files w)
  /\ (forall extras env w, files (snd (test l extras env w)) = files w)
  /\ (forall w, files (snd (delete l w)) = files w).

Definition factory_keeps_files : Prop :=
  forall data w,
    files (snd (get_launcher co data w)) = files w
    /\ (forall l, fst (get_launcher co data w) = Returns l ->
                  launcher_keeps_files l).

(** The allowlist that [--env] names. *)
Definition allowlist (args : Args) : list str :=
  match args_env args with
  | None => []
  | Some env => str_split 44 env
  end.

(** Whether the launcher's [test] was called during a run. *)
Definition is_test_call (ev : Event) : bool :=
  match ev with
  | Call_test _ _ => true
  | _ => false
  end.

End Program.

Arguments World : clear implicits.
Arguments Launcher : clear implicits.
Arguments Collaborators : clear implicits.
Arguments Event : clear implicits.
Arguments State : clear implicits.

End Cli.

(* ===================================================================== *)
(** * A stub provider                                                     *)
(* ===================================================================== *)

(** A provider that provisions nothing, with the simplest collaborators
    around it: the instance the general statements are tried on. *)
Module Stub.
Import Py Json Cli.

(** Floats are kept as the text they were read from. *)
#[export] Instance literal_float : PyFloat str := {|
  floatstr x := x;
  parse_float literal := literal;
  float_nan := lit "NaN";
  float_inf := lit "Infinity";
  float_neg_inf := lit "-Infinity";
  float_same x y := bool_decide (x = y);
  float_same_eq x y := bool_decide_eq_true_1 (x = y)
|}.

(** The outside world: whether the cluster is up. *)
Definition with_external (up : bool) (w : World bool) : World bool :=
  {| files := files w; unreadable := unreadable w; environ := environ w;
     stdout := stdout w; external := up |}.

Definition stub_info : json str :=
  JDict [(lit "provider", JStr (lit "stub"))].

Definition stub_launcher : Launcher str bool := {|
  create w := (Returns stub_info, with_external true w);
  wait w := (Returns tt, w);
  describe w := (Returns (JDict []), w);
  test extras env w := (Returns 0%Z, w);
  delete w := (Returns tt, with_external false w)
|}.

Definition ascii_upper (c : N) : N :=
  if ((97 <=? c) && (c <=? 122))%N then (c - 32)%N else c.

Definition default_args : Args := {|
  args_create := false; args_wait := false; args_describe := false;
  args_pytest := false; args_delete := false;
  args_config_path := lit "config.yaml";
  args_info_path := lit "cluster_info.json";
  args_env := None;
  args_log_level := lit "info";
  args_pytest_extras := []
|}.

Definition with_command (c : Command) (env : option str) : Args := {|
  args_create := match c with Create => true | _ => false end;
  args_wait := match c with Wait => true | _ => false end;
  args_describe := match c with Describe => true | _ => false end;
  args_pytest := match c with Pytest => true | _ => false end;
  args_delete := match c with Delete => true | _ => false end;
  args_config_path := lit "config.yaml";
  args_info_path := lit "cluster_info.json";
  args_env := env;
  args_log_level := lit "info";
  args_pytest_extras := []
|}.

(** A command line of one word, the command. *)
Definition stub_docopt (argv : option (list str)) (_ : bool) : Outcome Args :=
  match argv with
  | Some [cmd] =>
      if decide (cmd = lit "create") then Returns (with_command Create None)
      else if decide (cmd = lit "wait") then Returns (with_command Wait None)
      else if decide (cmd = lit "describe") then Returns (with_command Describe None)
      else if decide (cmd = lit "pytest") then Returns (with_command Pytest None)
      else if decide (cmd = lit "delete") then Returns (with_command Delete None)
      else Raises (OtherError (lit "DocoptExit"))
  | _ => Raises (OtherError (lit "DocoptExit"))
  end.

(** Modelled from the spec: [dcos_launch.config.get_validated_config],
    which "fails with a structured validation error (kind ConfigError)
    when the file is missing, malformed, or fails schema checks" and has
    no side effect.  Here a configuration is a JSON object. *)
Definition stub_get_validated_config (path : str) (w : World bool)
  : Outcome (json str) :=
  match files w !! path with
  | None => Raises (LauncherError (lit "ConfigError") (Some path) None)
  | Some content =>
      match loads content with
      | Decoded (JDict pairs) => Returns (JDict pairs)
      | _ => Raises (LauncherError (lit "ConfigError") (Some path) None)
      end
  end.

(** Modelled from the spec: [dcos_launch.get_launcher], which selects the
    provider "by inspecting a provider-identity field" and "fails with
    kind UnsupportedProvider if the identity is unrecognized". *)
Definition stub_get_launcher (data : json str) (w : World bool)
  : Outcome (Launcher str bool) * World bool :=
  match data with
  | JDict pairs =>
      match dict_get (lit "provider") pairs with
      | Some (JStr name) =>
          if decide (name = lit "stub") then (Returns stub_launcher, w)
          else (Raises (LauncherError (lit "UnsupportedProvider") (Some name) None), w)
      | _ => (Raises (LauncherError (lit "UnsupportedProvider") None None), w)
      end
  | _ => (Raises (LauncherError (lit "UnsupportedProvider") None None), w)
  end.

(** Modelled from the spec: a domain error is "printed with its kind and
    message". *)
Definition stub_error_repr (error : str) (msg : option str)
    (cause : option exn) : str :=
  error ++ lit ": " ++ match msg with Some m => m | None => lit "None" end.

Definition stub : Collaborators str bool := {|
  isprintable c := true;
  str_upper := List.map ascii_upper;
  docopt := stub_docopt;
  setup_logging level up := up;
  get_validated_config := stub_get_validated_config;
  get_launcher := stub_get_launcher;
  launcher_error_repr := stub_error_repr
|}.

(** A world with the given files and environment variables, nothing
    printed, no cluster. *)
Definition world_of (fs env : list (str * str)) : World bool := {|
  files := list_to_map fs;
  unreadable := ∅;
  environ := list_to_map env;
  stdout := [];
  external := false
|}.

Definition start (fs env : list (str * str)) : State str bool :=
  {| world := world_of fs env; calls := [] |}.

(** Text with apostrophes standing for double quotes. *)
Definition dq (s : string) : str :=
  List.map (fun c => if (c =? APOSTROPHE)%N then QUOTE else c) (lit s).

(** Files and states to run the commands on. *)
Definition info_path : str := lit "cluster_info.json".
Definition info_text : str := dq "{'provider':'stub'}".
Definition bad_text : str := lit "not json".

(** No file at all; the variable A set to 1. *)
Definition st_none : State str bool := start [] [(lit "A", lit "1")].

(** The info file of a stub cluster; the variable A set to 1. *)
Definition st_info : State str bool :=
  start [(info_path, info_text)] [(lit "A", lit "1")].

(** An info file that is not JSON. *)
Definition st_bad : State str bool := start [(info_path, bad_text)] [].


(** A cluster info document with every supported shape, and the same
    document with its pairs inserted in another order. *)
Definition sample_info : json str :=
  JDict [(lit "provider", JStr (lit "stub"));
         (lit "name", JStr [233; 128512; 10]%N);
         (lit "nodes", JList [JInt 3; JInt (-12); JList []; JDict []]);
         (lit "ready", JBool true);
         (lit "owner", JNone);
         (lit "ssh", JDict [(lit "user", JStr (lit "core"));
                            (lit "port", JInt 22)])].

Definition sample_info_reordered : json str :=
  JDict [(lit "ssh", JDict [(lit "port", JInt 22);
                            (lit "user", JStr (lit "core"))]);
         (lit "owner", JNone);
         (lit "ready", JBool true);
         (lit "nodes", JList [JInt 3; JInt (-12); JList []; JDict []]);
         (lit "name", JStr [233; 128512; 10]%N);
         (lit "provider", JStr (lit "stub"))].

End Stub.

(* ===================================================================== *)
(** * More vocabulary for the properties                                  *)
(* ===================================================================== *)

Module Terms.
Import Py Json Cli.

Section Worlds.
Context {F : Type} `{PyFloat F} {External : Type}.

(** The world with one more line printed. *)
Definition with_line (w : World External) (line : str) : World External :=
  {| files := files w; unreadable := unreadable w; environ := environ w;
     stdout := stdout w ++ [line]; external := external w |}.


(** The state once [create] has validated the configuration. *)
Definition at_config (co : Collaborators F External) (args : Args)
    (st : State F External) : State F External :=
  and_then (after_logging co args st)
    (Call_get_validated_config (args_config_path args))
    (world (after_logging co args st)).

(** What the [except ValueError] clause of [load_json] makes of an
    exception raised under its [try]: a [ValueError] is raised again
    with the path in front of its text and itself as cause, any other
    exception goes through. *)
Definition reraised (co : Collaborators F External) (filename : str)
    (ex : exn) : exn :=
  match ex with
  | JSONDecodeError msg doc pos =>
      ValueError (lit "Invalid JSON in " ++ filename ++ lit ": "
                  ++ decode_error_str (isprintable co) msg doc pos) (Some ex)
  | ValueError msg _ =>
      ValueError (lit "Invalid JSON in " ++ filename ++ lit ": " ++ msg)
        (Some ex)
  | _ => ex
  end.

(** What the [except FileNotFoundError] clause of [do_main] makes of an
    exception that [load_json] raises. *)
Definition info_error (ex : exn) : exn :=
  match ex with
  | FileNotFoundError _ => LauncherError (lit "MissingInfoJSON") None (Some ex)
  | _ => ex
  end.

(** Whether an exception is a domain error. *)
Definition is_LauncherError (ex : exn) : bool :=
  match ex with
  | LauncherError _ _ _ => true
  | _ => false
  end.

(** Whether any method of the launcher was called during a run. *)
Definition is_launcher_call (ev : Event F) : bool :=
  match ev with
  | Call_create | Call_wait | Call_describe | Call_test _ _ | Call_delete => true
  | _ => false
  end.
End Worlds.

(** A name made of printable ASCII characters other than the apostrophe
    and the backslash, and the name between apostrophes. *)
Definition is_name_char (c : N) : bool :=
  ((32 <=? c) && (c <=? 126) && negb (c =? 39) && negb (c =? 92))%N.

Definition is_name (s : str) : bool := forallb is_name_char s.

Definition quoted (s : str) : str := APOSTROPHE :: s ++ [APOSTROPHE].

(** Every character of a text is printable ASCII or a newline. *)
Definition is_plain_char (c : N) : bool :=
  ((c =? 10) || ((32 <=? c) && (c <=? 126)))%N.

Definition is_plain_text (s : str) : bool := forallb is_plain_char s.

Definition plain (s : str) : Prop := Forall (fun c => is_plain_char c = true) s.

Section Values.
Context {F : Type} `{PyFloat F}.

(** The floats of a value are written as plain text. *)
Fixpoint plain_floats (o : json F) : bool :=
  match o with
  | JFloat x => is_plain_text (floatstr x)
  | JList items => forallb plain_floats items
  | JDict pairs => forallb (fun kv => plain_floats (snd kv)) pairs
  | _ => true
  end.

(** A float is read back when the decoder reads the text that the
    encoder writes for it, all of it, as the same float. *)
Definition float_reads_back (x : F) : bool :=
  match scan_atom (floatstr x) with
  | Scanned (JFloat y) [] => float_same y x
  | _ => false
  end.

(** The supported shapes with floats: text strings, integers, floats
    that are read back, booleans, null, and lists and dicts of them. *)
Fixpoint supported_with_floats (o : json F) : bool :=
  match o with
  | JNone | JBool _ | JInt _ => true
  | JFloat x => float_reads_back x
  | JStr s => is_text s
  | JList items => forallb supported_with_floats items
  | JDict pairs =>
      bool_decide (NoDup (List.map fst pairs))
      && forallb (fun kv => match kv with
                            | (k, v) => is_text k && supported_with_floats v
                            end) pairs
  end.

(** An encoded value starts with an ASCII character that is neither
    whitespace nor a closing bracket. *)
Definition starts_a_value (o : json F) : Prop :=
  forall level,
    exists c s, iterencode level o = c :: s
                /\ is_whitespace c = false /\ c <> 93%N /\ (c < 128)%N.

(** ** The limits of the interpreter *)

(** The interpreter converts an integer to and from decimal text only up
    to a number of digits, 4300 unless it is set otherwise
    ([sys.int_info.default_max_str_digits]); the encoder and the decoder
    raise [ValueError] beyond it. *)
Definition int_max_str_digits : nat := 4300.

Fixpoint within_int_limit (o : json F) : bool :=
  match o with
  | JInt n => (length (nat_str (Z.abs_N n)) <=? int_max_str_digits)%nat
  | JList items => forallb within_int_limit items
  | JDict pairs => forallb (fun kv => within_int_limit (snd kv)) pairs
  | _ => true
  end.

(** The encoder and the decoder descend into a list or a dict by a call,
    and the interpreter gives up with a [RecursionError] beyond its
    recursion limit, 1000 frames unless it is set otherwise, some of
    them in use when the descent starts.  A nesting of [nesting_margin]
    stays within it. *)
Definition nesting_margin : nat := 500.

Fixpoint nesting (o : json F) : nat :=
  match o with
  | JList items =>
      S (fold_right (fun item n => Nat.max (nesting item) n) 0%nat items)
  | JDict pairs =>
      S (fold_right (fun kv n => Nat.max (nesting (snd kv)) n) 0%nat pairs)
  | _ => 0%nat
  end.

(** The values that the encoder writes and the decoder reads without
    meeting either limit. *)
Definition within_limits (o : json F) : bool :=
  within_int_limit o && (nesting o <=? nesting_margin)%nat.

(** ** The canonical form, as the specification words it *)

(** Modelled from the spec: the file is "pretty-printed with 2-space
    indent and sorted keys, [:]-separated key/value with no trailing
    space".  The text is given by its lines, for a value whose pairs
    stand in the order to be written.  A scalar is one line, and so is
    an empty list or dict.  Otherwise the opening bracket is a line, the
    closing bracket is a line, and between them stand the lines of the
    elements, two spaces further in, each element but the last followed
    by a comma; a pair is its key between double quotes, a colon and
    its value, which starts on the same line. *)
Definition scalar_text (o : json F) : str :=
  match o with
  | JNone => lit "null"
  | JBool true => lit "true"
  | JBool false => lit "false"
  | JInt n => int_str n
  | JFloat x => floatstr x
  | JStr s => encode_basestring_ascii s
  | _ => []
  end.

Definition indented (lines : list str) : list str :=
  List.map (fun line => lit "  " ++ line) lines.

(** The lines with [suffix] at the end of the last one. *)
Fixpoint followed_by (suffix : str) (lines : list str) : list str :=
  match lines with
  | [] => []
  | [line] => [line ++ suffix]
  | line :: rest => line :: followed_by suffix rest
  end.

(** The blocks one after the other, a comma after each but the last. *)
Fixpoint separated (blocks : list (list str)) : list str :=
  match blocks with
  | [] => []
  | [block] => block
  | block :: rest => followed_by (lit ",") block ++ separated rest
  end.

(** The key and the colon in front of the first line of the value. *)
Definition labelled (key : str) (lines : list str) : list str :=
  match lines with
  | [] => [encode_basestring_ascii key ++ lit ":"]
  | line :: rest => (encode_basestring_ascii key ++ lit ":" ++ line) :: rest
  end.

Fixpoint canonical_lines (o : json F) : list str :=
  match o with
  | JList [] => [lit "[]"]
  | JList items =>
      [lit "["] ++ indented (separated (List.map canonical_lines items))
      ++ [lit "]"]
  | JDict [] => [lit "{}"]
  | JDict pairs =>
      [lit "{"]
      ++ indented
           (separated
              (List.map (fun kv => labelled (fst kv) (canonical_lines (snd kv)))
                 pairs))
      ++ [lit "}"]
  | _ => [scalar_text o]
  end.

Definition canonical_text (o : json F) : str :=
  str_join [NEWLINE] (canonical_lines o).

(** The keys of every dict stand in increasing order, by code point. *)
Fixpoint ascending (keys : list str) : bool :=
  match keys with
  | k1 :: (k2 :: _) as rest => str_ltb k1 k2 && ascending rest
  | _ => true
  end.

Fixpoint keys_ascending (o : json F) : bool :=
  match o with
  | JList items => forallb keys_ascending items
  | JDict pairs =>
      ascending (List.map fst pairs)
      && forallb (fun kv => keys_ascending (snd kv)) pairs
  | _ => true
  end.
End Values.

(** The same limits, on a text to decode: a text with at most
    [nesting_margin] opening brackets and no run of more than
    [int_max_str_digits] digits stays within both. *)
Definition opens_a_container (c : N) : bool := ((c =? 91) || (c =? 123))%N.

Fixpoint openings (content : str) : nat :=
  match content with
  | [] => 0
  | c :: rest =>
      if opens_a_container c then S (openings rest) else openings rest
  end.

Fixpoint longest_digit_run (content : str) (run : nat) : nat :=
  match content with
  | [] => run
  | c :: rest =>
      if is_digit c then longest_digit_run rest (S run)
      else Nat.max run (longest_digit_run rest 0)
  end.

Definition within_decoder_limits (content : str) : bool :=
  (openings content <=? nesting_margin)%nat
  && (longest_digit_run content 0 <=? int_max_str_digits)%nat.

Section Runs.
Context {F : Type} `{PyFloat F} {External : Type}.
Variable co : Collaborators F External.

(** A create command that fails before it writes: the configuration is
    refused, a file exists at the info path, the factory raises or the
    launcher's [create] raises. *)
Definition fails_before_writing (args : Args) (st : State F External)
  : Prop :=
  match get_validated_config co (args_config_path args)
          (world (after_logging co args st)) with
  | Raises _ => True
  | Returns config =>
      is_Some (files (world st) !! args_info_path args)
      \/ match get_launcher co config (world (after_logging co args st)) with
         | (Raises _, _) => True
         | (Returns l, w1) => exists ex w2, create l w1 = (Raises ex, w2)
         end
  end.

End Runs.

End Terms.

(* ===================================================================== *)
(** * More files and states for the stub provider                         *)
(* ===================================================================== *)

Module Samples.
Import Py Json Cli Stub.






(** An info file that holds one newline. *)
Definition st_blank : State str bool := start [(info_path, [NEWLINE])] [].

(** A description with a float and a string outside ASCII. *)
Definition sample_description : json str :=
  JDict [(lit "load", JFloat (lit "1.5"));
         (lit "name", JStr [233; 128512; 10; 127]%N)].

(** Measurements: floats with a fraction, with an exponent, and the
    constant for infinity, beside an integer. *)
Definition sample_measurements : json str :=
  JDict [(lit "load", JFloat (lit "1.5"));
         (lit "limit", JFloat (lit "Infinity"));
         (lit "delta", JFloat (lit "-2.5e-3"));
         (lit "count", JInt 3)].

(** A path through the info file, which is a regular file: [open]
    fails on it with [NotADirectoryError]. *)
Definition nested_path : str := lit "cluster_info.json/x".

Definition st_nested : State str bool :=
  {| world := {| files := list_to_map [(info_path, info_text)];
                 unreadable := {[ nested_path := NotADirectoryError nested_path ]};
                 environ := ∅;
                 stdout := [];
                 external := false |};
     calls := [] |}.


(** The info file of a stub cluster; the variables A, B and C set. *)
Definition st_vars : State str bool :=
  start [(info_path, info_text)]
    [(lit "A", lit "1"); (lit "B", lit "2"); (lit "C", lit "3")].

(** A string of two surrogate code points, which together encode one
    character outside the basic plane. *)
Definition surrogate_pair_text : json str := JStr [55357; 56832]%N.

(** A document with every shape, floats among them. *)
Definition sample_document : json str :=
  JList [sample_info; sample_measurements].

End Samples.

(* ===================================================================== *)
(** * Facts about the Python runtime                                      *)
(* ===================================================================== *)

Module PyFacts.
Import Py.

(** ** The order on strings *)

Lemma str_compare_refl a : str_compare a a = Eq.
Proof. induction a as [|x a IH]; simpl; [done|]. now rewrite N.compare_refl. Qed.

Lemma str_compare_eq a b : str_compare a b = Eq -> a = b.
Proof.
  revert b. induction a as [|x a IH]; intros [|y b]; simpl; try done.
  destruct (x ?= y)%N eqn:E; try done.
  apply N.compare_eq in E. intros Hab. f_equal; auto.
Qed.

Lemma str_compare_antisym a b : str_compare b a = CompOpp (str_compare a b).
Proof.
  revert b. induction a as [|x a IH]; intros [|y b]; simpl; try done.
  rewrite (N.compare_antisym x y).
  destruct (x ?= y)%N; simpl; auto.
Qed.

Lemma str_compare_lt_trans a b c :
  str_compare a b = Lt -> str_compare b c = Lt -> str_compare a c = Lt.
Proof.
  revert b c. induction a as [|x a IH]; intros [|y b] [|z c]; simpl; try done.
  destruct (x ?= y)%N eqn:Exy; try done.
  - apply N.compare_eq in Exy as ->.
    destruct (y ?= z)%N; try done. apply IH.
  - intros _. destruct (y ?= z)%N eqn:Eyz; try done.
    + apply N.compare_eq in Eyz as <-. now rewrite Exy.
    + intros _. rewrite N.compare_lt_iff in *.
      assert (Hxz : (x < z)%N) by lia.
      apply N.compare_lt_iff in Hxz. now rewrite Hxz.
Qed.

Lemma str_leb_total a b : str_leb a b = false -> str_leb b a = true.
Proof.
  unfold str_leb. rewrite (str_compare_antisym a b).
  destruct (str_compare a b); simpl; done.
Qed.

Lemma str_leb_antisym a b : str_leb a b = true -> str_leb b a = true -> a = b.
Proof.
  unfold str_leb. rewrite (str_compare_antisym a b).
  destruct (str_compare a b) eqn:E; simpl; try done.
  intros _ _. now apply str_compare_eq.
Qed.

Lemma str_leb_trans a b c :
  str_leb a b = true -> str_leb b c = true -> str_leb a c = true.
Proof.
  unfold str_leb.
  destruct (str_compare a b) eqn:Eab; try done; intros _.
  - apply str_compare_eq in Eab as ->. done.
  - destruct (str_compare b c) eqn:Ebc; try done; intros _.
    + apply str_compare_eq in Ebc as <-. now rewrite Eab.
    + now rewrite (str_compare_lt_trans _ _ _ Eab Ebc).
Qed.

(** ** [sorted_items] *)

Section Sorting.
Context {V : Type}.
Implicit Types (l : list (str * V)) (kv : str * V).

Lemma insert_item_Permutation kv l : insert_item kv l ≡ₚ kv :: l.
Proof.
  induction l as [|x l IH]; simpl; [done|].
  destruct (str_leb kv.1 x.1); [done|].
  rewrite IH. apply Permutation_swap.
Qed.

Lemma sorted_items_Permutation l : sorted_items l ≡ₚ l.
Proof.
  induction l as [|kv l IH]; simpl; [done|].
  now rewrite insert_item_Permutation, IH.
Qed.

Lemma insert_item_comm x y l :
  x.1 <> y.1 ->
  insert_item x (insert_item y l) = insert_item y (insert_item x l).
Proof.
  intros Hne.
  assert (Hxy : str_leb x.1 y.1 = negb (str_leb y.1 x.1)).
  { destruct (str_leb x.1 y.1) eqn:Exy, (str_leb y.1 x.1) eqn:Eyx; try done.
    - exfalso. apply Hne. now apply str_leb_antisym.
    - apply str_leb_total in Exy. congruence. }
  induction l as [|z l IH]; simpl.
  - rewrite Hxy. destruct (str_leb y.1 x.1); done.
  - destruct (str_leb y.1 z.1) eqn:Eyz, (str_leb x.1 z.1) eqn:Exz; simpl;
      rewrite ?Eyz, ?Exz.
    + rewrite Hxy. destruct (str_leb y.1 x.1); simpl; now rewrite ?Eyz, ?Exz.
    + destruct (str_leb x.1 y.1) eqn:Exy; [|done].
      now rewrite (str_leb_trans _ _ _ Exy Eyz) in Exz.
    + destruct (str_leb y.1 x.1) eqn:Eyx; [|done].
      now rewrite (str_leb_trans _ _ _ Eyx Exz) in Eyz.
    + now rewrite IH.
Qed.

Lemma sorted_items_perm l1 l2 :
  l1 ≡ₚ l2 -> NoDup (List.map fst l1) -> sorted_items l1 = sorted_items l2.
Proof.
  induction 1 as [|x l1 l2 Hp IH|x y l|l1 l2 l3 Hp1 IH1 Hp2 IH2]; intros Hnd.
  - done.
  - simpl. rewrite IH; [done|]. simpl in Hnd. now apply NoDup_cons in Hnd as [_ ?].
  - simpl. apply insert_item_comm.
    simpl in Hnd. apply NoDup_cons in Hnd as [Hnin _].
    intros E. apply Hnin. rewrite E. left.
  - rewrite IH1 by done. apply IH2.
    assert (Hm : List.map fst l1 ≡ₚ List.map fst l2) by now apply Permutation_map.
    now rewrite <- Hm.
Qed.

End Sorting.

Lemma insert_item_map_values {V W} (f : V -> W) (kv : str * V) l :
  insert_item (kv.1, f kv.2) (List.map (fun x => (x.1, f x.2)) l)
  = List.map (fun x => (x.1, f x.2)) (insert_item kv l).
Proof.
  induction l as [|x l IH]; simpl; [done|].
  destruct (str_leb kv.1 x.1); simpl; [done|]. now rewrite IH.
Qed.

Lemma sorted_items_map_values {V W} (f : V -> W) (l : list (str * V)) :
  sorted_items (List.map (fun x => (x.1, f x.2)) l)
  = List.map (fun x => (x.1, f x.2)) (sorted_items l).
Proof.
  induction l as [|kv l IH]; simpl; [done|].
  rewrite IH. apply insert_item_map_values.
Qed.

(** ** Dicts *)

Lemma dict_set_fresh {V} k (v : V) d :
  k ∉ List.map fst d -> dict_set k v d = d ++ [(k, v)].
Proof.
  induction d as [|[k' v'] d IH]; simpl; [done|].
  intros Hnin. apply not_elem_of_cons in Hnin as [Hne Hnin].
  rewrite decide_False by congruence. now rewrite IH.
Qed.

Lemma dict_of_pairs_distinct {V} (pairs : list (str * V)) :
  NoDup (List.map fst pairs) -> dict_of_pairs pairs = pairs.
Proof.
  unfold dict_of_pairs.
  assert (G : forall acc,
    NoDup (List.map fst (acc ++ pairs)) ->
    fold_left (fun d kv => dict_set kv.1 kv.2 d) pairs acc = acc ++ pairs).
  { induction pairs as [|[k v] pairs IH]; intros acc Hnd; simpl.
    - now rewrite app_nil_r.
    - rewrite dict_set_fresh.
      + rewrite IH; rewrite <- app_assoc; [done|exact Hnd].
      + rewrite map_app in Hnd. simpl in Hnd.
        apply NoDup_app in Hnd as (_ & Hdisj & _).
        intros Hin. apply (Hdisj k Hin). left. }
  intros Hnd. apply (G []). exact Hnd.
Qed.

Lemma dict_get_elem_of {V} k (v : V) d :
  NoDup (List.map fst d) -> (k, v) ∈ d -> dict_get k d = Some v.
Proof.
  induction d as [|[k' v'] d IH]; simpl; intros Hnd Hin; [inversion Hin|].
  apply NoDup_cons in Hnd as [Hnin Hnd].
  apply elem_of_cons in Hin as [[= -> ->]|Hin].
  - now rewrite decide_True.
  - rewrite decide_False; [auto|].
    intros ->. apply Hnin.
    apply list_elem_of_In, in_map_iff. exists (k, v). split; [done|].
    now apply list_elem_of_In.
Qed.

Lemma dict_get_Some {V} k (v : V) d : dict_get k d = Some v -> (k, v) ∈ d.
Proof.
  induction d as [|[k' v'] d IH]; simpl; [done|].
  destruct (decide (k' = k)) as [->|Hne].
  - intros [= ->]. left.
  - intros Hg. right. auto.
Qed.


(** ** Decimal integers *)

Lemma size_nat_bound p : (N.pos p < 2 ^ N.of_nat (Pos.size_nat p))%N.
Proof.
  induction p as [p IH|p IH|]; simpl Pos.size_nat;
    rewrite ?Nat2N.inj_succ, ?N.pow_succ_r'; lia.
Qed.

Lemma is_digit_spec c : is_digit c = true <-> (48 <= c <= 57)%N.
Proof. unfold is_digit. rewrite andb_true_iff, !N.leb_le. tauto. Qed.

(** What [digits_aux] puts in front of the accumulator: digits, none of
    them a leading zero, whose value is [n]. *)
Lemma digits_aux_spec fuel :
  forall n acc,
    (n < 2 ^ N.of_nat fuel)%N ->
    exists c ds,
      digits_aux fuel n acc = c :: ds ++ acc
      /\ Forall (fun d => is_digit d = true) (c :: ds)
      /\ (n = 0%N -> c = 48%N /\ ds = [])
      /\ ((0 < n)%N -> (49 <= c)%N)
      /\ forall a,
           fold_left (fun acc d => (10 * acc + (d - 48))%N) (c :: ds) a
           = (a * 10 ^ N.of_nat (length (c :: ds)) + n)%N.
Proof.
  induction fuel as [|fuel IH]; intros n acc Hn.
  - assert (n = 0%N) as -> by (simpl in Hn; lia).
    exists 48%N, []. simpl.
    split; [done|]. split; [repeat constructor|].
    split; [done|]. split; [lia|]. intros a. lia.
  - simpl digits_aux.
    assert (Hmod : (n mod 10 < 10)%N) by (apply N.mod_lt; lia).
    pose proof (N.div_mod n 10 ltac:(lia)) as Hdm.
    rewrite Nat2N.inj_succ, N.pow_succ_r' in Hn.
    set (q := (n / 10)%N) in *. set (r := (n mod 10)%N) in *.
    clearbody q r.
    destruct (q =? 0)%N eqn:Ediv.
    + apply N.eqb_eq in Ediv. subst q.
      exists (48 + r)%N, []. simpl.
      split; [done|]. split.
      { constructor; [apply is_digit_spec; lia|constructor]. }
      split; [intros ->; split; [lia|done]|]. split; [lia|]. intros a. lia.
    + apply N.eqb_neq in Ediv.
      destruct (IH q ((48 + r)%N :: acc))
        as (c & ds & E & Hdig & _ & Hpos & Hval).
      { generalize dependent (2 ^ N.of_nat fuel)%N. intros. lia. }
      exists c, (ds ++ [(48 + r)%N]).
      split. { rewrite E. now rewrite <- app_assoc. }
      split.
      { rewrite app_comm_cons. apply Forall_app. split; [exact Hdig|].
        constructor; [apply is_digit_spec; lia|constructor]. }
      split. { intros ->. lia. }
      split. { intros _. apply Hpos. lia. }
      intros a. rewrite app_comm_cons, fold_left_app, Hval. simpl fold_left.
      rewrite length_app. simpl length.
      replace (N.of_nat (S (length ds) + 1))
        with (N.succ (N.of_nat (S (length ds)))) by lia.
      rewrite N.pow_succ_r'.
      generalize dependent (10 ^ N.of_nat (S (length ds)))%N.
      intros. nia.
Qed.

Lemma nat_str_spec n :
  exists c ds,
    nat_str n = c :: ds
    /\ Forall (fun d => is_digit d = true) (c :: ds)
    /\ (n = 0%N -> c = 48%N /\ ds = [])
    /\ ((0 < n)%N -> (49 <= c)%N)
    /\ digits_value (c :: ds) = n.
Proof.
  unfold nat_str, digits_value.
  destruct (digits_aux_spec (N.size_nat n) n [])
    as (c & ds & E & Hdig & Hz & Hpos & Hval).
  { destruct n as [|p]; [simpl; lia|apply size_nat_bound]. }
  exists c, ds. rewrite app_nil_r in E.
  split; [exact E|]. split; [exact Hdig|]. split; [exact Hz|].
  split; [exact Hpos|]. rewrite Hval. lia.
Qed.

(** ** Hexadecimal *)

Lemma hex_value_hex_digit d : (d < 16)%N -> hex_value (hex_digit d) = Some d.
Proof.
  intros Hd. unfold hex_digit, hex_value.
  destruct (d <? 10)%N eqn:E.
  - apply N.ltb_lt in E.
    replace ((48 <=? 48 + d) && (48 + d <=? 57))%N with true.
    + f_equal. lia.
    + symmetry. apply andb_true_iff. rewrite !N.leb_le. lia.
  - apply N.ltb_ge in E.
    replace ((48 <=? 87 + d) && (87 + d <=? 57))%N with false.
    + replace ((97 <=? 87 + d) && (87 + d <=? 102))%N with true.
      * f_equal. lia.
      * symmetry. apply andb_true_iff. rewrite !N.leb_le. lia.
    + symmetry. apply andb_false_iff. right. apply N.leb_gt. lia.
Qed.

End PyFacts.

(* ===================================================================== *)
(** * Facts about the encoder and the decoder                             *)
(* ===================================================================== *)

Module JsonFacts.
Import Py Json PyFacts.

(** ** Escapes of the encoder, read back by [scanstring] *)

Lemma decode_uXXXX_hex4 c :
  (c < 65536)%N ->
  match hex4 c with
  | [h1; h2; h3; h4] => decode_uXXXX h1 h2 h3 h4 = Some c
  | _ => False
  end.
Proof.
  intros Hc. unfold hex4, hex2. simpl app. unfold decode_uXXXX.
  pose proof (N.div_mod c 256 ltac:(lia)) as E1.
  pose proof (N.mod_lt c 256 ltac:(lia)) as B1.
  set (hi := (c / 256)%N) in *. set (lo := (c mod 256)%N) in *. clearbody hi lo.
  assert (Hhi : (hi < 256)%N) by lia.
  rewrite (N.mod_small hi 256) by exact Hhi.
  pose proof (N.div_mod hi 16 ltac:(lia)) as E2.
  pose proof (N.mod_lt hi 16 ltac:(lia)) as B2.
  pose proof (N.div_mod lo 16 ltac:(lia)) as E3.
  pose proof (N.mod_lt lo 16 ltac:(lia)) as B3.
  set (a := (hi / 16)%N) in *. set (b := (hi mod 16)%N) in *.
  set (c' := (lo / 16)%N) in *. set (d := (lo mod 16)%N) in *.
  clearbody a b c' d.
  assert (Ha : (a < 16)%N) by lia. assert (Hc' : (c' < 16)%N) by lia.
  rewrite (N.mod_small a 16), (N.mod_small c' 16) by done.
  rewrite !hex_value_hex_digit by done.
  f_equal. lia.
Qed.

Lemma lor_high_low k x :
  (x < 1024)%N -> N.lor (k * 1024) x = (k * 1024 + x)%N.
Proof.
  intros Hx.
  assert (Hland : N.land (k * 1024) x = 0%N).
  { apply N.bits_inj. intros i. rewrite N.land_spec, N.bits_0.
    destruct (N.lt_ge_cases i 10) as [Hi|Hi].
    - replace (k * 1024)%N with (N.shiftl k 10) by (rewrite N.shiftl_mul_pow2; done).
      now rewrite N.shiftl_spec_low.
    - replace x with (x mod 2 ^ 10)%N by (apply N.mod_small; exact Hx).
      rewrite N.mod_pow2_bits_high by exact Hi. apply andb_false_r. }
  rewrite <- N.lxor_lor by exact Hland.
  symmetry. now apply N.add_nocarry_lxor.
Qed.

(** The surrogate pair the encoder writes for a code point beyond the
    basic plane, and the code point the decoder joins it into. *)
Lemma surrogate_pair c :
  (65536 <= c < 1114112)%N ->
  let n := (c - 65536)%N in
  let s1 := N.lor 55296 (N.land (N.shiftr n 10) 1023) in
  let s2 := N.lor 56320 (N.land n 1023) in
  (s1 < 65536)%N /\ (s2 < 65536)%N
  /\ is_high_surrogate s1 = true /\ is_low_surrogate s2 = true
  /\ join_surrogates s1 s2 = c.
Proof.
  intros Hc n s1 s2.
  assert (Hn : (n < 1048576)%N) by (unfold n; lia).
  pose proof (N.div_mod n 1024 ltac:(lia)) as E.
  pose proof (N.mod_lt n 1024 ltac:(lia)) as B.
  assert (Hq : (n / 1024 < 1024)%N).
  { apply N.Div0.div_lt_upper_bound. lia. }
  assert (E1 : s1 = (55296 + n / 1024)%N).
  { unfold s1. change 1023%N with (N.ones 10). rewrite N.land_ones.
    rewrite N.shiftr_div_pow2. change (2 ^ 10)%N with 1024%N.
    rewrite (N.mod_small _ _ Hq).
    change 55296%N with (54 * 1024)%N. now apply lor_high_low. }
  assert (E2 : s2 = (56320 + n mod 1024)%N).
  { unfold s2. change 1023%N with (N.ones 10). rewrite N.land_ones.
    change (2 ^ 10)%N with 1024%N.
    change 56320%N with (55 * 1024)%N. now apply lor_high_low. }
  set (q := (n / 1024)%N) in *. set (r := (n mod 1024)%N) in *. clearbody q r.
  split; [lia|]. split; [lia|].
  split. { unfold is_high_surrogate. apply andb_true_iff. rewrite !N.leb_le. lia. }
  split. { unfold is_low_surrogate. apply andb_true_iff. rewrite !N.leb_le. lia. }
  unfold join_surrogates. rewrite E1, E2.
  replace (55296 + q - 55296)%N with q by lia.
  replace (56320 + r - 56320)%N with r by lia.
  rewrite N.shiftl_mul_pow2. change (2 ^ 10)%N with 1024%N.
  rewrite lor_high_low by exact B. unfold n in E. lia.
Qed.


Lemma scanstring_u_single begin h1 h2 h3 h4 uni s :
  decode_uXXXX h1 h2 h3 h4 = Some uni ->
  is_high_surrogate uni = false ->
  scanstring begin (92 :: 117 :: h1 :: h2 :: h3 :: h4 :: s)%N
  = scan_map (cons uni) (scanstring begin s).
Proof. intros Hd Hh. simpl. rewrite Hd, Hh. reflexivity. Qed.

Lemma scanstring_u_pair begin h1 h2 h3 h4 k1 k2 k3 k4 uni uni2 s :
  decode_uXXXX h1 h2 h3 h4 = Some uni ->
  is_high_surrogate uni = true ->
  decode_uXXXX k1 k2 k3 k4 = Some uni2 ->
  is_low_surrogate uni2 = true ->
  scanstring begin
    (92 :: 117 :: h1 :: h2 :: h3 :: h4 :: 92 :: 117 :: k1 :: k2 :: k3 :: k4 :: s)%N
  = scan_map (cons (join_surrogates uni uni2)) (scanstring begin s).
Proof. intros Hd Hh Hd2 Hl. simpl. rewrite Hd, Hh, Hd2, Hl. reflexivity. Qed.

Lemma scanstring_plain begin c s :
  c <> QUOTE -> c <> BACKSLASH -> (32 <= c)%N ->
  scanstring begin (c :: s) = scan_map (cons c) (scanstring begin s).
Proof.
  intros Hq Hb Hc. simpl.
  apply N.eqb_neq in Hq, Hb. rewrite Hq, Hb.
  replace (c <? 32)%N with false by (symmetry; apply N.ltb_ge; exact Hc).
  reflexivity.
Qed.

Lemma scanstring_escape_char begin c s :
  is_scalar_value c = true ->
  scanstring begin (escape_char c ++ s) = scan_map (cons c) (scanstring begin s).
Proof.
  intros Hc. unfold escape_char.
  destruct (c =? BACKSLASH)%N eqn:E1; [apply N.eqb_eq in E1 as ->; reflexivity|].
  destruct (c =? QUOTE)%N eqn:E2; [apply N.eqb_eq in E2 as ->; reflexivity|].
  destruct (c =? 8)%N eqn:E3; [apply N.eqb_eq in E3 as ->; reflexivity|].
  destruct (c =? 12)%N eqn:E4; [apply N.eqb_eq in E4 as ->; reflexivity|].
  destruct (c =? 10)%N eqn:E5; [apply N.eqb_eq in E5 as ->; reflexivity|].
  destruct (c =? 13)%N eqn:E6; [apply N.eqb_eq in E6 as ->; reflexivity|].
  destruct (c =? 9)%N eqn:E7; [apply N.eqb_eq in E7 as ->; reflexivity|].
  apply N.eqb_neq in E1, E2.
  destruct ((32 <=? c) && (c <=? 126))%N eqn:E8.
  { apply andb_true_iff in E8 as [E8 _]. apply N.leb_le in E8.
    now apply scanstring_plain. }
  unfold is_scalar_value in Hc.
  destruct (c <? 65536)%N eqn:E9.
  - apply N.ltb_lt in E9. pose proof (decode_uXXXX_hex4 c E9) as Hd.
    destruct (hex4 c) as [|h1 [|h2 [|h3 [|h4 [|]]]]]; try done.
    change (lit "\u" ++ [h1; h2; h3; h4] ++ s)
      with (92 :: 117 :: h1 :: h2 :: h3 :: h4 :: s)%N.
    apply scanstring_u_single; [exact Hd|].
    unfold is_high_surrogate.
    apply orb_true_iff in Hc as [Hc|Hc].
    + apply N.ltb_lt in Hc. apply andb_false_iff. left. apply N.leb_gt. lia.
    + apply andb_true_iff in Hc as [Hc _]. apply N.ltb_lt in Hc.
      apply andb_false_iff. right. apply N.leb_gt. lia.
  - apply N.ltb_ge in E9.
    assert (Hr : (65536 <= c < 1114112)%N).
    { apply orb_true_iff in Hc as [Hc|Hc].
      - apply N.ltb_lt in Hc. lia.
      - apply andb_true_iff in Hc as [_ Hc]. apply N.ltb_lt in Hc. lia. }
    destruct (surrogate_pair c Hr) as (B1 & B2 & Hh & Hl & Hj).
    cbv zeta.
    pose proof (decode_uXXXX_hex4 _ B1) as Hd1.
    pose proof (decode_uXXXX_hex4 _ B2) as Hd2.
    destruct (hex4 (N.lor 55296 _)) as [|h1 [|h2 [|h3 [|h4 [|]]]]]; try done.
    destruct (hex4 (N.lor 56320 _)) as [|k1 [|k2 [|k3 [|k4 [|]]]]]; try done.
    change ((lit "\u" ++ [h1; h2; h3; h4] ++ lit "\u" ++ [k1; k2; k3; k4]) ++ s)
      with (92 :: 117 :: h1 :: h2 :: h3 :: h4
            :: 92 :: 117 :: k1 :: k2 :: k3 :: k4 :: s)%N.
    rewrite (scanstring_u_pair _ _ _ _ _ _ _ _ _ _ _ _ Hd1 Hh Hd2 Hl).
    now rewrite Hj.
Qed.

Lemma scanstring_encoded begin s rest :
  is_text s = true ->
  scanstring begin (flat_map escape_char s ++ QUOTE :: rest) = Scanned s rest.
Proof.
  induction s as [|c s IH]; intros Ht.
  - reflexivity.
  - simpl in Ht. apply andb_true_iff in Ht as [Hc Ht].
    simpl flat_map. rewrite <- app_assoc.
    rewrite scanstring_escape_char by exact Hc.
    now rewrite IH.
Qed.


(** ** Numbers *)

Lemma span_digits_app ds rest :
  Forall (fun d => is_digit d = true) ds ->
  delimited rest ->
  span_digits (ds ++ rest) = (ds, rest).
Proof.
  intros Hds Hrest. induction Hds as [|d ds Hd _ IH]; simpl.
  - destruct rest as [|c rest]; [done|].
    destruct Hrest as [-> | ->]; reflexivity.
  - now rewrite Hd, IH.
Qed.

Lemma match_frac_delimited rest : delimited rest -> match_frac rest = ([], rest).
Proof.
  destruct rest as [|c rest]; [done|]. intros [-> | ->]; reflexivity.
Qed.

Lemma match_exp_delimited rest : delimited rest -> match_exp rest = ([], rest).
Proof.
  destruct rest as [|c rest]; [done|]. intros [-> | ->]; reflexivity.
Qed.

Lemma match_integer_nat_str n rest :
  delimited rest ->
  match_integer (nat_str n ++ rest) = Some (nat_str n, rest).
Proof.
  intros Hrest.
  destruct (nat_str_spec n) as (c & ds & E & Hdig & Hz & Hpos & _).
  rewrite E. apply Forall_cons in Hdig as [Hc Hds].
  apply is_digit_spec in Hc as Hc'.
  unfold match_integer. simpl.
  replace (c =? 45)%N with false by (symmetry; apply N.eqb_neq; lia).
  destruct (c =? 48)%N eqn:E0.
  - apply N.eqb_eq in E0 as ->.
    destruct (N.eq_0_gt_0_cases n) as [Hn|Hn].
    + destruct (Hz Hn) as [_ ->]. reflexivity.
    + specialize (Hpos Hn). lia.
  - rewrite Hc. now rewrite span_digits_app.
Qed.

Lemma match_integer_int_str z rest :
  delimited rest ->
  match_integer (int_str z ++ rest) = Some (int_str z, rest).
Proof.
  intros Hrest. destruct z as [|p|p]; simpl int_str.
  - now apply match_integer_nat_str.
  - now apply match_integer_nat_str.
  - pose proof (match_integer_nat_str (N.pos p) rest Hrest) as Hm.
    destruct (nat_str_spec (N.pos p)) as (c & ds & E & Hdig & _ & Hpos & _).
    rewrite E in *. apply Forall_cons in Hdig as [Hc Hds].
    apply is_digit_spec in Hc as Hc'.
    unfold match_integer in *. simpl in *.
    replace (c =? 45)%N with false in Hm by (symmetry; apply N.eqb_neq; lia).
    destruct (c =? 48)%N; [now inversion Hm|].
    rewrite Hc in *. destruct (span_digits (ds ++ rest)) as [ds' rest'].
    now inversion Hm.
Qed.

Lemma parse_int_int_str z : parse_int (int_str z) = z.
Proof.
  destruct z as [|p|p]; simpl int_str.
  - reflexivity.
  - destruct (nat_str_spec (N.pos p)) as (c & ds & E & Hdig & _ & Hpos & Hv).
    rewrite E. unfold parse_int.
    apply Forall_cons in Hdig as [Hc _]. apply is_digit_spec in Hc.
    replace (c =? 45)%N with false by (symmetry; apply N.eqb_neq; lia).
    rewrite Hv. reflexivity.
  - destruct (nat_str_spec (N.pos p)) as (c & ds & E & Hdig & _ & Hpos & Hv).
    rewrite E. unfold parse_int. simpl. rewrite Hv. reflexivity.
Qed.

Lemma int_str_head z :
  exists c s, int_str z = c :: s /\ (c = 45%N \/ (48 <= c <= 57)%N).
Proof.
  destruct z as [|p|p]; simpl int_str.
  - exists 48%N, []. split; [reflexivity|right; lia].
  - destruct (nat_str_spec (N.pos p)) as (c & ds & E & Hdig & _).
    apply Forall_cons in Hdig as [Hc _]. apply is_digit_spec in Hc.
    exists c, ds. split; [exact E|now right].
  - exists 45%N, (nat_str (N.pos p)). split; [reflexivity|now left].
Qed.

(** ** Whitespace *)

Lemma skip_whitespace_spaces n s :
  skip_whitespace (repeat SPACE n ++ s) = skip_whitespace s.
Proof. induction n as [|n IH]; [done|exact IH]. Qed.

Lemma skip_whitespace_newline_indent level s :
  skip_whitespace (newline_indent level ++ s) = skip_whitespace s.
Proof.
  unfold newline_indent.
  change (skip_whitespace (repeat SPACE (indent * level) ++ s) = skip_whitespace s).
  apply skip_whitespace_spaces.
Qed.

Lemma skip_whitespace_head c s :
  is_whitespace c = false -> skip_whitespace (c :: s) = c :: s.
Proof. intros E. simpl. now rewrite E. Qed.

Lemma newline_indent_delimited level s : delimited (newline_indent level ++ s).
Proof. now right. Qed.


(** ** The scanner never runs out of depth *)

Lemma scan_map_Scanned {A B} (f : A -> B) r b rest :
  scan_map f r = Scanned b rest -> exists a, r = Scanned a rest /\ b = f a.
Proof. destruct r; simpl; intros [= <- <-] || discriminate. eauto. Qed.

Lemma scan_map_Exhausted {A B} (f : A -> B) r :
  scan_map f r = Exhausted -> r = Exhausted.
Proof. now destruct r. Qed.

Lemma skip_whitespace_length s : length (skip_whitespace s) <= length s.
Proof.
  induction s as [|c s IH]; simpl; [lia|].
  destruct (is_whitespace c); simpl; lia.
Qed.

Lemma scanstring_shorter n :
  forall begin s key rest,
    length s <= n ->
    scanstring begin s = Scanned key rest ->
    length rest < length s.
Proof.
  induction n as [|n IH]; intros begin s key rest Hn Hs.
  { destruct s; [discriminate|simpl in Hn; lia]. }
  assert (Hrec : forall c t key' rest',
            length t <= n ->
            scan_map (cons c) (scanstring begin t) = Scanned key' rest' ->
            length rest' < length t).
  { intros c t key' rest' Ht Hm.
    apply scan_map_Scanned in Hm as (k & Hk & _). eauto. }
  destruct s as [|c s1]; [discriminate|]. simpl in Hn, Hs |- *.
  destruct (c =? QUOTE)%N; [injection Hs as _ <-; lia|].
  destruct (c =? BACKSLASH)%N.
  2:{ destruct (c <? 32)%N; [discriminate|].
      apply Hrec in Hs; lia. }
  destruct s1 as [|esc s2]; [discriminate|]. simpl in Hn |- *.
  destruct (esc =? 117)%N.
  2:{ destruct (unescape esc); [|discriminate]. apply Hrec in Hs; lia. }
  destruct s2 as [|h1 [|h2 [|h3 [|h4 s3]]]]; try discriminate.
  simpl in Hn |- *.
  destruct (decode_uXXXX h1 h2 h3 h4) as [uni|]; [|discriminate].
  destruct (is_high_surrogate uni).
  2:{ apply Hrec in Hs; lia. }
  destruct s3 as [|b [|u s4]]; try (apply Hrec in Hs; simpl in *; lia).
  destruct ((b =? BACKSLASH) && (u =? 117))%N.
  2:{ apply Hrec in Hs; simpl in *; lia. }
  destruct s4 as [|k1 [|k2 [|k3 [|k4 s5]]]]; try discriminate.
  destruct (decode_uXXXX k1 k2 k3 k4) as [uni2|]; [|discriminate].
  destruct (is_low_surrogate uni2).
  - apply Hrec in Hs; simpl in *; lia.
  - apply Hrec in Hs; simpl in *; lia.
Qed.

Lemma scanstring_not_exhausted n :
  forall begin s, length s <= n -> scanstring begin s <> Exhausted.
Proof.
  induction n as [|n IH]; intros begin s Hn.
  - destruct s; [discriminate|simpl in Hn; lia].
  - assert (Hrec : forall c t, length t <= n ->
              scan_map (cons c) (scanstring begin t) <> Exhausted).
    { intros c t Ht Hm. apply scan_map_Exhausted in Hm. now apply IH in Hm. }
    destruct s as [|c s1]; [discriminate|]. simpl in Hn |- *.
    destruct (c =? QUOTE)%N; [discriminate|].
    destruct (c =? BACKSLASH)%N.
    2:{ destruct (c <? 32)%N; [discriminate|]. apply Hrec. lia. }
    destruct s1 as [|esc s2]; [discriminate|]. simpl in Hn |- *.
    destruct (esc =? 117)%N.
    2:{ destruct (unescape esc); [|discriminate]. apply Hrec. lia. }
    destruct s2 as [|h1 [|h2 [|h3 [|h4 s3]]]]; try discriminate.
    simpl in Hn |- *.
    destruct (decode_uXXXX h1 h2 h3 h4) as [uni|]; [|discriminate].
    destruct (is_high_surrogate uni); [|apply Hrec; lia].
    destruct s3 as [|b [|u s4]]; try (apply Hrec; simpl in *; lia).
    destruct ((b =? BACKSLASH) && (u =? 117))%N;
      [|apply Hrec; simpl in *; lia].
    destruct s4 as [|k1 [|k2 [|k3 [|k4 s5]]]]; try discriminate.
    destruct (decode_uXXXX k1 k2 k3 k4) as [uni2|]; [|discriminate].
    destruct (is_low_surrogate uni2); apply Hrec; simpl in *; lia.
Qed.

Lemma strip_prefix_length prefix s rest :
  strip_prefix prefix s = Some rest -> length s = length prefix + length rest.
Proof.
  revert s. induction prefix as [|p prefix IH]; intros [|c s]; simpl;
    try discriminate; try (intros [= <-]; reflexivity).
  destruct (p =? c)%N; [|discriminate]. intros Hs. rewrite (IH _ Hs). lia.
Qed.

Lemma span_digits_length s ds rest :
  span_digits s = (ds, rest) -> length rest <= length s.
Proof.
  revert ds rest. induction s as [|c s IH]; simpl; intros ds rest.
  - intros [= _ <-]. simpl. lia.
  - destruct (is_digit c).
    + destruct (span_digits s) as [ds' rest'] eqn:E. intros [= _ <-].
      specialize (IH _ _ eq_refl). lia.
    + intros [= _ <-]. simpl. lia.
Qed.

Lemma match_integer_length s lit rest :
  match_integer s = Some (lit, rest) -> length rest < length s.
Proof.
  unfold match_integer.
  assert (G : forall sign s1,
    match s1 with
    | [] => None
    | c :: s2 =>
        if (c =? 48)%N then Some (sign ++ [c], s2)
        else if is_digit c
             then let '(ds, s3) := span_digits s2 in Some (sign ++ c :: ds, s3)
             else None
    end = Some (lit, rest) -> length rest < length s1).
  { intros sign [|c s2]; [discriminate|]. simpl.
    destruct (c =? 48)%N; [intros [= _ <-]; lia|].
    destruct (is_digit c); [|discriminate].
    destruct (span_digits s2) as [ds s3] eqn:E. intros [= _ <-].
    apply span_digits_length in E. lia. }
  destruct s as [|c s']; [discriminate|].
  destruct (c =? 45)%N.
  - intros Hm. apply G in Hm. simpl. lia.
  - apply (G [] (c :: s')).
Qed.

Lemma match_frac_length s frac rest :
  match_frac s = (frac, rest) -> length rest <= length s.
Proof.
  unfold match_frac. destruct s as [|c s1]; [intros [= _ <-]; lia|].
  destruct (c =? 46)%N; [|intros [= _ <-]; lia].
  destruct (span_digits s1) as [[|d ds] s2] eqn:E; intros [= _ <-]; [lia|].
  apply span_digits_length in E. simpl. lia.
Qed.

Lemma match_exp_length s exp rest :
  match_exp s = (exp, rest) -> length rest <= length s.
Proof.
  unfold match_exp. destruct s as [|c s1]; [intros [= _ <-]; lia|].
  destruct ((c =? 101) || (c =? 69))%N; [|intros [= _ <-]; lia].
  destruct s1 as [|d s1'].
  - simpl. intros [= _ <-]. simpl. lia.
  - destruct ((d =? 43) || (d =? 45))%N.
    + destruct (span_digits s1') as [[|d' ds] s3] eqn:E; intros [= _ <-];
        [lia|]. apply span_digits_length in E. simpl. lia.
    + destruct (span_digits (d :: s1')) as [[|d' ds] s3] eqn:E;
        intros [= _ <-]; [lia|]. apply span_digits_length in E. simpl in *. lia.
Qed.


(** ** Induction over values *)

Section Values.
Context {F : Type} `{PyFloat F}.

Lemma json_ind' (P : json F -> Prop) :
  P JNone ->
  (forall b, P (JBool b)) ->
  (forall n, P (JInt n)) ->
  (forall x, P (JFloat x)) ->
  (forall s, P (JStr s)) ->
  (forall items, Forall P items -> P (JList items)) ->
  (forall pairs, Forall (fun kv => P (snd kv)) pairs -> P (JDict pairs)) ->
  forall o, P o.
Proof.
  intros HN HB HI HFl HS HL HD. fix IH 1.
  intros [|b|n|x|s|items|pairs].
  - exact HN.
  - apply HB.
  - apply HI.
  - apply HFl.
  - apply HS.
  - apply HL. revert items. fix go 1.
    intros [|x l]; constructor; [apply IH | apply go].
  - apply HD. revert pairs. fix go 1.
    intros [|[k v] l]; constructor; [apply IH | apply go].
Qed.

(** ** The layout of lists and dicts *)

Lemma iterencode_list level x items :
  iterencode level (JList (x :: items))
  = lit "[" ++ newline_indent (S level) ++ encode_items level (x :: items)
    ++ newline_indent level ++ lit "]".
Proof. reflexivity. Qed.

Lemma iterencode_dict level p pairs :
  iterencode level (JDict (p :: pairs))
  = lit "{" ++ newline_indent (S level)
    ++ encode_pairs level (sorted_items (p :: pairs))
    ++ newline_indent level ++ lit "}".
Proof.
  assert (E : forall l : list (str * json F),
    List.map (fun kv => match kv with
                        | (k, v) => (k, iterencode (S level) v)
                        end) l
    = List.map (fun kv => (kv.1, iterencode (S level) kv.2)) l).
  { intros l. apply map_ext. now intros [k v]. }
  cbn [iterencode]. rewrite E, sorted_items_map_values, map_map.
  reflexivity.
Qed.

Lemma sort_keys_dict (pairs : list (str * json F)) :
  sort_keys (JDict pairs)
  = JDict (List.map (fun kv => (kv.1, sort_keys kv.2)) (sorted_items pairs)).
Proof.
  assert (E : forall l : list (str * json F),
    List.map (fun kv => match kv with (k, v) => (k, sort_keys v) end) l
    = List.map (fun kv => (kv.1, sort_keys kv.2)) l).
  { intros l. apply map_ext. now intros [k v]. }
  cbn [sort_keys]. now rewrite E, sorted_items_map_values.
Qed.


(** ** What the encoder writes is read back *)

Lemma not_whitespace c :
  c <> 32%N -> c <> 9%N -> c <> 10%N -> c <> 13%N -> is_whitespace c = false.
Proof.
  intros H1 H2 H3 H4. unfold is_whitespace.
  apply N.eqb_neq in H1, H2, H3, H4. now rewrite H1, H2, H3, H4.
Qed.

(** An encoded value starts with an ASCII character that is neither
    whitespace nor a closing bracket. *)
Lemma iterencode_head level (o : json F) :
  supported o = true ->
  exists c s, iterencode level o = c :: s
              /\ is_whitespace c = false /\ c <> 93%N /\ (c < 128)%N.
Proof.
  destruct o as [|b|n|x|s|items|pairs]; intros Hs.
  - exists 110%N, (lit "ull"). done.
  - destruct b; [exists 116%N, (lit "rue") | exists 102%N, (lit "alse")]; done.
  - destruct (int_str_head n) as (c & s & E & Hc).
    exists c, s. split; [exact E|].
    split; [apply not_whitespace|]; lia.
  - discriminate.
  - eexists QUOTE, _. split; [reflexivity|done].
  - destruct items as [|x items].
    + exists 91%N, (lit "]"). done.
    + rewrite iterencode_list. eexists 91%N, _. split; [reflexivity|done].
  - destruct pairs as [|p pairs].
    + exists 123%N, (lit "}"). done.
    + rewrite iterencode_dict. eexists 123%N, _. split; [reflexivity|done].
Qed.

Lemma strip_prefix_head_ne p prefix c s :
  p <> c -> strip_prefix (p :: prefix) (c :: s) = None.
Proof. intros Hne. simpl. apply N.eqb_neq in Hne. now rewrite Hne. Qed.

Lemma scan_atom_int n rest :
  delimited rest ->
  scan_atom (F := F) (int_str n ++ rest) = Scanned (JInt n) rest.
Proof.
  intros Hrest. destruct (int_str_head n) as (c & s & E & Hc).
  unfold scan_atom, match_number.
  rewrite (match_integer_int_str n rest Hrest).
  rewrite (match_frac_delimited rest Hrest), (match_exp_delimited rest Hrest).
  rewrite parse_int_int_str.
  rewrite E. simpl app.
  change (lit "null") with (110 :: lit "ull")%N.
  change (lit "true") with (116 :: lit "rue")%N.
  change (lit "false") with (102 :: lit "alse")%N.
  rewrite !strip_prefix_head_ne by lia. reflexivity.
Qed.

Lemma scan_once_int depth n rest :
  delimited rest ->
  scan_once (F := F) (S depth) (int_str n ++ rest) = Scanned (JInt n) rest.
Proof.
  intros Hrest. rewrite <- (scan_atom_int n rest Hrest).
  destruct (int_str_head n) as (c & s & E & Hc). rewrite E.
  simpl. replace (c =? QUOTE)%N with false by (symmetry; apply N.eqb_neq; unfold QUOTE; lia).
  replace (c =? 123)%N with false by (symmetry; apply N.eqb_neq; lia).
  replace (c =? 91)%N with false by (symmetry; apply N.eqb_neq; lia).
  reflexivity.
Qed.

Lemma scan_once_str depth s rest :
  is_text s = true ->
  scan_once (F := F) (S depth) (encode_basestring_ascii s ++ rest)
  = Scanned (JStr s) rest.
Proof.
  intros Ht. unfold encode_basestring_ascii.
  rewrite <- app_comm_cons, <- app_assoc.
  cbn [scan_once]. rewrite N.eqb_refl.
  change ([QUOTE] ++ rest) with (QUOTE :: rest).
  now rewrite scanstring_encoded.
Qed.

(** Lengths of concatenations, for the depth of the scan. *)
Ltac lengths :=
  repeat first [ rewrite !length_app in * | progress (simpl length in *) ];
  lia.

(** One turn of each loop of the scanner. *)
Lemma array_items_last depth s (value : json F) s1 rest :
  scan_once depth s = Scanned value s1 ->
  skip_whitespace s1 = 93%N :: rest ->
  array_items (S depth) s = Scanned [value] rest.
Proof. intros E1 E2. simpl. rewrite E1, E2. reflexivity. Qed.

Lemma array_items_more depth s (value : json F) s1 s3 more rest :
  scan_once depth s = Scanned value s1 ->
  skip_whitespace s1 = 44%N :: s3 ->
  array_items depth (skip_whitespace s3) = Scanned more rest ->
  array_items (S depth) s = Scanned (value :: more) rest.
Proof. intros E1 E2 E3. simpl. rewrite E1, E2. simpl. rewrite E3. reflexivity. Qed.

Lemma object_items_last depth begin s key s3 (value : json F) s4 rest :
  scanstring begin s = Scanned key (58%N :: s3) ->
  scan_once depth (skip_whitespace s3) = Scanned value s4 ->
  skip_whitespace s4 = 125%N :: rest ->
  object_items (S depth) begin s = Scanned [(key, value)] rest.
Proof. intros E1 E2 E3. simpl. rewrite E1. simpl. rewrite E2, E3. reflexivity. Qed.

Lemma object_items_more depth begin s key s3 (value : json F) s4 s6 s8 more rest :
  scanstring begin s = Scanned key (58%N :: s3) ->
  scan_once depth (skip_whitespace s3) = Scanned value s4 ->
  skip_whitespace s4 = 44%N :: s6 ->
  skip_whitespace s6 = QUOTE :: s8 ->
  object_items depth (QUOTE :: s8) s8 = Scanned more rest ->
  object_items (S depth) begin s = Scanned ((key, value) :: more) rest.
Proof.
  intros E1 E2 E3 E4 E5. simpl. rewrite E1. simpl. rewrite E2, E3. simpl.
  rewrite E4. simpl. rewrite E5. reflexivity.
Qed.

Lemma scan_once_array depth s c body (items : list (json F)) rest :
  skip_whitespace s = c :: body ->
  c <> 93%N ->
  array_items depth (c :: body) = Scanned items rest ->
  scan_once (S depth) (91%N :: s) = Scanned (JList items) rest.
Proof.
  intros E1 Hc E2. simpl. unfold JSONArray. rewrite E1.
  apply N.eqb_neq in Hc. rewrite Hc, E2. reflexivity.
Qed.

Lemma scan_once_object depth s body (pairs : list (str * json F)) rest :
  skip_whitespace s = QUOTE :: body ->
  object_items depth (QUOTE :: body) body = Scanned pairs rest ->
  scan_once (S depth) (123%N :: s) = Scanned (JDict (dict_of_pairs pairs)) rest.
Proof.
  intros E1 E2. simpl. unfold JSONObject. rewrite E1. simpl. rewrite E2.
  reflexivity.
Qed.

(** Where an encoded sequence starts. *)
Lemma encode_items_cons level (x : json F) items :
  encode_items level (x :: items)
  = iterencode (S level) x
    ++ match items with
       | [] => []
       | _ :: _ => (44%N :: newline_indent (S level)) ++ encode_items level items
       end.
Proof. destruct items; [symmetry; apply app_nil_r|reflexivity]. Qed.

Lemma encode_pairs_cons level k (v : json F) pairs :
  encode_pairs level ((k, v) :: pairs)
  = QUOTE :: flat_map escape_char k
    ++ QUOTE :: 58%N :: iterencode (S level) v
    ++ match pairs with
       | [] => []
       | _ :: _ => (44%N :: newline_indent (S level)) ++ encode_pairs level pairs
       end.
Proof.
  destruct pairs.
  - unfold encode_pairs. simpl str_join. unfold encode_basestring_ascii.
    simpl. rewrite <- app_assoc. simpl. now rewrite app_nil_r.
  - unfold encode_pairs. simpl str_join. unfold encode_basestring_ascii.
    simpl. rewrite <- !app_assoc. reflexivity.
Qed.

Lemma encode_pairs_head level (kv : str * json F) pairs :
  exists s, encode_pairs level (kv :: pairs) = QUOTE :: s.
Proof. destruct kv as [k v]. rewrite encode_pairs_cons. eexists. reflexivity. Qed.

Lemma skip_whitespace_encode_items level (x : json F) items s :
  supported x = true ->
  skip_whitespace (encode_items level (x :: items) ++ s)
  = encode_items level (x :: items) ++ s.
Proof.
  intros Hx. destruct (iterencode_head (S level) x Hx) as (c & sx & E & Hws & _ & _).
  rewrite encode_items_cons, E. simpl app.
  now apply skip_whitespace_head.
Qed.

Lemma array_items_encoded level (items : list (json F)) :
  Forall (fun o => supported o = true /\ reads_back o) items ->
  items <> [] ->
  forall depth rest,
    2 * length (encode_items level items ++ newline_indent level ++ 93%N :: rest)
      + 2 <= depth ->
    array_items depth
      (encode_items level items ++ newline_indent level ++ 93%N :: rest)
    = Scanned (List.map sort_keys items) rest.
Proof.
  induction items as [|x items IH]; [done|].
  intros Hall _ depth rest Hd. destruct depth as [|depth]; [lia|].
  apply Forall_cons in Hall as [[Hsx Hx] Hall].
  rewrite encode_items_cons in *.
  destruct items as [|y items].
  - rewrite app_nil_r in *.
    eapply array_items_last.
    + apply Hx; [apply newline_indent_delimited|lia].
    + rewrite skip_whitespace_newline_indent. reflexivity.
  - rewrite <- !app_assoc in *.
    apply Forall_cons in Hall as Hally. destruct Hally as [[Hsy _] _].
    eapply array_items_more.
    + apply Hx; [now left|lia].
    + rewrite <- app_comm_cons. now apply skip_whitespace_head.
    + rewrite skip_whitespace_newline_indent.
      rewrite skip_whitespace_encode_items by exact Hsy.
      apply IH; [exact Hall|done|].
      lengths.
Qed.

Lemma object_items_encoded level (pairs : list (str * json F)) :
  Forall (fun kv => is_text kv.1 = true /\ supported kv.2 = true
                    /\ reads_back kv.2) pairs ->
  pairs <> [] ->
  forall depth begin rest s,
    encode_pairs level pairs ++ newline_indent level ++ 125%N :: rest
    = QUOTE :: s ->
    2 * length s + 2 <= depth ->
    object_items depth begin s
    = Scanned (List.map (fun kv => (kv.1, sort_keys kv.2)) pairs) rest.
Proof.
  induction pairs as [|[k v] pairs IH]; [done|].
  intros Hall _ depth begin rest s Heq Hd. destruct depth as [|depth]; [lia|].
  apply Forall_cons in Hall as [(Hk & Hsv & Hv) Hall]. simpl in Hk, Hsv, Hv.
  destruct (iterencode_head (S level) v Hsv) as (c & sv & Ev & Hws & _ & _).
  rewrite encode_pairs_cons in Heq.
  rewrite <- !app_comm_cons, <- !app_assoc, <- !app_comm_cons, <- !app_assoc in Heq.
  assert (Es : s = flat_map escape_char k
                   ++ QUOTE :: 58%N :: iterencode (S level) v
                   ++ match pairs with
                      | [] => []
                      | _ :: _ => (44%N :: newline_indent (S level))
                                  ++ encode_pairs level pairs
                      end ++ newline_indent level ++ 125%N :: rest).
  { injection Heq as Heq. symmetry. exact Heq. }
  clear Heq. subst s.
  assert (Hskip : forall t, skip_whitespace (iterencode (S level) v ++ t)
                            = iterencode (S level) v ++ t).
  { intros t. rewrite Ev. simpl app. now apply skip_whitespace_head. }
  destruct pairs as [|[k' v'] pairs].
  - cbn [app] in *.
    eapply object_items_last.
    + apply scanstring_encoded. exact Hk.
    + rewrite Hskip. apply Hv; [apply newline_indent_delimited|].
      lengths.
    + rewrite skip_whitespace_newline_indent. reflexivity.
  - rewrite <- !app_assoc in *.
    destruct (encode_pairs_head level (k', v') pairs) as [s' Es'].
    eapply object_items_more.
    + apply scanstring_encoded. exact Hk.
    + rewrite Hskip. apply Hv; [now left|].
      lengths.
    + rewrite <- app_comm_cons. now apply skip_whitespace_head.
    + rewrite skip_whitespace_newline_indent, Es', <- app_comm_cons.
      now apply skip_whitespace_head.
    + eapply IH; [exact Hall|done| |].
      * rewrite Es', <- app_comm_cons. reflexivity.
      * assert (El : length (encode_pairs level ((k', v') :: pairs)
                             ++ newline_indent level ++ 125%N :: rest)
                     = S (length (s' ++ newline_indent level ++ 125%N :: rest))).
        { rewrite Es'. reflexivity. }
        lengths.
Qed.

Lemma Forall_sorted_items {V} (P : str * V -> Prop) l :
  Forall P l -> Forall P (sorted_items l).
Proof. intros Hl. now rewrite sorted_items_Permutation. Qed.

Lemma map_fst_sort_keys (pairs : list (str * json F)) :
  List.map fst (List.map (fun kv => (kv.1, sort_keys kv.2)) pairs)
  = List.map fst pairs.
Proof. rewrite map_map. now apply map_ext. Qed.

Lemma sorted_items_distinct {V} (l : list (str * V)) :
  NoDup (List.map fst l) -> NoDup (List.map fst (sorted_items l)).
Proof.
  intros Hnd.
  assert (Hp : List.map fst (sorted_items l) ≡ₚ List.map fst l)
    by (apply Permutation_map, sorted_items_Permutation).
  now rewrite Hp.
Qed.

Theorem scan_once_iterencode (o : json F) : supported o = true -> reads_back o.
Proof.
  induction o as [|b|n|x|s|items IH|pairs IH] using json_ind';
    intros Hs level depth rest Hrest Hd;
    (destruct depth as [|depth]; [lia|]).
  - reflexivity.
  - destruct b; reflexivity.
  - now apply scan_once_int.
  - discriminate.
  - now apply scan_once_str.
  - destruct items as [|x items]; [reflexivity|].
    assert (Hall : Forall (fun o => supported o = true /\ reads_back o)
                     (x :: items)).
    { cbn [supported] in Hs. rewrite forallb_forall in Hs.
      rewrite Forall_forall in IH |- *. intros o Ho.
      pose proof (Hs o (proj1 (list_elem_of_In _ _) Ho)) as Hso. auto. }
    rewrite iterencode_list in *. rewrite <- !app_assoc in *.
    change (lit "[" ++ ?x) with (91%N :: x) in *.
    change (lit "]" ++ ?x) with (93%N :: x) in *.
    apply Forall_cons in Hall as Hx. destruct Hx as [[Hsx _] _].
    destruct (iterencode_head (S level) x Hsx) as (c & sx & Ex & Hws & Hc & _).
    assert (Ehead : exists s', encode_items level (x :: items)
                               ++ newline_indent level ++ 93%N :: rest = c :: s').
    { rewrite encode_items_cons, Ex. eexists. reflexivity. }
    destruct Ehead as [s' Ehead].
    eapply scan_once_array.
    + rewrite skip_whitespace_newline_indent, Ehead.
      now apply skip_whitespace_head.
    + exact Hc.
    + rewrite <- Ehead. apply array_items_encoded; [exact Hall|done|].
      lengths.
  - destruct pairs as [|p pairs]; [reflexivity|].
    cbn [supported] in Hs. apply andb_true_iff in Hs as [Hnd Hs].
    apply bool_decide_eq_true in Hnd.
    assert (Hall : Forall (fun kv => is_text kv.1 = true /\ supported kv.2 = true
                                     /\ reads_back kv.2) (p :: pairs)).
    { rewrite forallb_forall in Hs.
      rewrite Forall_forall in IH |- *. intros [k v] Hkv.
      pose proof (Hs _ (proj1 (list_elem_of_In _ _) Hkv)) as Hskv.
      apply andb_true_iff in Hskv as [Hk Hv].
      specialize (IH _ Hkv). simpl in *. auto. }
    apply Forall_sorted_items in Hall.
    rewrite iterencode_dict in *. rewrite sort_keys_dict.
    rewrite <- !app_assoc in *.
    change (lit "{" ++ ?x) with (123%N :: x) in *.
    change (lit "}" ++ ?x) with (125%N :: x) in *.
    assert (Hne : sorted_items (p :: pairs) <> []).
    { intros E. pose proof (sorted_items_Permutation (p :: pairs)) as Hp.
      rewrite E in Hp. now apply Permutation_nil_cons in Hp. }
    pose proof (sorted_items_distinct _ Hnd) as Hnd'.
    destruct (sorted_items (p :: pairs)) as [|q sp]; [done|].
    destruct (encode_pairs_head level q sp) as [s' Es'].
    rewrite <- (dict_of_pairs_distinct
                  (List.map (fun kv => (kv.1, sort_keys kv.2)) (q :: sp)))
      by (now rewrite map_fst_sort_keys).
    eapply scan_once_object.
    + rewrite skip_whitespace_newline_indent, Es', <- app_comm_cons.
      now apply skip_whitespace_head.
    + eapply object_items_encoded; [exact Hall|done| |].
      * rewrite Es', <- app_comm_cons. reflexivity.
      * rewrite Es' in Hd. lengths.
Qed.


(** [json.loads(json.dumps(o))] *)
Theorem loads_dumps (o : json F) :
  supported o = true -> loads (dumps o) = Decoded (sort_keys o).
Proof.
  intros Hs. unfold dumps.
  destruct (iterencode_head 0 o Hs) as (c & s & E & Hws & _ & Hc).
  pose proof (scan_once_iterencode o Hs 0 (depth_for (iterencode 0 o)) [] I) as Hr.
  rewrite app_nil_r in Hr. specialize (Hr ltac:(unfold depth_for; lia)).
  unfold loads, decode. rewrite E in *.
  replace (c =? 65279)%N with false by (symmetry; apply N.eqb_neq; lia).
  rewrite skip_whitespace_head by exact Hws.
  rewrite Hr. reflexivity.
Qed.

(** ** Values and their sorted form *)

Lemma same_value_list (xs ys : list (json F)) :
  same_value (JList xs) (JList ys) = true <->
  Forall2 (fun x y => same_value x y = true) xs ys.
Proof.
  cbn [same_value]. revert ys.
  induction xs as [|x xs IH]; intros [|y ys]; split; intros Hxy;
    try done; try (inversion Hxy; fail).
  - apply andb_true_iff in Hxy as [Hx Hxs]. constructor; [done|now apply IH].
  - inversion Hxy; subst. apply andb_true_iff. split; [done|now apply IH].
Qed.

Lemma same_value_dict (ps qs : list (str * json F)) :
  same_value (JDict ps) (JDict qs) = true <->
  length ps = length qs
  /\ Forall (fun kv => exists v', dict_get kv.1 qs = Some v'
                                  /\ same_value kv.2 v' = true) ps.
Proof.
  cbn [same_value]. rewrite andb_true_iff, Nat.eqb_eq, forallb_forall, Forall_forall.
  split; intros [Hlen Hall]; (split; [exact Hlen|]).
  - intros [k v] Hkv. apply list_elem_of_In in Hkv. specialize (Hall _ Hkv).
    simpl in *. destruct (dict_get k qs) as [v'|]; [eauto|done].
  - intros [k v] Hkv. apply list_elem_of_In in Hkv.
    destruct (Hall _ Hkv) as (v' & Hg & Hv). simpl in *. now rewrite Hg.
Qed.

Theorem same_value_sort_keys (o : json F) :
  supported o = true -> same_value (sort_keys o) o = true.
Proof.
  induction o as [|b|n|x|s|items IH|pairs IH] using json_ind'; intros Hs.
  - reflexivity.
  - now destruct b.
  - apply Z.eqb_refl.
  - discriminate.
  - now apply bool_decide_eq_true.
  - cbn [sort_keys]. apply same_value_list.
    cbn [supported] in Hs. rewrite forallb_forall in Hs.
    induction items as [|x items IHi]; [constructor|].
    apply Forall_cons in IH as [Hx IH].
    constructor.
    + apply Hx, Hs. now left.
    + apply IHi; [exact IH|]. intros y Hy. apply Hs. now right.
  - rewrite sort_keys_dict. apply same_value_dict.
    cbn [supported] in Hs. apply andb_true_iff in Hs as [Hnd Hs].
    apply bool_decide_eq_true in Hnd. rewrite forallb_forall in Hs.
    split.
    + rewrite length_map. apply Permutation_length, sorted_items_Permutation.
    + rewrite Forall_forall. intros [k sv] Hin.
      apply list_elem_of_In, in_map_iff in Hin as ([k' v] & [= <- <-] & Hin).
      apply list_elem_of_In in Hin. rewrite sorted_items_Permutation in Hin.
      exists v. simpl. split.
      * now apply dict_get_elem_of.
      * rewrite Forall_forall in IH. apply (IH _ Hin).
        apply list_elem_of_In in Hin. specialize (Hs _ Hin). simpl in Hs.
        now apply andb_true_iff in Hs as [_ ?].
Qed.


(** ** The same value is written the same way *)

Lemma map_is_fmap {A B} (f : A -> B) (l : list A) : List.map f l = f <$> l.
Proof. induction l as [|x l IH]; simpl; [done|now rewrite IH]. Qed.

Lemma NoDup_of_keys {V} (l : list (str * V)) :
  NoDup (List.map fst l) -> NoDup l.
Proof. rewrite map_is_fmap. apply NoDup_fmap_1. Qed.

(** Two dicts with the same pairs are sorted into the same list. *)
Lemma sorted_items_same_pairs {V} (l1 l2 : list (str * V)) :
  NoDup (List.map fst l1) -> NoDup (List.map fst l2) ->
  length l1 = length l2 ->
  (forall kv, kv ∈ l1 -> kv ∈ l2) ->
  sorted_items l1 = sorted_items l2.
Proof.
  intros Hnd1 Hnd2 Hlen Hsub.
  apply sorted_items_perm; [|exact Hnd1].
  apply submseteq_length_Permutation; [|lia].
  apply NoDup_submseteq; [|exact Hsub].
  now apply NoDup_of_keys.
Qed.

Lemma encode_pairs_chunks level (pairs : list (str * json F)) :
  encode_pairs level (sorted_items pairs)
  = str_join (item_separator ++ newline_indent (S level))
      (List.map (fun kc => encode_basestring_ascii kc.1 ++ key_separator ++ kc.2)
         (sorted_items
            (List.map (fun kv => (kv.1, iterencode (S level) kv.2)) pairs))).
Proof.
  unfold encode_pairs. now rewrite sorted_items_map_values, map_map.
Qed.

Theorem same_value_same_encoding (a : json F) :
  forall b level,
    same_value a b = true ->
    distinct_keys a = true -> distinct_keys b = true ->
    iterencode level a = iterencode level b.
Proof.
  induction a as [|x|n|x|s|xs IH|ps IH] using json_ind';
    intros b level Hsame Ha Hb.
  - destruct b; try discriminate. reflexivity.
  - destruct b as [|y| | | | |]; try discriminate.
    cbn [same_value] in Hsame. apply eqb_prop in Hsame. now subst.
  - destruct b as [| |m| | | |]; try discriminate.
    cbn [same_value] in Hsame. apply Z.eqb_eq in Hsame. now subst.
  - destruct b as [| | |y| | |]; try discriminate.
    cbn [same_value] in Hsame. apply float_same_eq in Hsame. now subst.
  - destruct b as [| | | |t| |]; try discriminate.
    cbn [same_value] in Hsame. apply bool_decide_eq_true in Hsame. now subst.
  - destruct b as [| | | | |ys|]; try discriminate.
    apply same_value_list in Hsame.
    cbn [distinct_keys] in Ha, Hb. rewrite forallb_forall in Ha, Hb.
    assert (E : forall level, List.map (iterencode level) xs
                              = List.map (iterencode level) ys).
    { intros lv. clear level.
      induction Hsame as [|x y xs ys Hxy Hsame IHs]; [done|].
      apply Forall_cons in IH as [Hx IH]. simpl. f_equal.
      - apply Hx; [exact Hxy|apply Ha; now left|apply Hb; now left].
      - apply IHs; [exact IH| |]; intros z Hz; [apply Ha|apply Hb]; now right. }
    destruct Hsame as [|x y xs ys Hxy Hsame]; [reflexivity|].
    rewrite !iterencode_list. unfold encode_items. now rewrite E.
  - destruct b as [| | | | | |qs]; try discriminate.
    apply same_value_dict in Hsame as [Hlen Hall].
    cbn [distinct_keys] in Ha, Hb.
    apply andb_true_iff in Ha as [Hnda Ha], Hb as [Hndb Hb].
    apply bool_decide_eq_true in Hnda, Hndb.
    rewrite forallb_forall in Ha, Hb.
    destruct ps as [|p ps], qs as [|q qs]; try discriminate; [reflexivity|].
    rewrite !iterencode_dict, !encode_pairs_chunks. do 5 f_equal.
    apply sorted_items_same_pairs.
    + rewrite map_map. exact Hnda.
    + rewrite map_map. exact Hndb.
    + now rewrite !length_map.
    + intros kc Hkc.
      apply list_elem_of_In, in_map_iff in Hkc as ([k v] & <- & Hkv).
      rewrite Forall_forall in Hall, IH.
      apply list_elem_of_In in Hkv as Hkv'.
      destruct (Hall _ Hkv') as (v' & Hget & Hv). cbn [fst snd] in Hget, Hv.
      apply dict_get_Some in Hget.
      apply list_elem_of_In, in_map_iff. exists (k, v'). split.
      * cbn [fst snd]. f_equal. symmetry. apply (IH _ Hkv'); [exact Hv| |].
        -- apply (Ha _ Hkv).
        -- apply list_elem_of_In in Hget. apply (Hb _ Hget).
      * now apply list_elem_of_In.
Qed.

(** ** Depth of the scan *)

Lemma scan_atom_shorter s (v : json F) rest :
  scan_atom s = Scanned v rest -> length rest < length s.
Proof.
  unfold scan_atom.
  repeat match goal with
  | |- context [strip_prefix ?p s] =>
      let E := fresh "E" in
      destruct (strip_prefix p s) eqn:E;
      [apply strip_prefix_length in E; intros [= _ <-]; simpl in E; lia|clear E]
  | |- context [match_number s] =>
      let E := fresh "E" in
      destruct (match_number s) as [[res r]|] eqn:E
  end; try discriminate.
  intros [= _ <-]. unfold match_number in E.
  destruct (match_integer s) as [[integer s1]|] eqn:E1; [|discriminate].
  destruct (match_frac s1) as [frac s2] eqn:E2.
  destruct (match_exp s2) as [exp s3] eqn:E3.
  apply match_integer_length in E1. apply match_frac_length in E2.
  apply match_exp_length in E3.
  destruct frac, exp; injection E as _ <-; lia.
Qed.


(** A successful scan consumes at least one character. *)
Lemma scanner_shorter depth :
  (forall s (v : json F) rest,
     scan_once depth s = Scanned v rest -> length rest < length s)
  /\ (forall s (vs : list (json F)) rest,
        array_items depth s = Scanned vs rest -> length rest < length s)
  /\ (forall begin s (ps : list (str * json F)) rest,
        object_items depth begin s = Scanned ps rest -> length rest < length s).
Proof.
  induction depth as [|depth (IHs & IHa & IHo)]; [repeat split; discriminate|].
  split; [|split].
  - intros [|c s'] v rest; [discriminate|]. simpl.
    destruct (c =? QUOTE)%N.
    { intros Hm. apply scan_map_Scanned in Hm as (k & Hk & _).
      apply (scanstring_shorter (length s')) in Hk; lia. }
    destruct (c =? 123)%N.
    { unfold JSONObject. pose proof (skip_whitespace_length s') as Hw.
      destruct (skip_whitespace s') as [|d s2]; [discriminate|].
      destruct (d =? 125)%N; [intros [= _ <-]; simpl in *; lia|].
      destruct (d =? QUOTE)%N; [|discriminate].
      intros Hm. apply scan_map_Scanned in Hm as (ps & Hps & _).
      apply IHo in Hps. simpl in *. lia. }
    destruct (c =? 91)%N.
    { unfold JSONArray. pose proof (skip_whitespace_length s') as Hw.
      destruct (skip_whitespace s') as [|d s2].
      - intros Hm. apply scan_map_Scanned in Hm as (vs & Hvs & _).
        apply IHa in Hvs. simpl in *. lia.
      - destruct (d =? 93)%N; [intros [= _ <-]; simpl in *; lia|].
        intros Hm. apply scan_map_Scanned in Hm as (vs & Hvs & _).
        apply IHa in Hvs. simpl in *. lia. }
    intros Hm. apply scan_atom_shorter in Hm. simpl in Hm. lia.
  - intros s vs rest. simpl.
    destruct (scan_once depth s) as [value s1| |] eqn:E1; try discriminate.
    apply IHs in E1. pose proof (skip_whitespace_length s1) as Hw.
    destruct (skip_whitespace s1) as [|c s3]; [discriminate|].
    destruct (c =? 93)%N; [intros [= _ <-]; simpl in *; lia|].
    destruct (c =? 44)%N; [|discriminate].
    intros Hm. apply scan_map_Scanned in Hm as (more & Hmore & _).
    apply IHa in Hmore. pose proof (skip_whitespace_length s3). simpl in *. lia.
  - intros begin s ps rest. simpl.
    destruct (scanstring begin s) as [key s1| |] eqn:E1; try discriminate.
    apply (scanstring_shorter (length s)) in E1; [|lia].
    pose proof (skip_whitespace_length s1) as Hw.
    destruct (skip_whitespace s1) as [|c s3]; [discriminate|].
    destruct (c =? 58)%N; [|discriminate].
    destruct (scan_once depth (skip_whitespace s3)) as [value s4| |] eqn:E2;
      try discriminate.
    apply IHs in E2. pose proof (skip_whitespace_length s3) as Hw3.
    pose proof (skip_whitespace_length s4) as Hw4.
    destruct (skip_whitespace s4) as [|d s6]; [discriminate|].
    destruct (d =? 125)%N; [intros [= _ <-]; simpl in *; lia|].
    destruct (d =? 44)%N; [|discriminate].
    pose proof (skip_whitespace_length s6) as Hw6.
    destruct (skip_whitespace s6) as [|q s8]; [discriminate|].
    destruct (q =? QUOTE)%N; [|discriminate].
    intros Hm. apply scan_map_Scanned in Hm as (more & Hmore & _).
    apply IHo in Hmore. simpl in *. lia.
Qed.

(** With a depth of twice the length of the input, no scan is exhausted. *)
Lemma scanner_depth depth :
  (forall s, 2 * length s + 1 <= depth ->
             scan_once (F := F) depth s <> Exhausted)
  /\ (forall s, 2 * length s + 2 <= depth ->
                array_items (F := F) depth s <> Exhausted)
  /\ (forall begin s, 2 * length s + 2 <= depth ->
                      object_items (F := F) depth begin s <> Exhausted).
Proof.
  induction depth as [|depth (IHs & IHa & IHo)]; [repeat split; intros; lia|].
  split; [|split].
  - intros [|c s'] Hd; [discriminate|]. simpl in Hd |- *.
    destruct (c =? QUOTE)%N.
    { intros Hm. apply scan_map_Exhausted in Hm.
      now apply (scanstring_not_exhausted (length s')) in Hm. }
    destruct (c =? 123)%N.
    { unfold JSONObject. pose proof (skip_whitespace_length s') as Hw.
      destruct (skip_whitespace s') as [|d s2]; [discriminate|].
      destruct (d =? 125)%N; [discriminate|].
      destruct (d =? QUOTE)%N; [|discriminate].
      intros Hm. apply scan_map_Exhausted in Hm. revert Hm. apply IHo.
      simpl in *. lia. }
    destruct (c =? 91)%N.
    { unfold JSONArray. pose proof (skip_whitespace_length s') as Hw.
      destruct (skip_whitespace s') as [|d s2].
      - intros Hm. apply scan_map_Exhausted in Hm. revert Hm. apply IHa.
        simpl in *. lia.
      - destruct (d =? 93)%N; [discriminate|].
        intros Hm. apply scan_map_Exhausted in Hm. revert Hm. apply IHa.
        simpl in *. lia. }
    unfold scan_atom.
    repeat match goal with
    | |- context [strip_prefix ?p ?t] => destruct (strip_prefix p t)
    | |- context [match_number ?t] => destruct (match_number t) as [[? ?]|]
    end; discriminate.
  - intros s Hd. simpl.
    destruct (scan_once depth s) as [value s1| |] eqn:E1; try discriminate.
    + apply (proj1 (scanner_shorter depth)) in E1.
      pose proof (skip_whitespace_length s1) as Hw.
      destruct (skip_whitespace s1) as [|c s3]; [discriminate|].
      destruct (c =? 93)%N; [discriminate|].
      destruct (c =? 44)%N; [|discriminate].
      intros Hm. apply scan_map_Exhausted in Hm. revert Hm. apply IHa.
      pose proof (skip_whitespace_length s3). simpl in *. lia.
    + exfalso. revert E1. apply IHs. lia.
  - intros begin s Hd. simpl.
    destruct (scanstring begin s) as [key s1| |] eqn:E1; try discriminate.
    + apply (scanstring_shorter (length s)) in E1; [|lia].
      pose proof (skip_whitespace_length s1) as Hw.
      destruct (skip_whitespace s1) as [|c s3]; [discriminate|].
      destruct (c =? 58)%N; [|discriminate].
      pose proof (skip_whitespace_length s3) as Hw3.
      destruct (scan_once depth (skip_whitespace s3)) as [value s4| |] eqn:E2;
        try discriminate.
      * apply (proj1 (scanner_shorter depth)) in E2.
        pose proof (skip_whitespace_length s4) as Hw4.
        destruct (skip_whitespace s4) as [|d s6]; [discriminate|].
        destruct (d =? 125)%N; [discriminate|].
        destruct (d =? 44)%N; [|discriminate].
        pose proof (skip_whitespace_length s6) as Hw6.
        destruct (skip_whitespace s6) as [|q s8]; [discriminate|].
        destruct (q =? QUOTE)%N; [|discriminate].
        intros Hm. apply scan_map_Exhausted in Hm. revert Hm. apply IHo.
        simpl in *. lia.
      * exfalso. revert E2. apply IHs. simpl in *. lia.
    + now apply (scanstring_not_exhausted (length s)) in E1.
Qed.

(** [json.loads] always answers: a value or a [JSONDecodeError]. *)
Theorem loads_total (s : str) : loads (F := F) s <> DepthExceeded.
Proof.
  assert (G : decode (F := F) s <> DepthExceeded).
  { unfold decode.
    destruct (scan_once (depth_for s) (skip_whitespace s)) as [obj rest| |] eqn:E.
    - destruct (skip_whitespace rest); discriminate.
    - discriminate.
    - exfalso. revert E. apply (proj1 (scanner_depth _)).
      pose proof (skip_whitespace_length s). unfold depth_for. lia. }
  unfold loads. destruct s as [|c s']; [exact G|].
  destruct (c =? 65279)%N; [discriminate|exact G].
Qed.


End Values.

End JsonFacts.

(* ===================================================================== *)
(** * More facts about strings                                            *)
(* ===================================================================== *)

Module PyMore.
Import Py Terms PyFacts.

(** ** [split] and [join] *)

Lemma str_split_cons sep s : exists field fields, str_split sep s = field :: fields.
Proof.
  destruct s as [|c s]; simpl; [eauto|].
  destruct (c =? sep)%N; [eauto|]. destruct (str_split sep s); eauto.
Qed.

Lemma str_join_cons sep c c' rest :
  str_join sep (c :: c' :: rest) = c ++ sep ++ str_join sep (c' :: rest).
Proof. reflexivity. Qed.

Lemma str_join_split sep s : str_join [sep] (str_split sep s) = s.
Proof.
  induction s as [|c s IH]; [reflexivity|]. simpl.
  destruct (str_split_cons sep s) as (field & fields & E). rewrite E in *.
  destruct (c =? sep)%N eqn:Ec.
  - apply N.eqb_eq in Ec as ->. rewrite str_join_cons, IH. reflexivity.
  - destruct fields as [|f fields].
    + simpl in *. now rewrite IH.
    + rewrite str_join_cons. rewrite str_join_cons in IH.
      rewrite <- IH. reflexivity.
Qed.

Lemma str_split_no_sep sep s :
  Forall (fun field => str_contains sep field = false) (str_split sep s).
Proof.
  induction s as [|c s IH]; simpl; [repeat constructor|].
  destruct (c =? sep)%N eqn:Ec; [constructor; [reflexivity|exact IH]|].
  destruct (str_split sep s) as [|field fields]; [repeat constructor|].
  - simpl. rewrite N.eqb_sym, Ec. reflexivity.
  - apply Forall_cons in IH as [Hf Hfs]. constructor; [|exact Hfs].
    unfold str_contains in *. simpl. rewrite N.eqb_sym, Ec. exact Hf.
Qed.

Lemma str_split_length sep s :
  length (str_split sep s) = S (count_occ N.eq_dec s sep).
Proof.
  induction s as [|c s IH]; [reflexivity|]. simpl.
  destruct (str_split_cons sep s) as (field & fields & E). rewrite E in *.
  destruct (c =? sep)%N eqn:Ec.
  - apply N.eqb_eq in Ec as ->. simpl.
    destruct (N.eq_dec sep sep); [|done]. now rewrite <- IH.
  - apply N.eqb_neq in Ec. destruct (N.eq_dec c sep); [done|].
    simpl in *. exact IH.
Qed.

Lemma str_contains_elem_of c s : str_contains c s = true <-> c ∈ s.
Proof.
  unfold str_contains. rewrite existsb_exists. split.
  - intros (x & Hx & E). apply N.eqb_eq in E as ->. now apply list_elem_of_In.
  - intros Hc. exists c. split; [now apply list_elem_of_In|apply N.eqb_refl].
Qed.

Lemma str_contains_not_elem_of c s : str_contains c s = false <-> c ∉ s.
Proof.
  rewrite <- str_contains_elem_of. destruct (str_contains c s); split; done.
Qed.

Lemma str_split_nonempty sep s : str_split sep s <> [].
Proof. destruct (str_split_cons sep s) as (f & fs & ->). discriminate. Qed.

(** A field holds only characters of the string that was split. *)
Lemma str_split_within sep s field c :
  field ∈ str_split sep s -> c ∈ field -> c ∈ s.
Proof.
  revert field. induction s as [|x s IH]; simpl; intros field Hf Hc.
  - apply list_elem_of_singleton in Hf as ->. inversion Hc.
  - destruct (x =? sep)%N.
    + apply elem_of_cons in Hf as [->|Hf]; [inversion Hc|].
      right. now apply (IH field).
    + destruct (str_split_cons sep s) as (f & fs & E). rewrite E in *.
      apply elem_of_cons in Hf as [->|Hf].
      * apply elem_of_cons in Hc as [->|Hc]; [left|].
        right. apply (IH f); [left|exact Hc].
      * right. apply (IH field); [now right|exact Hc].
Qed.

(** Splitting what was joined gives the fields back. *)
Lemma str_split_plain sep s : sep ∉ s -> str_split sep s = [s].
Proof.
  induction s as [|x s IH]; intros Hs; [reflexivity|]. simpl.
  apply not_elem_of_cons in Hs as [Hx Hs].
  replace (x =? sep)%N with false by (symmetry; apply N.eqb_neq; congruence).
  now rewrite (IH Hs).
Qed.

Lemma str_split_app sep s t :
  sep ∉ s -> str_split sep (s ++ sep :: t) = s :: str_split sep t.
Proof.
  induction s as [|x s IH]; intros Hs; simpl.
  - now rewrite N.eqb_refl.
  - apply not_elem_of_cons in Hs as [Hx Hs].
    replace (x =? sep)%N with false by (symmetry; apply N.eqb_neq; congruence).
    now rewrite (IH Hs).
Qed.

Lemma str_split_join sep names :
  names <> [] -> Forall (fun name => sep ∉ name) names ->
  str_split sep (str_join [sep] names) = names.
Proof.
  intros Hne Hall. induction Hall as [|n names Hn Hall IH]; [done|].
  destruct names as [|n' names].
  - simpl. now apply str_split_plain.
  - rewrite str_join_cons. simpl app. rewrite str_split_app by exact Hn.
    f_equal. now apply IH.
Qed.

(** ** [repr] of plain names *)

Section Repr.
Variable isprintable : N -> bool.

Lemma repr_char_name c :
  is_name_char c = true -> repr_char isprintable APOSTROPHE c = [c].
Proof.
  unfold is_name_char, repr_char, APOSTROPHE, BACKSLASH. intros Hc.
  apply andb_true_iff in Hc as [Hc H92]. apply andb_true_iff in Hc as [Hc H39].
  apply andb_true_iff in Hc as [H32 H126].
  apply N.leb_le in H32, H126. apply negb_true_iff in H39, H92.
  rewrite H39, H92. simpl.
  replace (c =? 9)%N with false by (symmetry; apply N.eqb_neq; lia).
  replace (c =? 10)%N with false by (symmetry; apply N.eqb_neq; lia).
  replace (c =? 13)%N with false by (symmetry; apply N.eqb_neq; lia).
  replace (c <? 32)%N with false by (symmetry; apply N.ltb_ge; lia).
  replace (c =? 127)%N with false by (symmetry; apply N.eqb_neq; lia).
  replace (c <? 127)%N with true by (symmetry; apply N.ltb_lt; lia).
  reflexivity.
Qed.

Lemma str_repr_name s :
  is_name s = true ->
  str_repr isprintable s = APOSTROPHE :: s ++ [APOSTROPHE].
Proof.
  intros Hs. unfold str_repr.
  assert (Hq : str_contains APOSTROPHE s = false).
  { unfold str_contains, is_name in *. apply not_true_iff_false.
    intros Hex. apply existsb_exists in Hex as (c & Hc & Ec).
    rewrite forallb_forall in Hs. specialize (Hs _ Hc).
    apply N.eqb_eq in Ec. subst c. discriminate. }
  rewrite Hq. simpl. f_equal. f_equal.
  clear Hq. unfold is_name in Hs. induction s as [|c s IH]; [reflexivity|].
  simpl in Hs. apply andb_true_iff in Hs as [Hc Hs].
  simpl. rewrite repr_char_name by exact Hc.
  simpl. f_equal. now apply IH.
Qed.

Lemma list_repr_names l :
  forallb is_name l = true ->
  list_repr isprintable l
  = lit "[" ++ str_join (lit ", ") (List.map quoted l) ++ lit "]".
Proof.
  intros Hl. unfold list_repr. do 3 f_equal.
  induction l as [|s l IH]; [reflexivity|].
  simpl in Hl. apply andb_true_iff in Hl as [Hs Hl].
  cbn [List.map]. rewrite str_repr_name by exact Hs. now rewrite IH.
Qed.
End Repr.

End PyMore.

(* ===================================================================== *)
(** * More properties of the serialization                                *)
(* ===================================================================== *)

Module JsonMore.
Import Py Json Cli Terms PyFacts JsonFacts.

(** ** The text written is plain *)

Lemma is_plain_text_plain s : is_plain_text s = true <-> plain s.
Proof.
  unfold is_plain_text, plain. rewrite forallb_forall, Forall_forall.
  split; intros Hs c Hc; apply Hs; now apply list_elem_of_In.
Qed.

Lemma plain_lit_char c :
  (32 <= c <= 126)%N -> is_plain_char c = true.
Proof.
  intros Hc. unfold is_plain_char. apply orb_true_iff. right.
  apply andb_true_iff. split; apply N.leb_le; lia.
Qed.

Lemma plain_hex_digit d : (d < 16)%N -> is_plain_char (hex_digit d) = true.
Proof.
  intros Hd. unfold hex_digit. apply plain_lit_char.
  destruct (d <? 10)%N eqn:E; [apply N.ltb_lt in E|apply N.ltb_ge in E]; lia.
Qed.

Lemma plain_hex2 n : plain (hex2 n).
Proof.
  unfold hex2. repeat constructor; apply plain_hex_digit;
    apply N.mod_upper_bound; lia.
Qed.

Lemma plain_hex4 n : plain (hex4 n).
Proof. unfold hex4. apply Forall_app. split; apply plain_hex2. Qed.

Lemma plain_escape_char c : plain (escape_char c).
Proof.
  unfold escape_char.
  repeat match goal with
         | |- plain (if ?b then _ else _) => destruct b eqn:?
         end;
    try (repeat constructor; fail).
  - apply andb_true_iff in Heqb6 as [H1 H2].
    apply N.leb_le in H1, H2. repeat constructor. now apply plain_lit_char.
  - change (lit "\u" ++ hex4 c) with (92 :: 117 :: hex4 c)%N.
    do 2 (constructor; [reflexivity|]). apply plain_hex4.
  - cbv zeta.
    change (plain (92 :: 117 :: hex4 (N.lor 55296
                       (N.land (N.shiftr (c - 65536) 10) 1023))
                   ++ 92 :: 117 :: hex4 (N.lor 56320 (N.land (c - 65536) 1023)))%N).
    do 2 (constructor; [reflexivity|]). apply Forall_app. split; [apply plain_hex4|].
    do 2 (constructor; [reflexivity|]). apply plain_hex4.
Qed.

Lemma plain_encode_basestring_ascii s : plain (encode_basestring_ascii s).
Proof.
  unfold encode_basestring_ascii. constructor; [reflexivity|].
  apply Forall_app. split; [|repeat constructor].
  induction s as [|c s IH]; simpl; [constructor|].
  apply Forall_app. split; [apply plain_escape_char|exact IH].
Qed.

Lemma plain_nat_str n : plain (nat_str n).
Proof.
  destruct (nat_str_spec n) as (c & ds & E & Hdig & _). rewrite E.
  eapply Forall_impl; [exact Hdig|]. intros d Hd. simpl in Hd.
  apply is_digit_spec in Hd. apply plain_lit_char. lia.
Qed.

Lemma plain_int_str z : plain (int_str z).
Proof.
  destruct z; simpl; try apply plain_nat_str.
  constructor; [reflexivity|apply plain_nat_str].
Qed.

Lemma plain_newline_indent level : plain (newline_indent level).
Proof.
  unfold newline_indent. constructor; [reflexivity|].
  induction (indent * level) as [|n IH]; simpl; constructor; [reflexivity|exact IH].
Qed.

Lemma plain_str_join sep chunks :
  plain sep -> Forall plain chunks -> plain (str_join sep chunks).
Proof.
  intros Hsep Hall. induction Hall as [|c chunks Hc Hall IH]; [constructor|].
  destruct chunks as [|c' chunks]; [exact Hc|].
  change (plain (c ++ sep ++ str_join sep (c' :: chunks))).
  apply Forall_app. split; [exact Hc|]. apply Forall_app. split; [exact Hsep|exact IH].
Qed.

Section Values.
Context {F : Type} `{PyFloat F}.

Lemma plain_iterencode (o : json F) :
  plain_floats o = true -> forall level, plain (iterencode level o).
Proof.
  induction o as [|b|n|x|s|items IH|pairs IH] using json_ind'; intros Hp level.
  - repeat constructor.
  - destruct b; repeat constructor.
  - apply plain_int_str.
  - now apply is_plain_text_plain.
  - apply plain_encode_basestring_ascii.
  - destruct items as [|x items]; [repeat constructor|].
    rewrite iterencode_list.
    cbn [plain_floats] in Hp. rewrite forallb_forall in Hp.
    constructor; [reflexivity|].
    apply Forall_app. split; [apply plain_newline_indent|].
    apply Forall_app. split.
    + apply plain_str_join.
      * constructor; [reflexivity|apply plain_newline_indent].
      * apply Forall_forall. intros c Hc.
        apply list_elem_of_In, in_map_iff in Hc as (y & <- & Hy).
        rewrite Forall_forall in IH. apply IH; [now apply list_elem_of_In|].
        now apply Hp.
    + apply Forall_app. split; [apply plain_newline_indent|repeat constructor].
  - destruct pairs as [|p pairs]; [repeat constructor|].
    rewrite iterencode_dict.
    cbn [plain_floats] in Hp. rewrite forallb_forall in Hp.
    constructor; [reflexivity|].
    apply Forall_app. split; [apply plain_newline_indent|].
    apply Forall_app. split.
    + apply plain_str_join.
      * constructor; [reflexivity|apply plain_newline_indent].
      * apply Forall_forall. intros c Hc.
        apply list_elem_of_In, in_map_iff in Hc as ([k v] & <- & Hkv).
        apply list_elem_of_In in Hkv. rewrite sorted_items_Permutation in Hkv.
        cbn [fst snd].
        apply Forall_app. split; [apply plain_encode_basestring_ascii|].
        constructor; [reflexivity|].
        rewrite Forall_forall in IH. apply (IH _ Hkv).
        apply list_elem_of_In in Hkv. apply (Hp _ Hkv).
    + apply Forall_app. split; [apply plain_newline_indent|repeat constructor].
Qed.

(** ** Values with their keys sorted *)




(** A value is the same as another when its sorted form is. *)
Lemma same_value_of_sorted (a : json F) :
  forall b, same_value (sort_keys a) b = true -> same_value a b = true.
Proof.
  induction a as [|x|n|x|s|xs IH|ps IH] using json_ind'; intros b Hsame;
    try exact Hsame.
  - destruct b as [| | | | |ys|]; try discriminate.
    cbn [sort_keys] in Hsame. apply same_value_list in Hsame.
    apply same_value_list. revert ys Hsame.
    induction IH as [|x xs Hx _ IHxs]; intros ys Hsame.
    + inversion Hsame. constructor.
    + inversion Hsame as [|sx y sxs ys' Hxy Hrest]; subst.
      constructor; [now apply Hx|now apply IHxs].
  - destruct b as [| | | | | |qs]; try discriminate.
    rewrite sort_keys_dict in Hsame.
    apply same_value_dict in Hsame as [Hlen Hall]. apply same_value_dict.
    split.
    + rewrite <- Hlen, length_map.
      symmetry. apply Permutation_length, sorted_items_Permutation.
    + rewrite Forall_forall in *. intros [k v] Hkv.
      destruct (Hall (k, sort_keys v)) as (v' & Hget & Hv).
      { apply list_elem_of_In, in_map_iff. exists (k, v).
        split; [reflexivity|]. apply list_elem_of_In.
        now rewrite sorted_items_Permutation. }
      exists v'. split; [exact Hget|]. now apply (IH (k, v)).
Qed.

(** Two values written as the same text are the same value. *)
Lemma dumps_injective (a b : json F) :
  supported a = true -> supported b = true ->
  dumps a = dumps b -> same_value a b = true.
Proof.
  intros Ha Hb E.
  pose proof (loads_dumps a Ha) as La. pose proof (loads_dumps b Hb) as Lb.
  rewrite E, Lb in La. injection La as Es.
  apply same_value_of_sorted. rewrite <- Es. now apply same_value_sort_keys.
Qed.

(** ** Whitespace around a document *)

Lemma skip_whitespace_all ws s :
  forallb is_whitespace ws = true ->
  skip_whitespace (ws ++ s) = skip_whitespace s.
Proof.
  induction ws as [|c ws IH]; intros Hws; [reflexivity|].
  simpl in Hws. apply andb_true_iff in Hws as [Hc Hws].
  simpl. rewrite Hc. now apply IH.
Qed.


Lemma skip_whitespace_blank s :
  forallb is_whitespace s = true -> skip_whitespace s = [].
Proof.
  intros Hs. rewrite <- (app_nil_r s). now rewrite skip_whitespace_all.
Qed.

Lemma loads_blank s :
  forallb is_whitespace s = true ->
  loads (F := F) s = DecodeError Expecting_value (length s).
Proof.
  intros Hs.
  assert (G : decode (F := F) s = DecodeError Expecting_value (length s)).
  { unfold decode, depth_for. rewrite skip_whitespace_blank by exact Hs.
    rewrite Nat.add_1_r. simpl. now rewrite Nat.sub_0_r. }
  unfold loads. destruct s as [|c s']; [exact G|].
  simpl in Hs. apply andb_true_iff in Hs as [Hc _].
  destruct (c =? 65279)%N eqn:Ec; [|exact G].
  apply N.eqb_eq in Ec. subst c. discriminate.
Qed.


(** ** What the decoder returns *)







End Values.
End JsonMore.

(* ===================================================================== *)
(** * Floats in the serialization                                         *)
(* ===================================================================== *)

Module FloatFacts.
Import Py Json Cli Terms PyFacts JsonFacts.

(** ** A number followed by a delimiter *)

Lemma span_digits_delimited s ds r rest :
  span_digits s = (ds, r) -> delimited rest ->
  span_digits (s ++ rest) = (ds, r ++ rest).
Proof.
  intros Hs Hrest. revert ds r Hs.
  induction s as [|c s IH]; intros ds r Hs; simpl in *.
  - injection Hs as <- <-. now apply (span_digits_app []).
  - destruct (is_digit c).
    + destruct (span_digits s) as [ds' r'].
      rewrite (IH ds' r' eq_refl). now injection Hs as <- <-.
    + now injection Hs as <- <-.
Qed.

Lemma match_integer_app s i r rest :
  match_integer s = Some (i, r) -> delimited rest ->
  match_integer (s ++ rest) = Some (i, r ++ rest).
Proof.
  intros Hm Hrest. unfold match_integer in *.
  destruct s as [|c s']; [discriminate|]. cbn [app].
  destruct (c =? 45)%N.
  - destruct s' as [|c2 s2]; [discriminate|]. cbn [app].
    destruct (c2 =? 48)%N; [now injection Hm as <- <-|].
    destruct (is_digit c2); [|discriminate].
    destruct (span_digits s2) as [ds r'] eqn:Es.
    rewrite (span_digits_delimited _ _ _ _ Es Hrest). now injection Hm as <- <-.
  - destruct (c =? 48)%N; [now injection Hm as <- <-|].
    destruct (is_digit c); [|discriminate].
    destruct (span_digits s') as [ds r'] eqn:Es.
    rewrite (span_digits_delimited _ _ _ _ Es Hrest). now injection Hm as <- <-.
Qed.

Lemma match_frac_app s f r rest :
  match_frac s = (f, r) -> delimited rest ->
  match_frac (s ++ rest) = (f, r ++ rest).
Proof.
  intros Hm Hrest. destruct s as [|c s1]; simpl in *.
  - injection Hm as <- <-. now apply match_frac_delimited.
  - destruct (c =? 46)%N; [|now injection Hm as <- <-].
    destruct (span_digits s1) as [ds s2] eqn:Es.
    rewrite (span_digits_delimited _ _ _ _ Es Hrest).
    destruct ds; now injection Hm as <- <-.
Qed.

Lemma match_exp_app s e r rest :
  match_exp s = (e, r) -> delimited rest ->
  match_exp (s ++ rest) = (e, r ++ rest).
Proof.
  intros Hm Hrest. destruct s as [|c s1]; simpl in *.
  - injection Hm as <- <-. now apply match_exp_delimited.
  - destruct ((c =? 101) || (c =? 69))%N; [|now injection Hm as <- <-].
    destruct s1 as [|d s1']; simpl in *.
    + injection Hm as <- <-.
      destruct rest as [|d rest]; [reflexivity|].
      destruct Hrest as [-> | ->]; reflexivity.
    + destruct ((d =? 43) || (d =? 45))%N.
      * destruct (span_digits s1') as [ds s3] eqn:Es.
        rewrite (span_digits_delimited _ _ _ _ Es Hrest).
        destruct ds; now injection Hm as <- <-.
      * destruct (span_digits (d :: s1')) as [ds s3] eqn:Es.
        pose proof (span_digits_delimited _ _ _ _ Es Hrest) as Es'.
        simpl app in Es'. rewrite Es'.
        destruct ds; now injection Hm as <- <-.
Qed.

Lemma match_integer_head s i r :
  match_integer s = Some (i, r) ->
  exists c s', s = c :: s' /\ (c = 45%N \/ (48 <= c <= 57)%N).
Proof.
  unfold match_integer. destruct s as [|c s']; [discriminate|].
  intros Hm. exists c, s'. split; [reflexivity|].
  destruct (c =? 45)%N eqn:E45; [left; now apply N.eqb_eq|]. right.
  destruct (c =? 48)%N eqn:E48; [apply N.eqb_eq in E48; lia|].
  destruct (is_digit c) eqn:Ed; [now apply is_digit_spec|discriminate].
Qed.

Section Values.
Context {F : Type} `{PyFloat F}.

Lemma match_number_app s (v : json F) r rest :
  match_number s = Some (v, r) -> delimited rest ->
  match_number (s ++ rest) = Some (v, r ++ rest).
Proof.
  intros Hm Hrest. unfold match_number in *.
  destruct (match_integer s) as [[i s1]|] eqn:Ei; [|discriminate].
  rewrite (match_integer_app _ _ _ _ Ei Hrest).
  destruct (match_frac s1) as [f s2] eqn:Ef.
  rewrite (match_frac_app _ _ _ _ Ef Hrest).
  destruct (match_exp s2) as [e s3] eqn:Ee.
  rewrite (match_exp_app _ _ _ _ Ee Hrest).
  destruct f, e; now injection Hm as <- <-.
Qed.

Lemma strip_prefix_Some prefix s rest :
  strip_prefix prefix s = Some rest -> s = prefix ++ rest.
Proof.
  revert s. induction prefix as [|p prefix IH]; intros [|c s]; simpl;
    try discriminate; try (now intros [= <-]).
  destruct (p =? c)%N eqn:E; [|discriminate].
  apply N.eqb_eq in E as ->. intros Hs. now rewrite (IH _ Hs).
Qed.

(** The text of a float that is read back, followed by a delimiter. *)
Lemma scan_atom_float s (y : F) rest :
  scan_atom s = Scanned (JFloat y) [] -> delimited rest ->
  scan_atom (s ++ rest) = Scanned (JFloat y) rest
  /\ exists c s', s = c :: s'
                  /\ (c = 45%N \/ (48 <= c <= 57)%N \/ c = 78%N \/ c = 73%N).
Proof.
  intros Hs Hrest. unfold scan_atom in Hs.
  destruct (strip_prefix (lit "null") s); [discriminate|].
  destruct (strip_prefix (lit "true") s); [discriminate|].
  destruct (strip_prefix (lit "false") s); [discriminate|].
  destruct (match_number s) as [[res r]|] eqn:Em.
  - injection Hs as -> ->.
    pose proof (match_number_app _ _ _ _ Em Hrest) as Em'. simpl in Em'.
    unfold match_number in Em.
    destruct (match_integer s) as [[i s1]|] eqn:Ei; [|discriminate].
    destruct (match_integer_head _ _ _ Ei) as (c & s' & -> & Hc).
    split; [|exists c, s'; split; [reflexivity|tauto]].
    unfold scan_atom. rewrite Em'. simpl app.
    change (lit "null") with (110 :: lit "ull")%N.
    change (lit "true") with (116 :: lit "rue")%N.
    change (lit "false") with (102 :: lit "alse")%N.
    rewrite !strip_prefix_head_ne by lia. reflexivity.
  - destruct (strip_prefix (lit "NaN") s) as [r|] eqn:E1.
    { injection Hs as <- ->. apply strip_prefix_Some in E1 as ->.
      split; [reflexivity|]. exists 78%N, (lit "aN"). split; [reflexivity|tauto]. }
    destruct (strip_prefix (lit "Infinity") s) as [r|] eqn:E2.
    { injection Hs as <- ->. apply strip_prefix_Some in E2 as ->.
      split; [reflexivity|].
      exists 73%N, (lit "nfinity"). split; [reflexivity|tauto]. }
    destruct (strip_prefix (lit "-Infinity") s) as [r|] eqn:E3; [|discriminate].
    injection Hs as <- ->. apply strip_prefix_Some in E3 as ->.
    split; [reflexivity|].
    exists 45%N, (lit "Infinity"). split; [reflexivity|tauto].
Qed.

Lemma float_reads_back_spec (x : F) :
  float_reads_back x = true -> scan_atom (floatstr x) = Scanned (JFloat x) [].
Proof.
  unfold float_reads_back.
  destruct (scan_atom (floatstr x)) as [[| | |y| | |] [|? ?]| |];
    try discriminate.
  intros Hy. apply float_same_eq in Hy. now subst.
Qed.

Lemma float_same_refl (x : F) :
  float_reads_back x = true -> float_same x x = true.
Proof.
  unfold float_reads_back.
  destruct (scan_atom (floatstr x)) as [[| | |y| | |] [|? ?]| |];
    try discriminate.
  intros Hy. apply float_same_eq in Hy as Hxy. now subst.
Qed.

Lemma scan_once_float depth (x : F) rest :
  float_reads_back x = true -> delimited rest ->
  scan_once (S depth) (floatstr x ++ rest) = Scanned (JFloat x) rest.
Proof.
  intros Hx Hrest. apply float_reads_back_spec in Hx.
  destruct (scan_atom_float _ _ _ Hx Hrest) as (Hscan & c & s' & E & Hc).
  rewrite <- Hscan. rewrite E. simpl.
  replace (c =? QUOTE)%N with false
    by (symmetry; apply N.eqb_neq; unfold QUOTE; lia).
  replace (c =? 123)%N with false by (symmetry; apply N.eqb_neq; lia).
  replace (c =? 91)%N with false by (symmetry; apply N.eqb_neq; lia).
  reflexivity.
Qed.

(** ** The round trip with floats *)

(** Lengths of concatenations, for the depth of the scan. *)
Ltac lengths :=
  repeat first [ rewrite !length_app in * | progress (simpl length in *) ];
  lia.

Lemma supported_starts_a_value (o : json F) :
  supported_with_floats o = true -> starts_a_value o.
Proof.
  intros Hs level. destruct o as [|b|n|x|s|items|pairs].
  - exists 110%N, (lit "ull"). done.
  - destruct b; [exists 116%N, (lit "rue") | exists 102%N, (lit "alse")]; done.
  - destruct (int_str_head n) as (c & s & E & Hc).
    exists c, s. split; [exact E|].
    split; [apply not_whitespace|]; lia.
  - cbn [supported_with_floats] in Hs. apply float_reads_back_spec in Hs.
    destruct (scan_atom_float _ _ [] Hs I) as (_ & c & s' & E & Hc).
    exists c, s'. split; [exact E|].
    split; [apply not_whitespace|]; lia.
  - eexists QUOTE, _. split; [reflexivity|done].
  - destruct items as [|x items].
    + exists 91%N, (lit "]"). done.
    + rewrite iterencode_list. eexists 91%N, _. split; [reflexivity|done].
  - destruct pairs as [|p pairs].
    + exists 123%N, (lit "}"). done.
    + rewrite iterencode_dict. eexists 123%N, _. split; [reflexivity|done].
Qed.

Lemma skip_whitespace_items level (x : json F) items s :
  starts_a_value x ->
  skip_whitespace (encode_items level (x :: items) ++ s)
  = encode_items level (x :: items) ++ s.
Proof.
  intros Hx. destruct (Hx (S level)) as (c & sx & E & Hws & _ & _).
  rewrite encode_items_cons, E. simpl app.
  now apply skip_whitespace_head.
Qed.

Lemma array_items_read_back level (items : list (json F)) :
  Forall (fun o => starts_a_value o /\ reads_back o) items ->
  items <> [] ->
  forall depth rest,
    2 * length (encode_items level items ++ newline_indent level ++ 93%N :: rest)
      + 2 <= depth ->
    array_items depth
      (encode_items level items ++ newline_indent level ++ 93%N :: rest)
    = Scanned (List.map sort_keys items) rest.
Proof.
  induction items as [|x items IH]; [done|].
  intros Hall _ depth rest Hd. destruct depth as [|depth]; [lia|].
  apply Forall_cons in Hall as [[Hsx Hx] Hall].
  rewrite encode_items_cons in *.
  destruct items as [|y items].
  - rewrite app_nil_r in *.
    eapply array_items_last.
    + apply Hx; [apply newline_indent_delimited|lia].
    + rewrite skip_whitespace_newline_indent. reflexivity.
  - rewrite <- !app_assoc in *.
    apply Forall_cons in Hall as Hally. destruct Hally as [[Hsy _] _].
    eapply array_items_more.
    + apply Hx; [now left|lia].
    + rewrite <- app_comm_cons. now apply skip_whitespace_head.
    + rewrite skip_whitespace_newline_indent.
      rewrite skip_whitespace_items by exact Hsy.
      apply IH; [exact Hall|done|].
      lengths.
Qed.

Lemma object_items_read_back level (pairs : list (str * json F)) :
  Forall (fun kv => is_text kv.1 = true /\ starts_a_value kv.2
                    /\ reads_back kv.2) pairs ->
  pairs <> [] ->
  forall depth begin rest s,
    encode_pairs level pairs ++ newline_indent level ++ 125%N :: rest
    = QUOTE :: s ->
    2 * length s + 2 <= depth ->
    object_items depth begin s
    = Scanned (List.map (fun kv => (kv.1, sort_keys kv.2)) pairs) rest.
Proof.
  induction pairs as [|[k v] pairs IH]; [done|].
  intros Hall _ depth begin rest s Heq Hd. destruct depth as [|depth]; [lia|].
  apply Forall_cons in Hall as [(Hk & Hsv & Hv) Hall]. simpl in Hk, Hsv, Hv.
  destruct (Hsv (S level)) as (c & sv & Ev & Hws & _ & _).
  rewrite encode_pairs_cons in Heq.
  rewrite <- !app_comm_cons, <- !app_assoc, <- !app_comm_cons, <- !app_assoc in Heq.
  assert (Es : s = flat_map escape_char k
                   ++ QUOTE :: 58%N :: iterencode (S level) v
                   ++ match pairs with
                      | [] => []
                      | _ :: _ => (44%N :: newline_indent (S level))
                                  ++ encode_pairs level pairs
                      end ++ newline_indent level ++ 125%N :: rest).
  { injection Heq as Heq. symmetry. exact Heq. }
  clear Heq. subst s.
  assert (Hskip : forall t, skip_whitespace (iterencode (S level) v ++ t)
                            = iterencode (S level) v ++ t).
  { intros t. rewrite Ev. simpl app. now apply skip_whitespace_head. }
  destruct pairs as [|[k' v'] pairs].
  - cbn [app] in *.
    eapply object_items_last.
    + apply scanstring_encoded. exact Hk.
    + rewrite Hskip. apply Hv; [apply newline_indent_delimited|].
      lengths.
    + rewrite skip_whitespace_newline_indent. reflexivity.
  - rewrite <- !app_assoc in *.
    destruct (encode_pairs_head level (k', v') pairs) as [s' Es'].
    eapply object_items_more.
    + apply scanstring_encoded. exact Hk.
    + rewrite Hskip. apply Hv; [now left|].
      lengths.
    + rewrite <- app_comm_cons. now apply skip_whitespace_head.
    + rewrite skip_whitespace_newline_indent, Es', <- app_comm_cons.
      now apply skip_whitespace_head.
    + eapply IH; [exact Hall|done| |].
      * rewrite Es', <- app_comm_cons. reflexivity.
      * assert (El : length (encode_pairs level ((k', v') :: pairs)
                             ++ newline_indent level ++ 125%N :: rest)
                     = S (length (s' ++ newline_indent level ++ 125%N :: rest))).
        { rewrite Es'. reflexivity. }
        lengths.
Qed.

Lemma scan_once_iterencode_floats (o : json F) :
  supported_with_floats o = true -> reads_back o.
Proof.
  induction o as [|b|n|x|s|items IH|pairs IH] using json_ind';
    intros Hs level depth rest Hrest Hd;
    (destruct depth as [|depth]; [lia|]).
  - reflexivity.
  - destruct b; reflexivity.
  - now apply scan_once_int.
  - now apply scan_once_float.
  - now apply scan_once_str.
  - destruct items as [|x items]; [reflexivity|].
    assert (Hall : Forall (fun o => starts_a_value o /\ reads_back o)
                     (x :: items)).
    { cbn [supported_with_floats] in Hs. rewrite forallb_forall in Hs.
      rewrite Forall_forall in IH |- *. intros o Ho.
      pose proof (Hs o (proj1 (list_elem_of_In _ _) Ho)) as Hso.
      split; [now apply supported_starts_a_value|auto]. }
    rewrite iterencode_list in *. rewrite <- !app_assoc in *.
    change (lit "[" ++ ?x) with (91%N :: x) in *.
    change (lit "]" ++ ?x) with (93%N :: x) in *.
    apply Forall_cons in Hall as Hx. destruct Hx as [[Hsx _] _].
    destruct (Hsx (S level)) as (c & sx & Ex & Hws & Hc & _).
    assert (Ehead : exists s', encode_items level (x :: items)
                               ++ newline_indent level ++ 93%N :: rest = c :: s').
    { rewrite encode_items_cons, Ex. eexists. reflexivity. }
    destruct Ehead as [s' Ehead].
    eapply scan_once_array.
    + rewrite skip_whitespace_newline_indent, Ehead.
      now apply skip_whitespace_head.
    + exact Hc.
    + rewrite <- Ehead. apply array_items_read_back; [exact Hall|done|].
      lengths.
  - destruct pairs as [|p pairs]; [reflexivity|].
    cbn [supported_with_floats] in Hs. apply andb_true_iff in Hs as [Hnd Hs].
    apply bool_decide_eq_true in Hnd.
    assert (Hall : Forall (fun kv => is_text kv.1 = true /\ starts_a_value kv.2
                                     /\ reads_back kv.2) (p :: pairs)).
    { rewrite forallb_forall in Hs.
      rewrite Forall_forall in IH |- *. intros [k v] Hkv.
      pose proof (Hs _ (proj1 (list_elem_of_In _ _) Hkv)) as Hskv.
      apply andb_true_iff in Hskv as [Hk Hv].
      specialize (IH _ Hkv). simpl in *.
      split; [exact Hk|]. split; [now apply supported_starts_a_value|auto]. }
    apply Forall_sorted_items in Hall.
    rewrite iterencode_dict in *. rewrite sort_keys_dict.
    rewrite <- !app_assoc in *.
    change (lit "{" ++ ?x) with (123%N :: x) in *.
    change (lit "}" ++ ?x) with (125%N :: x) in *.
    assert (Hne : sorted_items (p :: pairs) <> []).
    { intros E. pose proof (sorted_items_Permutation (p :: pairs)) as Hp.
      rewrite E in Hp. now apply Permutation_nil_cons in Hp. }
    pose proof (sorted_items_distinct _ Hnd) as Hnd'.
    destruct (sorted_items (p :: pairs)) as [|q sp]; [done|].
    destruct (encode_pairs_head level q sp) as [s' Es'].
    rewrite <- (dict_of_pairs_distinct
                  (List.map (fun kv => (kv.1, sort_keys kv.2)) (q :: sp)))
      by (now rewrite map_fst_sort_keys).
    eapply scan_once_object.
    + rewrite skip_whitespace_newline_indent, Es', <- app_comm_cons.
      now apply skip_whitespace_head.
    + eapply object_items_read_back; [exact Hall|done| |].
      * rewrite Es', <- app_comm_cons. reflexivity.
      * rewrite Es' in Hd. lengths.
Qed.

Lemma loads_dumps_floats (o : json F) :
  supported_with_floats o = true -> loads (dumps o) = Decoded (sort_keys o).
Proof.
  intros Hs. unfold dumps.
  destruct (supported_starts_a_value o Hs 0) as (c & s & E & Hws & _ & Hc).
  pose proof (scan_once_iterencode_floats o Hs 0 (depth_for (iterencode 0 o)) [] I)
    as Hr.
  rewrite app_nil_r in Hr. specialize (Hr ltac:(unfold depth_for; lia)).
  unfold loads, decode. rewrite E in *.
  replace (c =? 65279)%N with false by (symmetry; apply N.eqb_neq; lia).
  rewrite skip_whitespace_head by exact Hws.
  rewrite Hr. reflexivity.
Qed.

Lemma same_value_sort_keys_floats (o : json F) :
  supported_with_floats o = true -> same_value (sort_keys o) o = true.
Proof.
  induction o as [|b|n|x|s|items IH|pairs IH] using json_ind'; intros Hs.
  - reflexivity.
  - now destruct b.
  - apply Z.eqb_refl.
  - now apply float_same_refl.
  - now apply bool_decide_eq_true.
  - cbn [sort_keys]. apply same_value_list.
    cbn [supported_with_floats] in Hs. rewrite forallb_forall in Hs.
    induction items as [|x items IHi]; [constructor|].
    apply Forall_cons in IH as [Hx IH].
    constructor.
    + apply Hx, Hs. now left.
    + apply IHi; [exact IH|]. intros y Hy. apply Hs. now right.
  - rewrite sort_keys_dict. apply same_value_dict.
    cbn [supported_with_floats] in Hs. apply andb_true_iff in Hs as [Hnd Hs].
    apply bool_decide_eq_true in Hnd. rewrite forallb_forall in Hs.
    split.
    + rewrite length_map. apply Permutation_length, sorted_items_Permutation.
    + rewrite Forall_forall. intros [k sv] Hin.
      apply list_elem_of_In, in_map_iff in Hin as ([k' v] & [= <- <-] & Hin).
      apply list_elem_of_In in Hin. rewrite sorted_items_Permutation in Hin.
      exists v. simpl. split.
      * now apply dict_get_elem_of.
      * rewrite Forall_forall in IH. apply (IH _ Hin).
        apply list_elem_of_In in Hin. specialize (Hs _ Hin). simpl in Hs.
        now apply andb_true_iff in Hs as [_ ?].
Qed.

End Values.
End FloatFacts.

(* ===================================================================== *)
(** * The layout of the text written                                      *)
(* ===================================================================== *)

Module LayoutFacts.
Import Py Json Cli Terms PyFacts JsonFacts.

(** ** Lines and separators *)

Lemma str_join_two sep c c' rest :
  str_join sep (c :: c' :: rest) = c ++ sep ++ str_join sep (c' :: rest).
Proof. reflexivity. Qed.

Lemma str_join_app sep (xs ys : list str) :
  xs <> [] -> ys <> [] ->
  str_join sep (xs ++ ys) = str_join sep xs ++ sep ++ str_join sep ys.
Proof.
  intros Hx Hy. induction xs as [|x xs IH]; [done|].
  destruct xs as [|x' xs].
  - destruct ys as [|y ys]; [done|]. reflexivity.
  - change ((x :: x' :: xs) ++ ys) with (x :: (x' :: xs) ++ ys).
    change ((x' :: xs) ++ ys) with (x' :: xs ++ ys) at 1.
    rewrite str_join_two.
    change (x' :: xs ++ ys) with ((x' :: xs) ++ ys).
    rewrite IH by done. rewrite str_join_two.
    now rewrite <- !app_assoc.
Qed.

Lemma followed_by_nonempty suffix lines :
  lines <> [] -> followed_by suffix lines <> [].
Proof. destruct lines as [|l [|l' rest]]; simpl; done. Qed.

Lemma str_join_followed_by sep suffix lines :
  lines <> [] ->
  str_join sep (followed_by suffix lines) = str_join sep lines ++ suffix.
Proof.
  intros Hne. induction lines as [|l lines IH]; [done|].
  destruct lines as [|l' lines]; [reflexivity|].
  change (followed_by suffix (l :: l' :: lines))
    with (l :: followed_by suffix (l' :: lines)).
  pose proof (followed_by_nonempty suffix (l' :: lines) ltac:(done)) as Hf.
  destruct (followed_by suffix (l' :: lines)) as [|f fs] eqn:Ef; [done|].
  rewrite !str_join_two. rewrite IH by done.
  now rewrite <- !app_assoc.
Qed.

Lemma separated_nonempty blocks :
  blocks <> [] -> Forall (fun block => block <> []) blocks ->
  separated blocks <> [].
Proof.
  intros Hne Hall. destruct Hall as [|b blocks Hb Hall]; [done|].
  destruct blocks as [|b' blocks]; [exact Hb|].
  change (separated (b :: b' :: blocks))
    with (followed_by (lit ",") b ++ separated (b' :: blocks)).
  pose proof (followed_by_nonempty (lit ",") b Hb) as Hf.
  destruct (followed_by (lit ",") b); done.
Qed.

Lemma str_join_separated sep blocks :
  Forall (fun block => block <> []) blocks ->
  str_join sep (separated blocks)
  = str_join (lit "," ++ sep) (List.map (str_join sep) blocks).
Proof.
  intros Hall. induction Hall as [|b blocks Hb Hall IH]; [reflexivity|].
  destruct blocks as [|b' blocks]; [reflexivity|].
  change (separated (b :: b' :: blocks))
    with (followed_by (lit ",") b ++ separated (b' :: blocks)).
  rewrite str_join_app.
  - rewrite str_join_followed_by by exact Hb. rewrite IH.
    change (List.map (str_join sep) (b :: b' :: blocks))
      with (str_join sep b :: str_join sep b' :: List.map (str_join sep) blocks).
    rewrite str_join_two. now rewrite <- !app_assoc.
  - now apply followed_by_nonempty.
  - now apply separated_nonempty.
Qed.

Lemma newline_indent_S level :
  newline_indent level ++ lit "  " = newline_indent (S level).
Proof.
  unfold newline_indent, indent.
  replace (2 * S level) with (2 * level + 2) by lia.
  rewrite repeat_app, <- app_comm_cons. reflexivity.
Qed.

Lemma str_join_indented level lines :
  lines <> [] ->
  str_join (newline_indent level) (indented lines)
  = lit "  " ++ str_join (newline_indent (S level)) lines.
Proof.
  intros Hne. induction lines as [|l lines IH]; [done|].
  destruct lines as [|l' lines]; [reflexivity|].
  change (indented (l :: l' :: lines))
    with ((lit "  " ++ l) :: indented (l' :: lines)).
  change (indented (l' :: lines))
    with ((lit "  " ++ l') :: indented lines) at 1.
  rewrite str_join_two.
  change ((lit "  " ++ l') :: indented lines) with (indented (l' :: lines)).
  rewrite IH by done. rewrite str_join_two.
  rewrite <- (newline_indent_S level). now rewrite <- !app_assoc.
Qed.

Lemma indented_nonempty lines : lines <> [] -> indented lines <> [].
Proof. destruct lines; simpl; done. Qed.

Lemma str_join_labelled sep key lines :
  lines <> [] ->
  str_join sep (labelled key lines)
  = encode_basestring_ascii key ++ lit ":" ++ str_join sep lines.
Proof.
  intros Hne. destruct lines as [|l [|l' lines]]; [done| |].
  - simpl. now rewrite <- app_assoc.
  - change (labelled key (l :: l' :: lines))
      with ((encode_basestring_ascii key ++ lit ":" ++ l) :: l' :: lines).
    rewrite !str_join_two. now rewrite <- !app_assoc.
Qed.

Lemma labelled_nonempty key lines : labelled key lines <> [].
Proof. destruct lines; simpl; done. Qed.

(** The lines between an opening and a closing bracket. *)
Lemma str_join_bracketed level opening closing lines :
  lines <> [] ->
  str_join (newline_indent level) ([opening] ++ indented lines ++ [closing])
  = opening ++ newline_indent (S level)
    ++ str_join (newline_indent (S level)) lines
    ++ newline_indent level ++ closing.
Proof.
  intros Hne.
  rewrite str_join_app; [|done|].
  2:{ pose proof (indented_nonempty lines Hne). destruct (indented lines); done. }
  rewrite str_join_app; [|now apply indented_nonempty|done].
  rewrite str_join_indented by exact Hne.
  simpl str_join at 1. simpl str_join at 2.
  rewrite <- (newline_indent_S level). now rewrite <- !app_assoc.
Qed.

Section Values.
Context {F : Type} `{PyFloat F}.

Lemma canonical_lines_nonempty (o : json F) : canonical_lines o <> [].
Proof.
  destruct o as [|b|n|x|s|[|x items]|[|p pairs]]; simpl; done.
Qed.

(** ** The text written is the canonical text of the sorted value *)

Lemma iterencode_canonical (o : json F) :
  forall level,
    iterencode level o
    = str_join (newline_indent level) (canonical_lines (sort_keys o)).
Proof.
  induction o as [|b|n|x|s|items IH|pairs IH] using json_ind'; intros level.
  - reflexivity.
  - destruct b; reflexivity.
  - reflexivity.
  - reflexivity.
  - reflexivity.
  - destruct items as [|x items]; [reflexivity|].
    rewrite iterencode_list. cbn [sort_keys].
    change (List.map sort_keys (x :: items))
      with (sort_keys x :: List.map sort_keys items).
    change (canonical_lines (JList (sort_keys x :: List.map sort_keys items)))
      with ([lit "["]
            ++ indented (separated
                 (List.map canonical_lines
                    (sort_keys x :: List.map sort_keys items)))
            ++ [lit "]"]).
    assert (Hall : Forall (fun block : list str => block <> [])
                     (List.map canonical_lines
                        (sort_keys x :: List.map sort_keys items))).
    { apply Forall_forall. intros block Hb.
      apply list_elem_of_In, in_map_iff in Hb as (y & <- & _).
      apply canonical_lines_nonempty. }
    rewrite str_join_bracketed by (now apply separated_nonempty).
    rewrite str_join_separated by exact Hall.
    do 3 f_equal. unfold encode_items. f_equal.
    change (sort_keys x :: List.map sort_keys items)
      with (List.map sort_keys (x :: items)).
    rewrite !map_map. apply map_ext_in. intros y Hy.
    rewrite Forall_forall in IH. apply IH. now apply list_elem_of_In.
  - destruct pairs as [|p pairs]; [reflexivity|].
    rewrite iterencode_dict, sort_keys_dict.
    assert (Hne : sorted_items (p :: pairs) <> []).
    { intros E. pose proof (sorted_items_Permutation (p :: pairs)) as Hp.
      rewrite E in Hp. now apply Permutation_nil_cons in Hp. }
    assert (Hsub : forall kv, kv ∈ sorted_items (p :: pairs) -> kv ∈ p :: pairs).
    { intros kv. now rewrite sorted_items_Permutation. }
    destruct (sorted_items (p :: pairs)) as [|q sp]; [done|].
    change (List.map (fun kv : str * json F => (kv.1, sort_keys kv.2)) (q :: sp))
      with ((q.1, sort_keys q.2)
            :: List.map (fun kv : str * json F => (kv.1, sort_keys kv.2)) sp).
    set (sorted := (q.1, sort_keys q.2)
                   :: List.map (fun kv : str * json F => (kv.1, sort_keys kv.2)) sp).
    change (canonical_lines (JDict sorted))
      with ([lit "{"]
            ++ indented (separated
                 (List.map (fun kv => labelled (fst kv) (canonical_lines (snd kv)))
                    sorted))
            ++ [lit "}"]).
    assert (Hall : Forall (fun block : list str => block <> [])
                     (List.map (fun kv : str * json F =>
                                  labelled (fst kv) (canonical_lines (snd kv)))
                        sorted)).
    { apply Forall_forall. intros block Hb.
      apply list_elem_of_In, in_map_iff in Hb as (y & <- & _).
      apply labelled_nonempty. }
    rewrite str_join_bracketed by (now apply separated_nonempty).
    rewrite str_join_separated by exact Hall.
    do 3 f_equal. unfold encode_pairs. f_equal.
    unfold sorted.
    change ((q.1, sort_keys q.2)
            :: List.map (fun kv : str * json F => (kv.1, sort_keys kv.2)) sp)
      with (List.map (fun kv : str * json F => (kv.1, sort_keys kv.2)) (q :: sp)).
    rewrite !map_map. apply map_ext_in. intros [k v] Hkv. cbn [fst snd].
    rewrite str_join_labelled by apply canonical_lines_nonempty.
    do 2 f_equal.
    rewrite Forall_forall in IH.
    apply (IH (k, v)). apply Hsub. now apply list_elem_of_In.
Qed.

Lemma dumps_canonical (o : json F) :
  dumps o = canonical_text (sort_keys o).
Proof. unfold dumps, canonical_text. apply iterencode_canonical. Qed.

End Values.

(** ** The sorted value has its keys in increasing order *)

Lemma str_leb_neq_ltb a b : str_leb a b = true -> a <> b -> str_ltb a b = true.
Proof.
  unfold str_leb, str_ltb. destruct (str_compare a b) eqn:E; try done.
  intros _ Hne. now apply str_compare_eq in E.
Qed.

Lemma str_leb_false_ltb a b : str_leb a b = false -> str_ltb b a = true.
Proof.
  unfold str_leb, str_ltb. rewrite (str_compare_antisym a b).
  destruct (str_compare a b); simpl; done.
Qed.

Lemma ascending_cons k keys :
  ascending (k :: keys) = true <->
  match keys with
  | [] => True
  | k' :: _ => str_ltb k k' = true
  end /\ ascending keys = true.
Proof.
  destruct keys as [|k' keys]; simpl; [tauto|].
  rewrite andb_true_iff. tauto.
Qed.

Lemma insert_item_ascending {V} (kv : str * V) l :
  kv.1 ∉ List.map fst l ->
  ascending (List.map fst l) = true ->
  ascending (List.map fst (insert_item kv l)) = true.
Proof.
  induction l as [|x l IH]; intros Hnin Hasc; [reflexivity|].
  simpl in Hnin. apply not_elem_of_cons in Hnin as [Hne Hnin].
  cbn [insert_item]. destruct (str_leb kv.1 x.1) eqn:Hle.
  - change (List.map fst (kv :: x :: l)) with (kv.1 :: List.map fst (x :: l)).
    apply ascending_cons. split; [|exact Hasc].
    simpl. now apply str_leb_neq_ltb.
  - change (List.map fst (x :: insert_item kv l))
      with (x.1 :: List.map fst (insert_item kv l)).
    change (List.map fst (x :: l)) with (x.1 :: List.map fst l) in Hasc.
    apply ascending_cons in Hasc as [Hhead Hasc].
    apply ascending_cons. split; [|now apply IH].
    destruct l as [|y l]; simpl.
    + now apply str_leb_false_ltb.
    + destruct (str_leb kv.1 y.1); simpl.
      * now apply str_leb_false_ltb.
      * exact Hhead.
Qed.

Lemma sorted_items_ascending {V} (l : list (str * V)) :
  NoDup (List.map fst l) -> ascending (List.map fst (sorted_items l)) = true.
Proof.
  induction l as [|kv l IH]; intros Hnd; [reflexivity|].
  simpl in Hnd. apply NoDup_cons in Hnd as [Hnin Hnd].
  cbn [sorted_items]. apply insert_item_ascending; [|now apply IH].
  intros Hin. apply Hnin.
  assert (Hp : List.map fst (sorted_items l) ≡ₚ List.map fst l)
    by (apply Permutation_map, sorted_items_Permutation).
  now rewrite <- Hp.
Qed.

Section Sorted.
Context {F : Type} `{PyFloat F}.

Lemma sort_keys_ascending (o : json F) :
  distinct_keys o = true -> keys_ascending (sort_keys o) = true.
Proof.
  induction o as [|b|n|x|s|items IH|pairs IH] using json_ind'; intros Hd;
    try reflexivity.
  - cbn [sort_keys keys_ascending distinct_keys] in *. rewrite forallb_forall in *.
    intros y Hy. apply in_map_iff in Hy as (x & <- & Hx).
    rewrite Forall_forall in IH.
    apply IH; [now apply list_elem_of_In|now apply Hd].
  - rewrite sort_keys_dict. cbn [keys_ascending distinct_keys] in *.
    apply andb_true_iff in Hd as [Hnd Hd]. apply bool_decide_eq_true in Hnd.
    apply andb_true_iff. split.
    + rewrite map_fst_sort_keys. now apply sorted_items_ascending.
    + rewrite forallb_forall in *. intros [k sv] Hkv.
      apply in_map_iff in Hkv as ([k' v] & [= <- <-] & Hkv).
      apply list_elem_of_In in Hkv. rewrite sorted_items_Permutation in Hkv.
      rewrite Forall_forall in IH.
      apply (IH (k', v)); [exact Hkv|].
      apply list_elem_of_In in Hkv. apply (Hd _ Hkv).
Qed.

(** A value that is the same as some value is the same as itself with
    its keys sorted. *)
Lemma same_value_sort_keys_self (a : json F) :
  forall b, same_value a b = true -> distinct_keys a = true ->
            same_value (sort_keys a) a = true.
Proof.
  induction a as [|x|n|x|s|xs IH|ps IH] using json_ind'; intros b Hsame Hd.
  - reflexivity.
  - now destruct x.
  - apply Z.eqb_refl.
  - destruct b as [| | |y| | |]; try discriminate.
    cbn [same_value sort_keys] in *.
    apply float_same_eq in Hsame as Hxy. now subst.
  - now apply bool_decide_eq_true.
  - destruct b as [| | | | |ys|]; try discriminate.
    apply same_value_list in Hsame. cbn [sort_keys]. apply same_value_list.
    cbn [distinct_keys] in Hd. rewrite forallb_forall in Hd.
    revert ys Hsame. induction IH as [|x xs Hx _ IHxs]; intros ys Hsame.
    + constructor.
    + inversion Hsame as [|x' y xs' ys' Hxy Hrest]; subst.
      constructor.
      * apply (Hx y Hxy). apply Hd. now left.
      * apply (IHxs (fun z Hz => Hd z (or_intror Hz)) ys' Hrest).
  - destruct b as [| | | | | |qs]; try discriminate.
    apply same_value_dict in Hsame as [_ Hall].
    rewrite sort_keys_dict. apply same_value_dict.
    cbn [distinct_keys] in Hd. apply andb_true_iff in Hd as [Hnd Hd].
    apply bool_decide_eq_true in Hnd. rewrite forallb_forall in Hd.
    split.
    + rewrite length_map. apply Permutation_length, sorted_items_Permutation.
    + rewrite Forall_forall in *. intros [k sv] Hin.
      apply list_elem_of_In, in_map_iff in Hin as ([k' v] & [= <- <-] & Hin).
      apply list_elem_of_In in Hin. rewrite sorted_items_Permutation in Hin.
      exists v. cbn [fst snd]. split.
      * now apply dict_get_elem_of.
      * destruct (Hall _ Hin) as (v' & _ & Hv). cbn [fst snd] in Hv.
        apply (IH _ Hin v' Hv).
        apply list_elem_of_In in Hin. apply (Hd _ Hin).
Qed.

End Sorted.
End LayoutFacts.

(* ===================================================================== *)
(** * Facts about the command line                                        *)
(* ===================================================================== *)

Module CliFacts.
Import Py Json Cli Terms PyFacts JsonFacts PyMore JsonMore FloatFacts
  LayoutFacts.

Section Run.
Context {F : Type} `{PyFloat F} {External : Type}.
Variable co : Collaborators F External.
Implicit Types (st : State F External) (args : Args) (w : World External).

(** ** The monad *)

Lemma bind_Returns {A B} (m : M (State F External) A)
    (k : A -> M (State F External) B) st a st' :
  m st = (Returns a, st') -> bind m k st = k a st'.
Proof. intros E. unfold bind. now rewrite E. Qed.

Lemma bind_Raises {A B} (m : M (State F External) A)
    (k : A -> M (State F External) B) st ex st' :
  m st = (Raises ex, st') -> bind m k st = (Raises ex, st').
Proof. intros E. unfold bind. now rewrite E. Qed.

(** ** [load_json] *)

Lemma load_json_missing filename st :
  files (world st) !! filename = None ->
  unreadable (world st) !! filename = None ->
  load_json co filename st = (Raises (FileNotFoundError filename), st).
Proof.
  intros E U. unfold load_json, try_except, open_read, bind, get_world. simpl.
  rewrite E, U. reflexivity.
Qed.

Lemma load_json_unreadable filename st ex :
  files (world st) !! filename = None ->
  unreadable (world st) !! filename = Some ex ->
  load_json co filename st = (Raises (reraised co filename ex), st).
Proof.
  intros E U. unfold load_json, try_except, open_read, bind, get_world. simpl.
  rewrite E, U. destruct ex; reflexivity.
Qed.

Lemma load_json_overflow filename st content :
  files (world st) !! filename = Some content ->
  loads content = DepthExceeded ->
  load_json co filename st = (Raises RecursionError, st).
Proof.
  intros E L.
  unfold load_json, try_except, open_read, json_load, bind, get_world. simpl.
  rewrite E. simpl. rewrite L. reflexivity.
Qed.

Lemma load_json_invalid filename st content msg pos :
  files (world st) !! filename = Some content ->
  loads content = DecodeError msg pos ->
  load_json co filename st =
    (Raises (ValueError (lit "Invalid JSON in " ++ filename ++ lit ": "
                         ++ decode_error_str (isprintable co) msg content pos)
               (Some (JSONDecodeError msg content pos))), st).
Proof.
  intros E L.
  unfold load_json, try_except, open_read, json_load, bind, get_world. simpl.
  rewrite E. simpl. rewrite L. reflexivity.
Qed.

Lemma load_json_decoded filename st content info :
  files (world st) !! filename = Some content ->
  loads content = Decoded info ->
  load_json co filename st = (Returns info, st).
Proof.
  intros E L.
  unfold load_json, try_except, open_read, json_load, bind, get_world. simpl.
  rewrite E. simpl. rewrite L. reflexivity.
Qed.

Lemma load_info_missing args st :
  files (world st) !! args_info_path args = None ->
  unreadable (world st) !! args_info_path args = None ->
  load_info co args st
  = (Raises (LauncherError (lit "MissingInfoJSON") None
               (Some (FileNotFoundError (args_info_path args)))), st).
Proof.
  intros E U. unfold load_info, try_except.
  rewrite (load_json_missing _ _ E U). reflexivity.
Qed.

Lemma load_info_unreadable args st ex :
  files (world st) !! args_info_path args = None ->
  unreadable (world st) !! args_info_path args = Some ex ->
  load_info co args st
  = (Raises (info_error (reraised co (args_info_path args) ex)), st).
Proof.
  intros E U. unfold load_info, try_except.
  rewrite (load_json_unreadable _ _ _ E U). destruct ex; reflexivity.
Qed.

Lemma load_info_overflow args st content :
  files (world st) !! args_info_path args = Some content ->
  loads content = DepthExceeded ->
  load_info co args st = (Raises RecursionError, st).
Proof.
  intros E L. unfold load_info, try_except.
  rewrite (load_json_overflow _ _ _ E L). reflexivity.
Qed.

Lemma load_info_invalid args st content msg pos :
  files (world st) !! args_info_path args = Some content ->
  loads content = DecodeError msg pos ->
  load_info co args st =
    (Raises (ValueError (lit "Invalid JSON in " ++ args_info_path args ++ lit ": "
                         ++ decode_error_str (isprintable co) msg content pos)
               (Some (JSONDecodeError msg content pos))), st).
Proof.
  intros E L. unfold load_info, try_except.
  rewrite (load_json_invalid _ _ _ _ _ E L). reflexivity.
Qed.

Lemma load_info_decoded args st content info :
  files (world st) !! args_info_path args = Some content ->
  loads content = Decoded info ->
  load_info co args st = (Returns info, st).
Proof.
  intros E L. unfold load_info, try_except.
  rewrite (load_json_decoded _ _ _ _ E L). reflexivity.
Qed.

(** ** The first steps of [do_main] *)

Lemma after_logging_files args st :
  files (world (after_logging co args st)) = files (world st).
Proof. reflexivity. Qed.

Lemma after_logging_unreadable args st :
  unreadable (world (after_logging co args st)) = unreadable (world st).
Proof. reflexivity. Qed.

Lemma after_logging_calls args st :
  calls (after_logging co args st)
  = calls st ++ [Call_setup_logging (str_upper co (args_log_level args))].
Proof. reflexivity. Qed.

Lemma setup_logging_returns args st :
  call_setup_logging co (str_upper co (args_log_level args)) st
  = (Returns tt, after_logging co args st).
Proof. reflexivity. Qed.

Lemma call_get_launcher_at args st info r w1 :
  get_launcher co info (world (after_logging co args st)) = (r, w1) ->
  call_get_launcher co info (after_logging co args st)
  = (r, at_launcher co args st info w1).
Proof.
  intros E. unfold call_get_launcher, call. rewrite E.
  unfold at_launcher. rewrite after_logging_calls, <- app_assoc. reflexivity.
Qed.

Lemma branch_not_create args c :
  branch args = Some c -> c <> Create -> args_create args = false.
Proof. unfold branch. destruct (args_create args); congruence. Qed.

Lemma branch_pytest args :
  branch args = Some Pytest ->
  args_create args = false /\ args_wait args = false
  /\ args_describe args = false /\ args_pytest args = true.
Proof.
  unfold branch.
  destruct (args_create args), (args_wait args), (args_describe args),
    (args_pytest args), (args_delete args); intros; try discriminate; auto.
Qed.

Lemma branch_delete args :
  branch args = Some Delete ->
  args_create args = false /\ args_wait args = false
  /\ args_describe args = false /\ args_pytest args = false
  /\ args_delete args = true.
Proof.
  unfold branch.
  destruct (args_create args), (args_wait args), (args_describe args),
    (args_pytest args), (args_delete args); intros; try discriminate; auto.
Qed.

(** Run [do_main] up to the construction of the launcher. *)
Ltac reach_launcher Hc Hf Hl Hg :=
  unfold do_main;
  rewrite (bind_Returns _ _ _ _ _ (setup_logging_returns _ _));
  rewrite Hc;
  erewrite bind_Returns;
    [| eapply load_info_decoded;
       [rewrite after_logging_files; exact Hf | exact Hl]];
  erewrite bind_Returns; [| apply call_get_launcher_at; exact Hg].

(** ** The outcomes of [do_main] *)

Lemma do_main_missing_info args st :
  args_create args = false ->
  files (world st) !! args_info_path args = None ->
  unreadable (world st) !! args_info_path args = None ->
  do_main co args st
  = (Raises (LauncherError (lit "MissingInfoJSON") None
               (Some (FileNotFoundError (args_info_path args)))),
     after_logging co args st).
Proof.
  intros Hc Hf Hu. unfold do_main.
  rewrite (bind_Returns _ _ _ _ _ (setup_logging_returns args st)).
  rewrite Hc. apply bind_Raises. apply load_info_missing.
  - now rewrite after_logging_files.
  - now rewrite after_logging_unreadable.
Qed.

Lemma do_main_unreadable_info args st ex :
  args_create args = false ->
  files (world st) !! args_info_path args = None ->
  unreadable (world st) !! args_info_path args = Some ex ->
  do_main co args st
  = (Raises (info_error (reraised co (args_info_path args) ex)),
     after_logging co args st).
Proof.
  intros Hc Hf Hu. unfold do_main.
  rewrite (bind_Returns _ _ _ _ _ (setup_logging_returns args st)).
  rewrite Hc. apply bind_Raises. apply load_info_unreadable.
  - now rewrite after_logging_files.
  - now rewrite after_logging_unreadable.
Qed.

Lemma do_main_overflow args st content :
  args_create args = false ->
  files (world st) !! args_info_path args = Some content ->
  loads content = DepthExceeded ->
  do_main co args st = (Raises RecursionError, after_logging co args st).
Proof.
  intros Hc Hf Hl. unfold do_main.
  rewrite (bind_Returns _ _ _ _ _ (setup_logging_returns args st)).
  rewrite Hc. apply bind_Raises.
  apply load_info_overflow with content; [|exact Hl].
  now rewrite after_logging_files.
Qed.

Lemma do_main_invalid_json args st content msg pos :
  args_create args = false ->
  files (world st) !! args_info_path args = Some content ->
  loads content = DecodeError msg pos ->
  do_main co args st
  = (Raises (ValueError (lit "Invalid JSON in " ++ args_info_path args
                         ++ lit ": "
                         ++ decode_error_str (isprintable co) msg content pos)
               (Some (JSONDecodeError msg content pos))),
     after_logging co args st).
Proof.
  intros Hc Hf Hl. unfold do_main.
  rewrite (bind_Returns _ _ _ _ _ (setup_logging_returns args st)).
  rewrite Hc. apply bind_Raises.
  apply load_info_invalid; [|exact Hl]. now rewrite after_logging_files.
Qed.

(** A command other than [create] whose info file does not load
    raises, having called nothing but the logging setup. *)
Lemma do_main_no_info args st :
  args_create args = false ->
  match files (world st) !! args_info_path args with
  | None => True
  | Some content => forall info, loads content <> Decoded info
  end ->
  exists ex, do_main co args st = (Raises ex, after_logging co args st).
Proof.
  intros Hc Hbad.
  destruct (files (world st) !! args_info_path args) as [content|] eqn:Hf.
  - destruct (loads content) as [info|msg pos|] eqn:Hl.
    + now destruct (Hbad info).
    + rewrite (do_main_invalid_json _ _ _ _ _ Hc Hf Hl). eauto.
    + rewrite (do_main_overflow _ _ _ Hc Hf Hl). eauto.
  - destruct (unreadable (world st) !! args_info_path args) as [ex|] eqn:Hu.
    + rewrite (do_main_unreadable_info _ _ _ Hc Hf Hu). eauto.
    + rewrite (do_main_missing_info _ _ Hc Hf Hu). eauto.
Qed.

Lemma do_main_launcher_raises args st content info ex w1 :
  args_create args = false ->
  files (world st) !! args_info_path args = Some content ->
  loads content = Decoded info ->
  get_launcher co info (world (after_logging co args st)) = (Raises ex, w1) ->
  do_main co args st = (Raises ex, at_launcher co args st info w1).
Proof.
  intros Hc Hf Hl Hg. unfold do_main.
  rewrite (bind_Returns _ _ _ _ _ (setup_logging_returns _ _)).
  rewrite Hc.
  erewrite bind_Returns;
    [| eapply load_info_decoded;
       [rewrite after_logging_files; exact Hf | exact Hl]].
  apply bind_Raises. apply call_get_launcher_at. exact Hg.
Qed.

Lemma call_get_validated_config_at args st :
  call_get_validated_config co (args_config_path args) (after_logging co args st)
  = (get_validated_config co (args_config_path args)
       (world (after_logging co args st)),
     and_then (after_logging co args st)
       (Call_get_validated_config (args_config_path args))
       (world (after_logging co args st))).
Proof. reflexivity. Qed.

Lemma do_main_invalid_config args st ex :
  args_create args = true ->
  get_validated_config co (args_config_path args)
    (world (after_logging co args st)) = Raises ex ->
  do_main co args st
  = (Raises ex,
     and_then (after_logging co args st)
       (Call_get_validated_config (args_config_path args))
       (world (after_logging co args st))).
Proof.
  intros Hc Hv. unfold do_main.
  rewrite (bind_Returns _ _ _ _ _ (setup_logging_returns args st)).
  rewrite Hc. apply bind_Raises.
  rewrite call_get_validated_config_at. now rewrite Hv.
Qed.

Lemma do_main_input_conflict args st config :
  args_create args = true ->
  is_Some (files (world st) !! args_info_path args) ->
  get_validated_config co (args_config_path args)
    (world (after_logging co args st)) = Returns config ->
  do_main co args st
  = (Raises (LauncherError (lit "InputConflict")
               (Some (input_conflict_msg (args_info_path args))) None),
     and_then (after_logging co args st)
       (Call_get_validated_config (args_config_path args))
       (world (after_logging co args st))).
Proof.
  intros Hc Hf Hv. unfold do_main.
  rewrite (bind_Returns _ _ _ _ _ (setup_logging_returns args st)).
  rewrite Hc.
  erewrite bind_Returns;
    [|rewrite call_get_validated_config_at, Hv; reflexivity].
  unfold bind at 1, os_path_exists, bind at 1, get_world, ret. simpl.
  rewrite bool_decide_true by exact Hf. reflexivity.
Qed.

Lemma do_main_option_error args st env content info l w1 :
  branch args = Some Pytest ->
  args_env args = Some env ->
  str_contains 61 env = true ->
  files (world st) !! args_info_path args = Some content ->
  loads content = Decoded info ->
  get_launcher co info (world (after_logging co args st)) = (Returns l, w1) ->
  do_main co args st
  = (Raises (LauncherError (lit "OptionError") (Some option_error_msg) None),
     at_launcher co args st info w1).
Proof.
  intros Hb He Heq Hf Hl Hg.
  destruct (branch_pytest _ Hb) as (Hc & Hw & Hd & Hp).
  reach_launcher Hc Hf Hl Hg.
  rewrite Hw, Hd, Hp, He, Heq. reflexivity.
Qed.

Lemma elem_of_missing_from (env : gmap str str) (var_list : list str) v :
  v ∈ missing_from env var_list <-> v ∈ var_list /\ env !! v = None.
Proof.
  unfold missing_from. rewrite !list_elem_of_In, filter_In.
  rewrite negb_true_iff, bool_decide_eq_false, <- eq_None_not_Some.
  reflexivity.
Qed.

Lemma missing_from_nil (env : gmap str str) (var_list : list str) :
  missing_from env var_list = [] <->
  forall v, v ∈ var_list -> is_Some (env !! v).
Proof.
  split.
  - intros E v Hv. destruct (env !! v) eqn:Ev; [eauto|].
    assert (Hin : v ∈ missing_from env var_list)
      by (apply elem_of_missing_from; auto).
    rewrite E in Hin. inversion Hin.
  - intros Hall. destruct (missing_from env var_list) as [|v rest] eqn:E; [done|].
    assert (Hin : v ∈ missing_from env var_list) by (rewrite E; left).
    apply elem_of_missing_from in Hin as [Hin Hnone].
    destruct (Hall v Hin) as [x Hx]. congruence.
Qed.

Lemma do_main_missing_input args st env content info l w1 :
  branch args = Some Pytest ->
  args_env args = Some env ->
  str_contains 61 env = false ->
  files (world st) !! args_info_path args = Some content ->
  loads content = Decoded info ->
  get_launcher co info (world (after_logging co args st)) = (Returns l, w1) ->
  (exists v, v ∈ str_split 44 env /\ environ w1 !! v = None) ->
  do_main co args st
  = (Raises (LauncherError (lit "MissingInput")
               (Some (missing_input_msg co
                        (missing_from (environ w1) (str_split 44 env)))) None),
     at_launcher co args st info w1).
Proof.
  intros Hb He Heq Hf Hl Hg (v & Hv & Hnone).
  destruct (branch_pytest _ Hb) as (Hc & Hw & Hd & Hp).
  reach_launcher Hc Hf Hl Hg.
  rewrite Hw, Hd, Hp, He, Heq.
  unfold bind at 1, bind at 1, get_world. simpl.
  destruct (missing_from (environ w1) (str_split 44 env)) as [|m rest] eqn:Em;
    [|reflexivity].
  exfalso.
  assert (Hin : v ∈ missing_from (environ w1) (str_split 44 env))
    by (apply elem_of_missing_from; auto).
  rewrite Em in Hin. inversion Hin.
Qed.

Lemma no_test_call_at_launcher args st info w1 :
  existsb is_test_call (calls (at_launcher co args st info w1))
  = existsb is_test_call (calls st).
Proof. simpl. rewrite existsb_app. simpl. now rewrite orb_false_r. Qed.

(** The dict comprehension over names that are all set. *)
Lemma env_dict_from_present (env : gmap str str) (var_list : list str) :
  forall acc,
    (forall v, v ∈ var_list -> is_Some (env !! v)) ->
    exists d,
      env_dict_from env var_list acc = Returns d
      /\ forall k, d !! k = if decide (k ∈ var_list) then env !! k else acc !! k.
Proof.
  induction var_list as [|e var_list IH]; intros acc Hall; simpl.
  - exists acc. split; [done|]. intros k.
    destruct (decide (k ∈ [])) as [Hin|]; [inversion Hin|done].
  - destruct (Hall e) as [value Hvalue]; [left|]. rewrite Hvalue.
    destruct (IH (<[e:=value]> acc)) as (d & Hd & Hlookup).
    { intros v Hv. apply Hall. now right. }
    exists d. split; [exact Hd|]. intros k. rewrite Hlookup.
    destruct (decide (k ∈ var_list)) as [Hin|Hnin].
    + rewrite decide_True by now right. done.
    + destruct (decide (k = e)) as [->|Hne].
      * rewrite decide_True by left. now rewrite lookup_insert_eq.
      * rewrite decide_False.
        -- now rewrite lookup_insert_ne.
        -- intros Hk. inversion Hk; subst; done.
Qed.

Lemma do_main_test args st content info l w1 :
  branch args = Some Pytest ->
  files (world st) !! args_info_path args = Some content ->
  loads content = Decoded info ->
  get_launcher co info (world (after_logging co args st)) = (Returns l, w1) ->
  match args_env args with
  | None => True
  | Some env =>
      str_contains 61 env = false
      /\ forall v, v ∈ str_split 44 env -> is_Some (environ w1 !! v)
  end ->
  exists env_dict,
    (forall k v, env_dict !! k = Some v
                 <-> k ∈ allowlist args /\ environ w1 !! k = Some v)
    /\ (args_env args = None -> env_dict = ∅)
    /\ do_main co args st
       = (match fst (test l (args_pytest_extras args) env_dict w1) with
          | Returns code => Returns (Some code)
          | Raises ex => Raises ex
          end,
          and_then (at_launcher co args st info w1)
            (Call_test (args_pytest_extras args) env_dict)
            (snd (test l (args_pytest_extras args) env_dict w1))).
Proof.
  intros Hb Hf Hl Hg Henv.
  destruct (branch_pytest _ Hb) as (Hc & Hw & Hd & Hp).
  assert (Hall : forall v, v ∈ allowlist args -> is_Some (environ w1 !! v)).
  { unfold allowlist. destruct (args_env args); [apply Henv|].
    intros v Hv. inversion Hv. }
  destruct (env_dict_from_present (environ w1) (allowlist args) ∅ Hall)
    as (d & Hd' & Hlookup).
  exists d. split; [|split].
  - intros k v. rewrite Hlookup.
    destruct (decide (k ∈ allowlist args)) as [Hin|Hnin].
    + tauto.
    + rewrite lookup_empty. split; [done|tauto].
  - intros Hnone. unfold allowlist in Hd'. rewrite Hnone in Hd'.
    simpl in Hd'. congruence.
  - reach_launcher Hc Hf Hl Hg.
    rewrite Hw, Hd, Hp.
    assert (Hvars :
      (match args_env args with
       | Some env =>
           if str_contains 61 env
           then raise (LauncherError (lit "OptionError") (Some option_error_msg) None)
           else
             bind get_world (fun w =>
               if (0 <? length (missing_from (environ w) (str_split 44 env)))%nat
               then raise (LauncherError (lit "MissingInput")
                             (Some (missing_input_msg co
                                      (missing_from (environ w) (str_split 44 env))))
                             None)
               else ret (str_split 44 env))
       | None => ret []
       end) (at_launcher co args st info w1)
      = (Returns (allowlist args), at_launcher co args st info w1)).
    { unfold allowlist in *. destruct (args_env args) as [env|]; [|reflexivity].
      destruct Henv as [Heq Hpres]. rewrite Heq.
      unfold bind, get_world. simpl.
      apply missing_from_nil in Hpres. rewrite Hpres. reflexivity. }
    rewrite (bind_Returns _ _ _ _ _ Hvars).
    unfold bind at 1, get_world. simpl. rewrite Hd'.
    unfold bind, call, ret, and_then. simpl.
    destruct (test l (args_pytest_extras args) d w1) as [[code|ex] w2];
      reflexivity.
Qed.

Lemma do_main_delete args st content info l w1 :
  branch args = Some Delete ->
  files (world st) !! args_info_path args = Some content ->
  loads content = Decoded info ->
  get_launcher co info (world (after_logging co args st)) = (Returns l, w1) ->
  do_main co args st
  = (match fst (delete l w1) with
     | Returns _ => Returns (Some 0%Z)
     | Raises ex => Raises ex
     end,
     and_then (at_launcher co args st info w1) Call_delete (snd (delete l w1))).
Proof.
  intros Hb Hf Hl Hg.
  destruct (branch_delete _ Hb) as (Hc & Hw & Hd & Hp & Hx).
  reach_launcher Hc Hf Hl Hg.
  rewrite Hw, Hd, Hp, Hx.
  unfold bind, call, ret, and_then. simpl.
  destruct (delete l w1) as [[[]|ex] w2]; reflexivity.
Qed.

(** ** No command but [create] writes a file *)

Lemma keeps_files_ret {A} (a : A) :
  keeps_files (F := F) (External := External) (ret a).
Proof. intros st. reflexivity. Qed.

Lemma keeps_files_raise {A} ex :
  keeps_files (F := F) (External := External) (A := A) (raise ex).
Proof. intros st. reflexivity. Qed.

Lemma keeps_files_bind {A B} (m : M (State F External) A)
    (k : A -> M (State F External) B) :
  keeps_files m ->
  (forall st a st', m st = (Returns a, st') -> keeps_files (k a)) ->
  keeps_files (bind m k).
Proof.
  intros Hm Hk st. unfold bind. specialize (Hm st).
  destruct (m st) as [[a|ex] st'] eqn:E; simpl in *.
  - rewrite (Hk _ _ _ E st'). exact Hm.
  - exact Hm.
Qed.

Lemma keeps_files_try_except {A} (body : M (State F External) A) handler :
  keeps_files body ->
  (forall ex h, handler ex = Some h -> keeps_files h) ->
  keeps_files (try_except body handler).
Proof.
  intros Hb Hh st. unfold try_except. specialize (Hb st).
  destruct (body st) as [[a|ex] st'] eqn:E; simpl in *; [exact Hb|].
  destruct (handler ex) as [h|] eqn:Eh; simpl; [|exact Hb].
  rewrite (Hh _ _ Eh st'). exact Hb.
Qed.

Lemma keeps_files_call {A} ev (f : World External -> Outcome A * World External) :
  (forall w, files (snd (f w)) = files w) -> keeps_files (call (F := F) ev f).
Proof.
  intros Hf st. unfold call. specialize (Hf (world st)).
  destruct (f (world st)) as [r w]. exact Hf.
Qed.

Lemma keeps_files_print line : keeps_files (print (F := F) (External := External) line).
Proof. intros st. reflexivity. Qed.

Lemma keeps_files_get_world : keeps_files (get_world (F := F) (External := External)).
Proof. intros st. reflexivity. Qed.

Lemma keeps_files_load_json filename : keeps_files (load_json co filename).
Proof.
  unfold load_json. apply keeps_files_try_except.
  - apply keeps_files_bind.
    + unfold open_read. apply keeps_files_bind; [apply keeps_files_get_world|].
      intros st w st' _. destruct (files w !! filename);
        [apply keeps_files_ret|].
      destruct (unreadable w !! filename); apply keeps_files_raise.
    + intros st content st' _. unfold json_load.
      destruct (loads content);
        [apply keeps_files_ret | apply keeps_files_raise | apply keeps_files_raise].
  - intros ex h Hh. destruct ex; inversion Hh; subst; apply keeps_files_raise.
Qed.

Lemma call_get_launcher_Returns info st l st' :
  call_get_launcher co info st = (Returns l, st') ->
  fst (get_launcher co info (world st)) = Returns l.
Proof.
  unfold call_get_launcher, call.
  destruct (get_launcher co info (world st)) as [r w]. now intros [= -> _].
Qed.

Lemma other_commands_keep_files args :
  args_create args = false ->
  factory_keeps_files co ->
  keeps_files (do_main co args).
Proof.
  intros Hc Hfac. unfold do_main.
  apply keeps_files_bind.
  { apply keeps_files_call. reflexivity. }
  intros _ _ _ _. rewrite Hc.
  apply keeps_files_bind.
  { apply keeps_files_try_except; [apply keeps_files_load_json|].
    intros ex h Hh. destruct ex; inversion Hh; subst; apply keeps_files_raise. }
  intros _ info _ _.
  apply keeps_files_bind.
  { apply keeps_files_call. intros w. apply Hfac. }
  intros st l st' Hl. apply call_get_launcher_Returns in Hl.
  destruct (Hfac info (world st)) as [_ Hkeeps].
  destruct (Hkeeps l Hl) as (Hcreate & Hwait & Hdescribe & Htest & Hdelete).
  destruct (args_wait args).
  { apply keeps_files_bind; [apply keeps_files_call, Hwait|]. intros.
    apply keeps_files_bind; [apply keeps_files_print|]. intros.
    apply keeps_files_ret. }
  destruct (args_describe args).
  { apply keeps_files_bind; [apply keeps_files_call, Hdescribe|]. intros.
    apply keeps_files_bind; [apply keeps_files_print|]. intros.
    apply keeps_files_ret. }
  destruct (args_pytest args).
  { apply keeps_files_bind.
    - destruct (args_env args) as [env|]; [|apply keeps_files_ret].
      destruct (str_contains 61 env); [apply keeps_files_raise|].
      apply keeps_files_bind; [apply keeps_files_get_world|]. intros ? w ? _.
      destruct (0 <? length (missing_from (environ w) (str_split 44 env)))%nat;
        [apply keeps_files_raise | apply keeps_files_ret].
    - intros ? var_list ? _.
      apply keeps_files_bind; [apply keeps_files_get_world|]. intros ? w ? _.
      destruct (env_dict_from (environ w) var_list ∅) as [env_dict|ex];
        [|apply keeps_files_raise].
      apply keeps_files_bind; [apply keeps_files_call, Htest|]. intros.
      apply keeps_files_ret. }
  destruct (args_delete args).
  { apply keeps_files_bind; [apply keeps_files_call, Hdelete|]. intros.
    apply keeps_files_ret. }
  apply keeps_files_ret.
Qed.


(** ** Writing and reading a file *)

Lemma write_json_at filename (data : json F) st :
  write_json filename data st
  = (Returns tt,
     {| world := {| files := <[filename := dumps data]> (files (world st));
                    unreadable := unreadable (world st);
                    environ := environ (world st);
                    stdout := stdout (world st);
                    external := external (world st) |};
        calls := calls st |}).
Proof. reflexivity. Qed.

(* ===================================================================== *)
(** * The properties of the command line                                  *)
(* ===================================================================== *)

(** C1, as amended.  When the info file exists and its content is not
    valid JSON, each of the commands wait, describe, pytest and delete
    fails with a [ValueError], which is not a domain error: its message
    is "Invalid JSON in ", the path, ": " and the diagnostic of the
    parser, and its cause is the parse error.  [main] does not catch it:
    the exception leaves [main] and no exit code is produced. *)
Theorem C1_invalid_json_is_a_ValueError args st c content msg pos :
  branch args = Some c -> c <> Create ->
  files (world st) !! args_info_path args = Some content ->
  loads content = DecodeError msg pos ->
  let ex :=
    ValueError (lit "Invalid JSON in " ++ args_info_path args ++ lit ": "
                ++ decode_error_str (isprintable co) msg content pos)
      (Some (JSONDecodeError msg content pos)) in
  do_main co args st = (Raises ex, after_logging co args st)
  /\ forall argv,
       docopt co argv (external (world st)) = Returns args ->
       main co argv st = (Raises ex, after_logging co args st).
Proof.
  intros Hb Hne Hf Hl ex.
  pose proof (branch_not_create _ _ Hb Hne) as Hc.
  pose proof (do_main_invalid_json _ _ _ _ _ Hc Hf Hl) as E.
  split; [exact E|].
  intros argv Hd. unfold main, bind at 1, get_world. simpl.
  rewrite Hd. unfold try_except. rewrite E. reflexivity.
Qed.



(** C4, as amended.  For a cluster info value made of null, booleans,
    integers, floats that the decoder reads back as the same float,
    strings that hold no surrogate code point, lists, and dicts whose
    keys are such strings, each once, with no integer and no nesting
    beyond the limits of the interpreter: when [write_json] has written
    the value, [load_json] on the same path returns the value with the
    pairs of every dict in key order, which is equal to the value
    written. *)
Theorem C4_write_then_load filename (data : json F) st :
  supported_with_floats data = true ->
  within_limits data = true ->
  fst (write_json filename data st) = Returns tt ->
  bind (write_json filename data) (fun _ => load_json co filename) st
  = (Returns (sort_keys data), snd (write_json filename data st))
  /\ files (world (snd (write_json filename data st))) !! filename
     = Some (dumps data)
  /\ same_value (sort_keys data) data = true.
Proof.
  intros Hs _ _.
  assert (Hfile : files (world (snd (write_json filename data st))) !! filename
                  = Some (dumps data)).
  { rewrite write_json_at. simpl. apply lookup_insert_eq. }
  split; [|split].
  - erewrite bind_Returns; [|apply write_json_at].
    rewrite write_json_at in Hfile |- *. simpl snd in *.
    apply (load_json_decoded _ _ _ _ Hfile). now apply loads_dumps_floats.
  - exact Hfile.
  - now apply same_value_sort_keys_floats.
Qed.

(** C5.  Two representations of the same logical value, such as two
    dicts with the same pairs inserted in different orders, are written
    by [write_json] as the same text, and this text is the canonical
    one: it is the text of an equal value whose dicts have their keys in
    increasing order, laid out with an indent of two spaces for each
    level, one element on a line, a colon and nothing else between a key
    and its value, a comma and nothing else at the end of a line.  The
    values are those that the encoder writes within the limits of the
    interpreter. *)
Theorem C5_canonical_serialization (a b : json F) filename st :
  same_value a b = true ->
  distinct_keys a = true -> distinct_keys b = true ->
  within_limits a = true ->
  write_json filename a st = write_json filename b st
  /\ (fst (write_json filename a st) = Returns tt ->
      files (world (snd (write_json filename a st))) !! filename
      = Some (canonical_text (sort_keys a)))
  /\ json_prettyprint a = canonical_text (sort_keys a)
  /\ json_prettyprint b = canonical_text (sort_keys a)
  /\ keys_ascending (sort_keys a) = true
  /\ same_value (sort_keys a) a = true.
Proof.
  intros Hsame Ha Hb _.
  assert (E : dumps a = dumps b) by now apply same_value_same_encoding.
  split. { rewrite !write_json_at. now rewrite E. }
  split.
  { intros _. rewrite write_json_at. simpl. rewrite dumps_canonical.
    apply lookup_insert_eq. }
  split. { apply dumps_canonical. }
  split. { unfold json_prettyprint. rewrite <- E. apply dumps_canonical. }
  split. { now apply sort_keys_ascending. }
  now apply (same_value_sort_keys_self a b).
Qed.

(** C6, as amended.  For a pytest command whose info file loads and
    whose launcher is built, an --env value that contains '=' makes the
    command fail with the domain error OptionError.  The environment is
    not consulted: the outcome is the same whatever it holds, and it is
    never a MissingInput error. *)
Theorem C6_env_assignment_is_an_OptionError args st env content info l w1 :
  branch args = Some Pytest ->
  args_env args = Some env ->
  str_contains 61 env = true ->
  files (world st) !! args_info_path args = Some content ->
  loads content = Decoded info ->
  get_launcher co info (world (after_logging co args st)) = (Returns l, w1) ->
  do_main co args st
  = (Raises (LauncherError (lit "OptionError") (Some option_error_msg) None),
     at_launcher co args st info w1)
  /\ (forall msg cause,
        fst (do_main co args st)
        <> Raises (LauncherError (lit "MissingInput") msg cause))
  /\ existsb is_test_call (calls (snd (do_main co args st)))
     = existsb is_test_call (calls st).
Proof.
  intros Hb He Heq Hf Hl Hg.
  pose proof (do_main_option_error _ _ _ _ _ _ _ Hb He Heq Hf Hl Hg) as E.
  split; [exact E|]. rewrite E. split.
  - intros msg cause Hk. simpl in Hk. discriminate Hk.
  - apply no_test_call_at_launcher.
Qed.

(** C7, as amended.  For a pytest command whose info file loads and
    whose launcher is built, an --env allowlist that holds no '=' and
    names at least one variable absent from the environment makes the
    command fail with the domain error MissingInput; the message lists
    the absent names, all of them and no others, and the launcher's test
    operation is not called. *)
Theorem C7_absent_variables_are_MissingInput args st env content info l w1 :
  branch args = Some Pytest ->
  args_env args = Some env ->
  str_contains 61 env = false ->
  files (world st) !! args_info_path args = Some content ->
  loads content = Decoded info ->
  get_launcher co info (world (after_logging co args st)) = (Returns l, w1) ->
  (exists v, v ∈ str_split 44 env /\ environ w1 !! v = None) ->
  let missing := missing_from (environ w1) (str_split 44 env) in
  do_main co args st
  = (Raises (LauncherError (lit "MissingInput")
               (Some (lit "Environment variable arguments have been indicated but not set: "
                      ++ list_repr (isprintable co) missing)) None),
     at_launcher co args st info w1)
  /\ (forall v, v ∈ missing <-> v ∈ str_split 44 env /\ environ w1 !! v = None)
  /\ existsb is_test_call (calls (snd (do_main co args st)))
     = existsb is_test_call (calls st).
Proof.
  intros Hb He Heq Hf Hl Hg Habs missing.
  pose proof (do_main_missing_input _ _ _ _ _ _ _ Hb He Heq Hf Hl Hg Habs) as E.
  split; [exact E|]. split.
  - intros v'. apply elem_of_missing_from.
  - rewrite E. apply no_test_call_at_launcher.
Qed.

(** C8.  In every pytest invocation that succeeds, the info file was
    loaded, the launcher built and its test operation called once, last,
    with an environment map that holds exactly the allowlisted names,
    each bound to its value in the process environment, and no other
    variable.  The allowlisted names are the parts of the --env value
    between its commas: there is at least one, joined by commas they
    give the value, none of them holds a comma or an '=', and each is
    set in the environment.  When --env is omitted there is no name and
    the map is empty. *)
Theorem C8_test_receives_the_allowlist args st code :
  branch args = Some Pytest ->
  fst (do_main co args st) = Returns code ->
  exists content info l names env_dict,
    files (world st) !! args_info_path args = Some content
    /\ loads content = Decoded info
    /\ fst (get_launcher co info (world (after_logging co args st))) = Returns l
    /\ let w1 := snd (get_launcher co info (world (after_logging co args st))) in
       (match args_env args with
        | None => names = []
        | Some env =>
            names <> [] /\ str_join (lit ",") names = env
            /\ Forall (fun name => (44%N ∉ name) /\ (61%N ∉ name)) names
        end)
       /\ (forall k, k ∈ names -> is_Some (environ w1 !! k))
       /\ (forall k v, env_dict !! k = Some v
                       <-> k ∈ names /\ environ w1 !! k = Some v)
       /\ (args_env args = None -> env_dict = ∅)
       /\ calls (snd (do_main co args st))
          = calls st
            ++ [Call_setup_logging (str_upper co (args_log_level args));
                Call_get_launcher info;
                Call_test (args_pytest_extras args) env_dict]
       /\ exists c, code = Some c
                    /\ fst (test l (args_pytest_extras args) env_dict w1)
                       = Returns c.
Proof.
  intros Hb Hok.
  destruct (branch_pytest _ Hb) as (Hc & _).
  destruct (files (world st) !! args_info_path args) as [content|] eqn:Hf.
  2:{ destruct (do_main_no_info args st Hc) as [ex E]; [now rewrite Hf|].
      rewrite E in Hok. discriminate. }
  destruct (loads content) as [info|msg pos|] eqn:Hl.
  2:{ rewrite (do_main_invalid_json _ _ _ _ _ Hc Hf Hl) in Hok. discriminate. }
  2:{ rewrite (do_main_overflow _ _ _ Hc Hf Hl) in Hok. discriminate. }
  destruct (get_launcher co info (world (after_logging co args st)))
    as [[l|ex] w1] eqn:Hg.
  2:{ rewrite (do_main_launcher_raises _ _ _ _ _ _ Hc Hf Hl Hg) in Hok.
      discriminate. }
  assert (Henv : match args_env args with
                 | None => True
                 | Some env =>
                     str_contains 61 env = false
                     /\ forall v, v ∈ str_split 44 env -> is_Some (environ w1 !! v)
                 end).
  { destruct (args_env args) as [env|] eqn:He; [|done].
    destruct (str_contains 61 env) eqn:Heq.
    { rewrite (do_main_option_error _ _ _ _ _ _ _ Hb He Heq Hf Hl Hg) in Hok.
      discriminate. }
    split; [done|]. apply missing_from_nil.
    destruct (missing_from (environ w1) (str_split 44 env)) as [|v rest] eqn:Em;
      [done|].
    assert (Hin : v ∈ missing_from (environ w1) (str_split 44 env))
      by (rewrite Em; left).
    apply elem_of_missing_from in Hin.
    rewrite (do_main_missing_input _ _ _ _ _ _ _ Hb He Heq Hf Hl Hg) in Hok;
      [discriminate|eauto]. }
  destruct (do_main_test _ _ _ _ _ _ Hb Hf Hl Hg Henv)
    as (env_dict & Hmap & Hempty & E).
  exists content, info, l, (allowlist args), env_dict. rewrite Hg.
  split; [reflexivity|]. split; [exact Hl|]. split; [reflexivity|].
  cbn [snd]. split.
  { unfold allowlist. destruct (args_env args) as [env|]; [|reflexivity].
    destruct Henv as [Heq _].
    split; [apply str_split_nonempty|]. split; [apply str_join_split|].
    apply Forall_forall. intros name Hname. split.
    - apply str_contains_not_elem_of.
      pose proof (str_split_no_sep 44 env) as Hall.
      rewrite Forall_forall in Hall. now apply Hall.
    - intros H61. apply str_contains_not_elem_of in Heq. apply Heq.
      now apply (str_split_within 44 env name). }
  split.
  { unfold allowlist. destruct (args_env args) as [env|]; [apply Henv|].
    intros k Hk. inversion Hk. }
  split; [exact Hmap|]. split; [exact Hempty|].
  rewrite E in Hok |- *. simpl in Hok |- *. split.
  - rewrite <- app_assoc. reflexivity.
  - destruct (fst (test l (args_pytest_extras args) env_dict w1)) as [c0|ex];
      [|discriminate].
    injection Hok as <-. eauto.
Qed.

(** C9.  When the info file exists and loads, a delete command that
    succeeds returns exit code 0, and this layer has written nothing:
    the world it ends in is the one the launcher's delete operation
    left.  So the info file still holds its content, as long as the
    construction of the launcher and the delete operation themselves
    leave that file alone. *)
Theorem C9_delete_leaves_the_info_file args st content info code :
  branch args = Some Delete ->
  files (world st) !! args_info_path args = Some content ->
  loads content = Decoded info ->
  fst (do_main co args st) = Returns code ->
  code = Some 0%Z
  /\ exists l,
       fst (get_launcher co info (world (after_logging co args st))) = Returns l
       /\ let w1 := snd (get_launcher co info (world (after_logging co args st))) in
          fst (delete l w1) = Returns tt
          /\ world (snd (do_main co args st)) = snd (delete l w1)
          /\ (files w1 !! args_info_path args
              = files (world st) !! args_info_path args ->
              files (snd (delete l w1)) !! args_info_path args
              = files w1 !! args_info_path args ->
              files (world (snd (do_main co args st))) !! args_info_path args
              = Some content).
Proof.
  intros Hb Hf Hl Hok.
  destruct (branch_delete _ Hb) as (Hc & _).
  destruct (get_launcher co info (world (after_logging co args st)))
    as [[l|ex] w1] eqn:Hg.
  2:{ rewrite (do_main_launcher_raises _ _ _ _ _ _ Hc Hf Hl Hg) in Hok.
      discriminate. }
  rewrite (do_main_delete _ _ _ _ _ _ Hb Hf Hl Hg) in Hok |- *.
  simpl in Hok |- *.
  destruct (delete l w1) as [[[]|ex] w2] eqn:Hdel; simpl in *; [|discriminate].
  injection Hok as <-. split; [reflexivity|].
  exists l. split; [reflexivity|]. cbn [snd]. rewrite Hdel.
  split; [reflexivity|]. split; [reflexivity|]. cbn [snd]. congruence.
Qed.

(** C10, as amended.  For a pytest command whose info file loads and
    whose launcher is built, an --env value that is the empty string is
    split into one name, the empty string; when the environment has no
    variable of that name, the command fails with the domain error
    MissingInput, whose message lists the empty string, and the
    launcher's test operation is not called. *)
Theorem C10_empty_env_names_the_empty_variable args st content info l w1 :
  branch args = Some Pytest ->
  args_env args = Some [] ->
  files (world st) !! args_info_path args = Some content ->
  loads content = Decoded info ->
  get_launcher co info (world (after_logging co args st)) = (Returns l, w1) ->
  environ w1 !! [] = None ->
  allowlist args = [[]]
  /\ do_main co args st
     = (Raises (LauncherError (lit "MissingInput")
                  (Some (lit "Environment variable arguments have been indicated but not set: ['']"))
                  None),
        at_launcher co args st info w1)
  /\ existsb is_test_call (calls (snd (do_main co args st)))
     = existsb is_test_call (calls st).
Proof.
  intros Hb He Hf Hl Hg Hnone.
  assert (E : do_main co args st
     = (Raises (LauncherError (lit "MissingInput")
                  (Some (lit "Environment variable arguments have been indicated but not set: ['']"))
                  None),
        at_launcher co args st info w1)).
  { rewrite (do_main_missing_input _ _ [] _ _ _ _ Hb He eq_refl Hf Hl Hg).
    - simpl. unfold missing_from. simpl. rewrite Hnone. reflexivity.
    - exists []. split; [left|exact Hnone]. }
  split; [|split].
  - unfold allowlist. now rewrite He.
  - exact E.
  - rewrite E. apply no_test_call_at_launcher.
Qed.

End Run.
End CliFacts.

(* ===================================================================== *)
(** * The properties, tried on the stub provider                          *)
(* ===================================================================== *)

Module Trials.
Import Py Json Cli Stub Terms Samples PyMore CliFacts.

(** Closes a goal by evaluating both sides. *)
Ltac run := vm_compute; reflexivity.

(** ** C1 *)

(** With an info file that is not JSON, wait raises a ValueError out of
    [main]. *)
Lemma C1_witness :
  branch (with_command Wait None) = Some Wait
  /\ Wait <> Create
  /\ files (world st_bad) !! args_info_path (with_command Wait None)
     = Some bad_text
  /\ loads (F := str) bad_text = DecodeError Expecting_value 0
  /\ do_main stub (with_command Wait None) st_bad
     = (Raises
          (ValueError
             (lit "Invalid JSON in cluster_info.json: Expecting value: line 1 column 1 (char 0)")
             (Some (JSONDecodeError Expecting_value bad_text 0))),
        after_logging stub (with_command Wait None) st_bad)
  /\ main stub (Some [lit "wait"]) st_bad
     = (Raises
          (ValueError
             (lit "Invalid JSON in cluster_info.json: Expecting value: line 1 column 1 (char 0)")
             (Some (JSONDecodeError Expecting_value bad_text 0))),
        after_logging stub (with_command Wait None) st_bad).
Proof.
  split; [reflexivity|]. split; [discriminate|]. split; [run|]. split; [run|].
  destruct (C1_invalid_json_is_a_ValueError stub (with_command Wait None)
              st_bad Wait bad_text Expecting_value 0)
    as [Hdo Hmain]; [reflexivity | discriminate | run | run |].
  split; [exact Hdo|]. apply Hmain. reflexivity.
Defined.

(** The claim as stated fails there: the error is not a domain error of
    kind InvalidJSON, and [main] does not return exit code 1. *)
Lemma C1_counterexample :
  files (world st_bad) !! args_info_path (with_command Wait None)
  = Some bad_text
  /\ loads (F := str) bad_text = DecodeError Expecting_value 0
  /\ ~ (exists msg cause st',
          do_main stub (with_command Wait None) st_bad
          = (Raises (LauncherError (lit "InvalidJSON") msg cause), st'))
  /\ ~ (exists st',
          main stub (Some [lit "wait"]) st_bad = (Returns (Some 1%Z), st')).
Proof.
  split; [run|]. split; [run|]. split.
  - intros (msg & cause & st' & E). vm_compute in E. discriminate E.
  - intros (st' & E). vm_compute in E. discriminate E.
Qed.

(** ** C2 *)



(** ** C3 *)



(** ** C4 *)

Lemma C4_witness :
  supported_with_floats sample_document = true
  /\ within_limits sample_document = true
  /\ fst (write_json info_path sample_document st_none) = Returns tt
  /\ (bind (write_json info_path sample_document)
        (fun _ => load_json stub info_path) st_none
      = (Returns (sort_keys sample_document),
         snd (write_json info_path sample_document st_none))
      /\ files (world (snd (write_json info_path sample_document st_none)))
         !! info_path = Some (dumps sample_document)
      /\ same_value (sort_keys sample_document) sample_document = true).
Proof.
  split; [run|]. split; [run|]. split; [reflexivity|].
  apply (C4_write_then_load stub info_path sample_document st_none);
    [run | run | reflexivity].
Defined.

(** The claim as stated fails on a string: two surrogate code points
    are written as two escapes, which the decoder reads as one
    character, so the value read back is another string. *)
Lemma C4_counterexample :
  bind (write_json info_path surrogate_pair_text)
    (fun _ => load_json stub info_path) st_none
  = (Returns (JStr [128512]%N),
     snd (write_json info_path surrogate_pair_text st_none))
  /\ files (world (snd (write_json info_path surrogate_pair_text st_none)))
     !! info_path = Some (dq "'\ud83d\ude00'")
  /\ same_value (F := str) (JStr [128512]%N) surrogate_pair_text = false.
Proof. split; [run|]. split; [run|]. reflexivity. Qed.

(** ** C5 *)

Lemma C5_witness :
  same_value sample_info sample_info_reordered = true
  /\ distinct_keys sample_info = true
  /\ distinct_keys sample_info_reordered = true
  /\ within_limits sample_info = true
  /\ write_json info_path sample_info st_none
     = write_json info_path sample_info_reordered st_none
  /\ files (world (snd (write_json info_path sample_info_reordered st_none)))
     !! info_path
     = Some (dq "{
  'name':'\u00e9\ud83d\ude00\n',
  'nodes':[
    3,
    -12,
    [],
    {}
  ],
  'owner':null,
  'provider':'stub',
  'ready':true,
  'ssh':{
    'port':22,
    'user':'core'
  }
}")
  /\ json_prettyprint sample_info
     = canonical_text
         (JDict [(lit "name", JStr [233; 128512; 10]%N);
                 (lit "nodes", JList [JInt 3; JInt (-12); JList []; JDict []]);
                 (lit "owner", JNone);
                 (lit "provider", JStr (lit "stub"));
                 (lit "ready", JBool true);
                 (lit "ssh", JDict [(lit "port", JInt 22);
                                    (lit "user", JStr (lit "core"))])]).
Proof.
  split; [run|]. split; [run|]. split; [run|]. split; [run|].
  destruct (C5_canonical_serialization sample_info sample_info_reordered
              info_path st_none) as (Hw & Hfile & Hp & _);
    [run | run | run | run |].
  split; [exact Hw|]. split.
  - rewrite <- Hw. rewrite (Hfile eq_refl). run.
  - rewrite Hp. reflexivity.
Defined.

(** The text written for a small document. *)
Example dumps_layout :
  dumps (F := str)
    (JDict [(lit "b", JList [JInt 1; JBool false]); (lit "a", JNone)])
  = dq "{
  'a':null,
  'b':[
    1,
    false
  ]
}".
Proof. run. Qed.

(** ** C6 *)

Lemma C6_witness :
  branch (with_command Pytest (Some (lit "A=1"))) = Some Pytest
  /\ args_env (with_command Pytest (Some (lit "A=1"))) = Some (lit "A=1")
  /\ str_contains 61 (lit "A=1") = true
  /\ files (world st_info)
       !! args_info_path (with_command Pytest (Some (lit "A=1")))
     = Some info_text
  /\ loads info_text = Decoded stub_info
  /\ get_launcher stub stub_info
       (world (after_logging stub (with_command Pytest (Some (lit "A=1"))) st_info))
     = (Returns stub_launcher, world st_info)
  /\ (do_main stub (with_command Pytest (Some (lit "A=1"))) st_info
      = (Raises (LauncherError (lit "OptionError") (Some option_error_msg) None),
         at_launcher stub (with_command Pytest (Some (lit "A=1"))) st_info
           stub_info (world st_info))
      /\ (forall msg cause,
            fst (do_main stub (with_command Pytest (Some (lit "A=1"))) st_info)
            <> Raises (LauncherError (lit "MissingInput") msg cause))
      /\ existsb is_test_call
           (calls (snd (do_main stub (with_command Pytest (Some (lit "A=1")))
                          st_info)))
         = existsb is_test_call (calls st_info)).
Proof.
  split; [reflexivity|]. split; [reflexivity|]. split; [reflexivity|].
  split; [run|]. split; [run|]. split; [reflexivity|].
  apply (C6_env_assignment_is_an_OptionError stub
           (with_command Pytest (Some (lit "A=1"))) st_info (lit "A=1")
           info_text stub_info stub_launcher (world st_info));
    [reflexivity | reflexivity | reflexivity | run | run | reflexivity].
Defined.

(** The claim as stated fails when there is no info file: the command
    fails with MissingInfoJSON, not with OptionError. *)
Lemma C6_counterexample :
  str_contains 61 (lit "A=1") = true
  /\ fst (do_main stub (with_command Pytest (Some (lit "A=1"))) st_none)
     = Raises (LauncherError (lit "MissingInfoJSON") None
                 (Some (FileNotFoundError (lit "cluster_info.json"))))
  /\ ~ (exists msg cause st',
          do_main stub (with_command Pytest (Some (lit "A=1"))) st_none
          = (Raises (LauncherError (lit "OptionError") msg cause), st')).
Proof.
  split; [reflexivity|]. split; [run|].
  intros (msg & cause & st' & E). vm_compute in E. discriminate E.
Qed.

(** ** C7 *)

Lemma C7_witness :
  branch (with_command Pytest (Some (lit "A,B"))) = Some Pytest
  /\ args_env (with_command Pytest (Some (lit "A,B"))) = Some (lit "A,B")
  /\ str_contains 61 (lit "A,B") = false
  /\ files (world st_info)
       !! args_info_path (with_command Pytest (Some (lit "A,B")))
     = Some info_text
  /\ loads info_text = Decoded stub_info
  /\ get_launcher stub stub_info
       (world (after_logging stub (with_command Pytest (Some (lit "A,B"))) st_info))
     = (Returns stub_launcher, world st_info)
  /\ (exists v, v ∈ str_split 44 (lit "A,B")
                /\ environ (world st_info) !! v = None)
  /\ do_main stub (with_command Pytest (Some (lit "A,B"))) st_info
     = (Raises (LauncherError (lit "MissingInput")
                  (Some (lit "Environment variable arguments have been indicated but not set: ['B']"))
                  None),
        at_launcher stub (with_command Pytest (Some (lit "A,B"))) st_info
          stub_info (world st_info))
  /\ existsb is_test_call
       (calls (snd (do_main stub (with_command Pytest (Some (lit "A,B")))
                      st_info)))
     = existsb is_test_call (calls st_info).
Proof.
  assert (Habsent : exists v, v ∈ str_split 44 (lit "A,B")
                              /\ environ (world st_info) !! v = None).
  { exists (lit "B"). split; [right; left|run]. }
  split; [reflexivity|]. split; [reflexivity|]. split; [reflexivity|].
  split; [run|]. split; [run|]. split; [reflexivity|]. split; [exact Habsent|].
  destruct (C7_absent_variables_are_MissingInput stub
              (with_command Pytest (Some (lit "A,B"))) st_info (lit "A,B")
              info_text stub_info stub_launcher (world st_info))
    as (Hdo & _ & Hcalls);
    [reflexivity | reflexivity | reflexivity | run | run | reflexivity
    | exact Habsent |].
  split; [|exact Hcalls].
  rewrite Hdo. f_equal.
Defined.

(** The claim as stated fails on an allowlist with an absent name and an
    '=' (OptionError comes first), and when there is no info file
    (MissingInfoJSON comes first). *)
Lemma C7_counterexample :
  (lit "B" ∈ str_split 44 (lit "A=1,B")
   /\ environ (world st_info) !! lit "B" = None
   /\ ~ (exists msg cause st',
           do_main stub (with_command Pytest (Some (lit "A=1,B"))) st_info
           = (Raises (LauncherError (lit "MissingInput") msg cause), st')))
  /\ (lit "B" ∈ str_split 44 (lit "A,B")
      /\ environ (world st_none) !! lit "B" = None
      /\ ~ (exists msg cause st',
              do_main stub (with_command Pytest (Some (lit "A,B"))) st_none
              = (Raises (LauncherError (lit "MissingInput") msg cause), st'))).
Proof.
  split.
  - split; [right; left|]. split; [run|].
    intros (msg & cause & st' & E). vm_compute in E. discriminate E.
  - split; [right; left|]. split; [run|].
    intros (msg & cause & st' & E). vm_compute in E. discriminate E.
Qed.

(** ** C8 *)

(** With A, B and C set, --env A,B passes A and B on and nothing
    else. *)
Lemma C8_witness :
  branch (with_command Pytest (Some (lit "A,B"))) = Some Pytest
  /\ fst (do_main stub (with_command Pytest (Some (lit "A,B"))) st_vars)
     = Returns (Some 0%Z)
  /\ environ (world st_vars) !! lit "C" = Some (lit "3")
  /\ exists names env_dict,
       names = [lit "A"; lit "B"]
       /\ env_dict = <[lit "A" := lit "1"]> (<[lit "B" := lit "2"]> ∅)
       /\ env_dict !! lit "C" = None
       /\ (forall k v, env_dict !! k = Some v
                       <-> k ∈ names /\ environ (world st_vars) !! k = Some v)
       /\ calls (snd (do_main stub (with_command Pytest (Some (lit "A,B")))
                        st_vars))
          = [Call_setup_logging (lit "INFO"); Call_get_launcher stub_info;
             Call_test [] env_dict].
Proof.
  split; [reflexivity|]. split; [run|]. split; [run|].
  destruct (C8_test_receives_the_allowlist stub
              (with_command Pytest (Some (lit "A,B"))) st_vars (Some 0%Z))
    as (content & info & l & names & env_dict
        & Hf & Hl & Hg & Hnames & _ & Hmap & _ & Hcalls & _);
    [reflexivity | run |].
  assert (Hc : content = info_text).
  { vm_compute in Hf. injection Hf as <-. reflexivity. }
  subst content.
  assert (Hi : info = stub_info).
  { vm_compute in Hl. injection Hl as <-. reflexivity. }
  subst info.
  cbn [args_env with_command] in Hnames.
  destruct Hnames as (Hne & Hjoin & Hall).
  assert (En : names = [lit "A"; lit "B"]).
  { rewrite <- (str_split_join 44 names Hne).
    - change [44%N] with (lit ","). rewrite Hjoin. reflexivity.
    - eapply Forall_impl; [exact Hall|]. now intros name [? _]. }
  assert (Ed : env_dict = <[lit "A" := lit "1"]> (<[lit "B" := lit "2"]> ∅)).
  { vm_compute in Hcalls. injection Hcalls as <-. run. }
  exists names, env_dict.
  split; [exact En|]. split; [exact Ed|].
  split; [rewrite Ed; run|]. split; [exact Hmap|exact Hcalls].
Defined.

(** ** C9 *)

Lemma C9_witness :
  branch (with_command Delete None) = Some Delete
  /\ files (world st_info) !! args_info_path (with_command Delete None)
     = Some info_text
  /\ loads info_text = Decoded stub_info
  /\ fst (do_main stub (with_command Delete None) st_info) = Returns (Some 0%Z)
  /\ files (world (snd (do_main stub (with_command Delete None) st_info)))
       !! args_info_path (with_command Delete None)
     = Some info_text.
Proof.
  split; [reflexivity|]. split; [run|]. split; [run|]. split; [run|].
  destruct (C9_delete_leaves_the_info_file stub (with_command Delete None)
              st_info info_text stub_info (Some 0%Z))
    as (_ & l & Hg & _ & _ & Hkept); [reflexivity | run | run | run |].
  apply Hkept.
  - reflexivity.
  - vm_compute in Hg. injection Hg as <-. reflexivity.
Defined.

(** ** C10 *)

Lemma C10_witness :
  branch (with_command Pytest (Some [])) = Some Pytest
  /\ args_env (with_command Pytest (Some [])) = Some []
  /\ files (world st_info) !! args_info_path (with_command Pytest (Some []))
     = Some info_text
  /\ loads info_text = Decoded stub_info
  /\ get_launcher stub stub_info
       (world (after_logging stub (with_command Pytest (Some [])) st_info))
     = (Returns stub_launcher, world st_info)
  /\ environ (world st_info) !! [] = None
  /\ (allowlist (with_command Pytest (Some [])) = [[]]
      /\ do_main stub (with_command Pytest (Some [])) st_info
         = (Raises (LauncherError (lit "MissingInput")
                      (Some (lit "Environment variable arguments have been indicated but not set: ['']"))
                      None),
            at_launcher stub (with_command Pytest (Some [])) st_info stub_info
              (world st_info))
      /\ existsb is_test_call
           (calls (snd (do_main stub (with_command Pytest (Some [])) st_info)))
         = existsb is_test_call (calls st_info)).
Proof.
  split; [reflexivity|]. split; [reflexivity|]. split; [run|]. split; [run|].
  split; [reflexivity|]. split; [run|].
  apply (C10_empty_env_names_the_empty_variable stub
           (with_command Pytest (Some [])) st_info info_text stub_info
           stub_launcher (world st_info));
    [reflexivity | reflexivity | run | run | reflexivity | run].
Defined.

(** The claim as stated fails when there is no info file: the command
    fails with MissingInfoJSON, not with MissingInput. *)
Lemma C10_counterexample :
  environ (world st_none) !! [] = None
  /\ fst (do_main stub (with_command Pytest (Some [])) st_none)
     = Raises (LauncherError (lit "MissingInfoJSON") None
                 (Some (FileNotFoundError (lit "cluster_info.json"))))
  /\ ~ (exists msg cause st',
          do_main stub (with_command Pytest (Some [])) st_none
          = (Raises (LauncherError (lit "MissingInput") msg cause), st')).
Proof.
  split; [run|]. split; [run|].
  intros (msg & cause & st' & E). vm_compute in E. discriminate E.
Qed.

End Trials.

(* ===================================================================== *)
(** * More properties of the command line                                 *)
(* ===================================================================== *)

Module CliMore.
Import Py Json Cli Terms PyFacts JsonFacts CliFacts PyMore JsonMore FloatFacts.

Section Run.
Context {F : Type} `{PyFloat F} {External : Type}.
Variable co : Collaborators F External.
Implicit Types (st : State F External) (args : Args) (w : World External).

Lemma branch_create args :
  branch args = Some Create -> args_create args = true.
Proof.
  unfold branch. destruct (args_create args); [done|].
  destruct (args_wait args), (args_describe args), (args_pytest args),
    (args_delete args); discriminate.
Qed.

Lemma branch_wait args :
  branch args = Some Wait ->
  args_create args = false /\ args_wait args = true.
Proof.
  unfold branch.
  destruct (args_create args), (args_wait args), (args_describe args),
    (args_pytest args), (args_delete args); intros; try discriminate; auto.
Qed.


Lemma branch_none args :
  branch args = None ->
  args_create args = false /\ args_wait args = false
  /\ args_describe args = false /\ args_pytest args = false
  /\ args_delete args = false.
Proof.
  unfold branch.
  destruct (args_create args), (args_wait args), (args_describe args),
    (args_pytest args), (args_delete args); intros; try discriminate; auto.
Qed.

(** Run [do_main] up to the construction of the launcher. *)
Ltac to_launcher Hc Hf Hl Hg :=
  unfold do_main;
  rewrite (bind_Returns _ _ _ _ _ (setup_logging_returns _ _ _));
  rewrite Hc;
  erewrite bind_Returns;
    [| eapply load_info_decoded;
       [rewrite after_logging_files; exact Hf | exact Hl]];
  erewrite bind_Returns; [| apply call_get_launcher_at; exact Hg].

(** X1.  The outcomes of [load_json], which never changes the state.
    When [open] finds nothing at the path, the [FileNotFoundError] goes
    through as it is.  When [open] fails otherwise, its exception goes
    through as it is too, unless it is a [ValueError], which is wrapped
    like the decoder's.  When the file is read and its text, within the
    decoder's limits, is a JSON document, the decoded value is returned;
    when the text is not one, a [ValueError] is raised whose message
    starts with "Invalid JSON in ", the path and ": ", and whose cause
    is the decoder's error on that text. *)
Theorem load_json_outcomes filename st :
  snd (load_json co filename st) = st
  /\ match files (world st) !! filename with
     | Some content =>
         within_decoder_limits content = true ->
         match loads content with
         | Decoded info => fst (load_json co filename st) = Returns info
         | _ =>
             exists text msg pos,
               fst (load_json co filename st)
               = Raises (ValueError
                           (lit "Invalid JSON in " ++ filename ++ lit ": "
                            ++ text)
                           (Some (JSONDecodeError msg content pos)))
         end
     | None =>
         match unreadable (world st) !! filename with
         | Some ex =>
             fst (load_json co filename st)
             = Raises (reraised co filename ex)
         | None =>
             fst (load_json co filename st)
             = Raises (FileNotFoundError filename)
         end
     end.
Proof.
  destruct (files (world st) !! filename) as [content|] eqn:Hf.
  - destruct (loads content) as [info|msg pos|] eqn:Hl.
    + now rewrite (load_json_decoded _ _ _ _ _ Hf Hl).
    + rewrite (load_json_invalid _ _ _ _ _ _ Hf Hl). split; [reflexivity|].
      intros _. now eexists _, msg, pos.
    + now apply loads_total in Hl.
  - destruct (unreadable (world st) !! filename) as [ex|] eqn:Hu.
    + now rewrite (load_json_unreadable _ _ _ _ Hf Hu).
    + now rewrite (load_json_missing _ _ _ Hf Hu).
Qed.

(** ** [create] *)

Lemma do_main_create args st config :
  args_create args = true ->
  files (world st) !! args_info_path args = None ->
  get_validated_config co (args_config_path args)
    (world (after_logging co args st)) = Returns config ->
  do_main co args st
  = bind (call_get_launcher co config)
      (fun launcher =>
         bind (call Call_create (create launcher))
           (fun data =>
              bind (write_json (args_info_path args) data)
                (fun _ => ret (Some 0%Z))))
      (at_config co args st).
Proof.
  intros Hc Hf Hv. unfold do_main.
  rewrite (bind_Returns _ _ _ _ _ (setup_logging_returns _ args st)).
  rewrite Hc.
  erewrite bind_Returns;
    [|rewrite call_get_validated_config_at, Hv; reflexivity].
  unfold bind at 1, os_path_exists, bind at 1, get_world, ret. simpl.
  rewrite bool_decide_false; [reflexivity|].
  rewrite Hf. now intros [x Hx].
Qed.

Lemma call_get_launcher_at_config args st config r w1 :
  get_launcher co config (world (after_logging co args st)) = (r, w1) ->
  call_get_launcher co config (at_config co args st)
  = (r, and_then (at_config co args st) (Call_get_launcher config) w1).
Proof.
  intros E. unfold call_get_launcher, call.
  change (world (at_config co args st)) with (world (after_logging co args st)).
  rewrite E. reflexivity.
Qed.



(** X4.  A create command that fails before it writes, because the
    configuration is refused, a file is at the info path, the factory
    raises or the launcher's [create] raises, ends with an exception and
    with every file as it was, as long as the factory and the launcher
    do not write files themselves: the info file is written after all
    of these. *)
Theorem failed_create_writes_nothing args st :
  branch args = Some Create ->
  factory_keeps_files co ->
  fails_before_writing co args st ->
  (exists ex, fst (do_main co args st) = Raises ex)
  /\ files (world (snd (do_main co args st))) = files (world st).
Proof.
  intros Hb Hfac Hfail. apply branch_create in Hb.
  unfold fails_before_writing in Hfail.
  destruct (get_validated_config co (args_config_path args)
              (world (after_logging co args st))) as [config|ex'] eqn:Hv.
  2:{ rewrite (do_main_invalid_config _ _ _ _ Hb Hv). simpl. eauto. }
  destruct (files (world st) !! args_info_path args) as [content|] eqn:Hf.
  { rewrite (do_main_input_conflict _ _ _ config Hb); simpl; eauto. }
  destruct Hfail as [[x Hx]|Hfail]; [discriminate|].
  rewrite (do_main_create _ _ _ Hb Hf Hv).
  destruct (Hfac config (world (after_logging co args st))) as [Hkeep Hl].
  destruct (get_launcher co config (world (after_logging co args st)))
    as [[l|ex1] w1] eqn:Hg.
  2:{ rewrite (bind_Raises _ _ _ _ _ (call_get_launcher_at_config _ _ _ _ _ Hg)).
      simpl. split; [eauto | exact Hkeep]. }
  rewrite (bind_Returns _ _ _ _ _ (call_get_launcher_at_config _ _ _ _ _ Hg)).
  destruct (Hl l eq_refl) as (Hcreate & _). specialize (Hcreate w1).
  destruct Hfail as (ex & w2 & Hcr).
  simpl in Hkeep.
  unfold bind, call, and_then. simpl. rewrite Hcr in Hcreate |- *. simpl in *.
  split; [eauto | congruence].
Qed.


(** ** [wait] and [describe] *)

(** X6.  A wait command whose info file loads and whose launcher is
    built calls the launcher's [wait] once.  When [wait] returns, the
    line "Cluster is ready!" is printed and the command returns 0; when
    [wait] raises, the exception is raised on and nothing is printed. *)
Theorem wait_reports_readiness args st content info l w1 :
  branch args = Some Wait ->
  files (world st) !! args_info_path args = Some content ->
  loads content = Decoded info ->
  get_launcher co info (world (after_logging co args st)) = (Returns l, w1) ->
  do_main co args st
  = match wait l w1 with
    | (Returns _, w2) =>
        (Returns (Some 0%Z),
         and_then (at_launcher co args st info w1) Call_wait
           (with_line w2 (lit "Cluster is ready!")))
    | (Raises ex, w2) =>
        (Raises ex, and_then (at_launcher co args st info w1) Call_wait w2)
    end.
Proof.
  intros Hb Hf Hl Hg. destruct (branch_wait _ Hb) as (Hc & Hw).
  to_launcher Hc Hf Hl Hg. rewrite Hw.
  unfold bind, call, print, ret, and_then, with_line. simpl.
  destruct (wait l w1) as [[[]|ex] w2]; reflexivity.
Qed.


(** X8.  When no command is selected, [do_main] still loads the info
    file and builds the launcher, then returns [None] without calling
    any method of the launcher. *)
Theorem no_command_returns_None args st content info l w1 :
  branch args = None ->
  files (world st) !! args_info_path args = Some content ->
  loads content = Decoded info ->
  get_launcher co info (world (after_logging co args st)) = (Returns l, w1) ->
  do_main co args st = (Returns None, at_launcher co args st info w1).
Proof.
  intros Hb Hf Hl Hg.
  destruct (branch_none _ Hb) as (Hc & Hw & Hd & Hp & Hx).
  to_launcher Hc Hf Hl Hg. rewrite Hw, Hd, Hp, Hx. reflexivity.
Qed.

(** ** [pytest] *)

(** X9.  A pytest command whose info file loads and whose launcher is
    built ends in one of three ways: with OptionError when the --env
    value holds '='; with MissingInput when it holds none and a name of
    the allowlist is not set; and otherwise with the launcher's [test]
    called once, on the allowlisted part of the environment, its return
    code returned and its exception raised on.  In particular the lookup
    of the allowlisted names in the environment never raises
    [KeyError]. *)
Theorem pytest_outcomes args st content info l w1 :
  branch args = Some Pytest ->
  files (world st) !! args_info_path args = Some content ->
  loads content = Decoded info ->
  get_launcher co info (world (after_logging co args st)) = (Returns l, w1) ->
  (exists env,
     args_env args = Some env /\ str_contains 61 env = true
     /\ do_main co args st
        = (Raises (LauncherError (lit "OptionError") (Some option_error_msg)
                     None),
           at_launcher co args st info w1))
  \/ (exists env,
        args_env args = Some env /\ str_contains 61 env = false
        /\ missing_from (environ w1) (str_split 44 env) <> []
        /\ do_main co args st
           = (Raises (LauncherError (lit "MissingInput")
                        (Some (missing_input_msg co
                                 (missing_from (environ w1) (str_split 44 env))))
                        None),
              at_launcher co args st info w1))
  \/ (exists env_dict,
        (forall k v, env_dict !! k = Some v
                     <-> k ∈ allowlist args /\ environ w1 !! k = Some v)
        /\ do_main co args st
           = (match fst (test l (args_pytest_extras args) env_dict w1) with
              | Returns code => Returns (Some code)
              | Raises ex => Raises ex
              end,
              and_then (at_launcher co args st info w1)
                (Call_test (args_pytest_extras args) env_dict)
                (snd (test l (args_pytest_extras args) env_dict w1)))).
Proof.
  intros Hb Hf Hl Hg.
  destruct (args_env args) as [env|] eqn:He.
  - destruct (str_contains 61 env) eqn:Heq.
    + left. exists env. split; [reflexivity|]. split; [exact Heq|].
      now apply (do_main_option_error _ _ _ env content _ l).
    + destruct (missing_from (environ w1) (str_split 44 env)) as [|v rest] eqn:Em.
      * right. right.
        destruct (do_main_test co args st content info l w1 Hb Hf Hl Hg)
          as (env_dict & Hmap & _ & E).
        { rewrite He. split; [exact Heq|]. now apply missing_from_nil. }
        exists env_dict. split; [exact Hmap|exact E].
      * right. left. exists env. split; [reflexivity|]. split; [exact Heq|].
        split; [rewrite Em; discriminate|].
        apply (do_main_missing_input _ _ _ env content _ l); try done.
        exists v. apply elem_of_missing_from. rewrite Em. left.
  - right. right.
    destruct (do_main_test co args st content info l w1 Hb Hf Hl Hg)
      as (env_dict & Hmap & _ & E).
    { now rewrite He. }
    exists env_dict. split; [exact Hmap|exact E].
Qed.

(** ** [main] *)

(** X10.  When [do_main] raises a domain error, [main] prints two lines,
    "DC/OS Launch encountered an error!" and the error's [repr], and
    returns 1; it changes nothing else in the state [do_main] left. *)
Theorem main_reports_domain_errors argv args st error msg cause st' :
  docopt co argv (external (world st)) = Returns args ->
  do_main co args st = (Raises (LauncherError error msg cause), st') ->
  main co argv st
  = (Returns (Some 1%Z),
     {| world := with_line
                   (with_line (world st')
                      (lit "DC/OS Launch encountered an error!"))
                   (launcher_error_repr co error msg cause);
        calls := calls st' |}).
Proof.
  intros Hd E. unfold main, bind at 1, get_world. simpl.
  rewrite Hd. unfold try_except. rewrite E. reflexivity.
Qed.

(** X11.  Whatever is not a domain error passes through [main] as it
    is: the code that [do_main] returns is returned, in particular the
    code of the test run, and an exception of another class is raised
    on, with nothing printed. *)
Theorem main_passes_the_rest_through argv args st :
  docopt co argv (external (world st)) = Returns args ->
  match fst (do_main co args st) with
  | Returns _ => True
  | Raises ex => is_LauncherError ex = false
  end ->
  main co argv st = do_main co args st.
Proof.
  intros Hd Hex. unfold main, bind at 1, get_world. simpl.
  rewrite Hd. unfold try_except.
  destruct (do_main co args st) as [[code|ex] st']; [reflexivity|].
  simpl in Hex. destruct ex; try reflexivity. discriminate.
Qed.

(** X12.  No command but create writes a file: for every command line
    that does not select create, and whatever the outcome, [main]
    leaves every file as it was, as long as the factory and the launcher
    do not write files themselves. *)
Theorem only_create_writes_files argv st :
  match docopt co argv (external (world st)) with
  | Returns args => args_create args = false
  | Raises _ => True
  end ->
  factory_keeps_files co ->
  files (world (snd (main co argv st))) = files (world st).
Proof.
  intros Hd Hfac. unfold main, bind at 1, get_world. simpl.
  destruct (docopt co argv (external (world st))) as [args|ex]; [|reflexivity].
  apply (keeps_files_try_except (do_main co args)).
  - now apply other_commands_keep_files.
  - intros ex h Hh. destruct ex; inversion Hh; subst.
    apply keeps_files_bind; [apply keeps_files_print|]. intros.
    apply keeps_files_bind; [apply keeps_files_print|]. intros.
    apply keeps_files_ret.
Qed.

(** X13.  No method of the launcher is called by a command that fails
    before the launcher is built: when the info file is missing or is
    not JSON, the only call made is the logging setup. *)
Theorem no_launcher_without_info args st c :
  branch args = Some c -> c <> Create ->
  match files (world st) !! args_info_path args with
  | None => True
  | Some content => forall info, loads content <> Decoded info
  end ->
  calls (snd (do_main co args st))
  = calls st ++ [Call_setup_logging (str_upper co (args_log_level args))]
  /\ exists ex, fst (do_main co args st) = Raises ex.
Proof.
  intros Hb Hne Hbad.
  pose proof (branch_not_create _ _ Hb Hne) as Hc.
  destruct (do_main_no_info co args st Hc Hbad) as [ex E].
  rewrite E. split; [apply after_logging_calls | eauto].
Qed.

(** ** The info file as text *)

(** X14.  The text that [write_json] writes and [json_prettyprint]
    returns holds only printable ASCII characters and newlines, whatever
    characters the strings of the value hold: every other character is
    written as an escape.  Floats are written as the interpreter prints
    them, so this is asked of their text. *)
Theorem written_text_is_plain filename (data : json F) st :
  plain_floats data = true ->
  is_plain_text (json_prettyprint data) = true
  /\ exists content,
       files (world (snd (write_json filename data st))) !! filename
       = Some content
       /\ is_plain_text content = true.
Proof.
  intros Hp.
  assert (Hplain : is_plain_text (dumps data) = true).
  { apply is_plain_text_plain. now apply plain_iterencode. }
  split; [exact Hplain|]. exists (dumps data). split; [|exact Hplain].
  rewrite write_json_at. simpl. apply lookup_insert_eq.
Qed.



(** X17.  Two cluster info values of the supported shapes that are
    written as the same text are the same logical value: the text
    determines the value. *)
Theorem same_text_same_value (a b : json F) :
  supported a = true -> supported b = true ->
  json_prettyprint a = json_prettyprint b ->
  same_value a b = true.
Proof. apply dumps_injective. Qed.



(** X20.  An info file that is empty, or holds nothing but whitespace,
    is reported as invalid JSON: [load_json] raises the ValueError whose
    diagnostic is "Expecting value" at the end of the content. *)
Theorem load_json_rejects_a_blank_file filename content st :
  files (world st) !! filename = Some content ->
  forallb is_whitespace content = true ->
  load_json co filename st
  = (Raises (ValueError
               (lit "Invalid JSON in " ++ filename ++ lit ": "
                ++ decode_error_str (isprintable co) Expecting_value content
                     (length content))
               (Some (JSONDecodeError Expecting_value content (length content)))),
     st).
Proof.
  intros Hf Hblank.
  apply (load_json_invalid _ _ _ _ _ _ Hf). now apply loads_blank.
Qed.


(** ** The allowlist *)

(** X22.  The allowlist that an --env value names is never empty: it
    holds one name more than the value holds commas, no name holds a
    comma, and the names joined by commas are the value. *)
Theorem allowlist_of_env args env :
  args_env args = Some env ->
  length (allowlist args) = S (count_occ N.eq_dec env 44%N)
  /\ Forall (fun name => str_contains 44 name = false) (allowlist args)
  /\ str_join (lit ",") (allowlist args) = env.
Proof.
  intros He. unfold allowlist. rewrite He.
  split; [apply str_split_length|]. split; [apply str_split_no_sep|].
  apply str_join_split.
Qed.

(** X23.  When the names of the allowlist are made of printable ASCII
    characters other than the apostrophe and the backslash, the message
    of the MissingInput error lists the absent names between
    apostrophes, separated by a comma and a space, between brackets, in
    the order of the allowlist. *)
Theorem missing_input_lists_the_names args st env content info l w1 :
  branch args = Some Pytest ->
  args_env args = Some env ->
  str_contains 61 env = false ->
  files (world st) !! args_info_path args = Some content ->
  loads content = Decoded info ->
  get_launcher co info (world (after_logging co args st)) = (Returns l, w1) ->
  (exists v, v ∈ str_split 44 env /\ environ w1 !! v = None) ->
  forallb is_name (str_split 44 env) = true ->
  fst (do_main co args st)
  = Raises (LauncherError (lit "MissingInput")
              (Some (lit "Environment variable arguments have been indicated but not set: ["
                     ++ str_join (lit ", ")
                          (List.map quoted
                             (List.filter
                                (fun v => bool_decide (environ w1 !! v = None))
                                (str_split 44 env)))
                     ++ lit "]"))
              None).
Proof.
  intros Hb He Heq Hf Hl Hg Habs Hnames.
  rewrite (do_main_missing_input _ _ _ env content info l w1); try done.
  cbn [fst]. do 3 f_equal. unfold missing_input_msg.
  assert (Em : missing_from (environ w1) (str_split 44 env)
               = List.filter (fun v => bool_decide (environ w1 !! v = None))
                   (str_split 44 env)).
  { unfold missing_from. apply filter_ext. intros v.
    destruct (environ w1 !! v) eqn:Ev.
    - rewrite bool_decide_true by eauto. now rewrite bool_decide_false.
    - rewrite bool_decide_false by (now intros [x Hx]).
      now rewrite bool_decide_true. }
  rewrite <- Em. rewrite list_repr_names.
  - reflexivity.
  - rewrite forallb_forall in *. intros v Hv. apply Hnames.
    unfold missing_from in Hv. now apply filter_In in Hv as [? _].
Qed.

End Run.
End CliMore.

(* ===================================================================== *)
(** * More properties, tried on the stub provider                         *)
(* ===================================================================== *)

Module MoreTrials.
Import Py Json Cli Stub Terms Samples CliFacts CliMore.

(** Closes a goal by evaluating both sides. *)
Ltac run := vm_compute; reflexivity.

(** The stub provider does not touch the file system. *)
Lemma stub_factory_keeps_files : factory_keeps_files stub.
Proof.
  intros data w. split.
  - simpl. unfold stub_get_launcher.
    destruct data as [| | | | | |pairs]; try reflexivity.
    destruct (dict_get (lit "provider") pairs) as [[| | | |name| |]|];
      try reflexivity.
    destruct (decide (name = lit "stub")); reflexivity.
  - intros l Hl. simpl in Hl. unfold stub_get_launcher in Hl.
    destruct data as [| | | | | |pairs]; try discriminate.
    destruct (dict_get (lit "provider") pairs) as [[| | | |name| |]|];
      try discriminate.
    destruct (decide (name = lit "stub")); [|discriminate].
    injection Hl as <-. repeat split; reflexivity.
Qed.

(** A path through the info file: the error of [open] goes through
    [load_json] as it is. *)
Lemma X1_witness :
  fst (load_json stub nested_path st_nested)
  = Raises (NotADirectoryError (lit "cluster_info.json/x"))
  /\ snd (load_json stub nested_path st_nested) = st_nested.
Proof.
  destruct (load_json_outcomes stub nested_path st_nested) as [Hs Ho].
  split; [|exact Hs]. vm_compute in Ho |- *. exact Ho.
Defined.



Lemma X4_witness :
  branch (with_command Create None) = Some Create
  /\ fails_before_writing stub (with_command Create None) st_none
  /\ fst (do_main stub (with_command Create None) st_none)
     = Raises (LauncherError (lit "ConfigError") (Some (lit "config.yaml")) None)
  /\ files (world (snd (do_main stub (with_command Create None) st_none)))
     = files (world st_none).
Proof.
  split; [reflexivity|]. split; [vm_compute; exact I|]. split; [run|].
  apply (failed_create_writes_nothing stub (with_command Create None) st_none);
    [reflexivity | exact stub_factory_keeps_files | vm_compute; exact I].
Defined.


Lemma X6_witness :
  branch (with_command Wait None) = Some Wait
  /\ files (world st_info) !! args_info_path (with_command Wait None)
     = Some info_text
  /\ loads info_text = Decoded stub_info
  /\ get_launcher stub stub_info
       (world (after_logging stub (with_command Wait None) st_info))
     = (Returns stub_launcher, world st_info)
  /\ do_main stub (with_command Wait None) st_info
     = (Returns (Some 0%Z),
        and_then
          (at_launcher stub (with_command Wait None) st_info stub_info
             (world st_info))
          Call_wait
          (with_line (world st_info) (lit "Cluster is ready!"))).
Proof.
  split; [reflexivity|]. split; [run|]. split; [run|]. split; [reflexivity|].
  apply (wait_reports_readiness stub (with_command Wait None) st_info
           info_text stub_info stub_launcher (world st_info));
    [reflexivity | run | run | reflexivity].
Defined.


Lemma X8_witness :
  branch default_args = None
  /\ files (world st_info) !! args_info_path default_args = Some info_text
  /\ loads info_text = Decoded stub_info
  /\ get_launcher stub stub_info (world (after_logging stub default_args st_info))
     = (Returns stub_launcher, world st_info)
  /\ do_main stub default_args st_info
     = (Returns None, at_launcher stub default_args st_info stub_info
                        (world st_info)).
Proof.
  split; [reflexivity|]. split; [run|]. split; [run|]. split; [reflexivity|].
  apply (no_command_returns_None stub default_args st_info info_text stub_info
           stub_launcher (world st_info));
    [reflexivity | run | run | reflexivity].
Defined.

Lemma X9_witness :
  branch (with_command Pytest (Some (lit "A"))) = Some Pytest
  /\ files (world st_info)
       !! args_info_path (with_command Pytest (Some (lit "A")))
     = Some info_text
  /\ loads info_text = Decoded stub_info
  /\ get_launcher stub stub_info
       (world (after_logging stub (with_command Pytest (Some (lit "A"))) st_info))
     = (Returns stub_launcher, world st_info)
  /\ exists env_dict,
       (forall k v, env_dict !! k = Some v
                    <-> k ∈ allowlist (with_command Pytest (Some (lit "A")))
                        /\ environ (world st_info) !! k = Some v)
       /\ do_main stub (with_command Pytest (Some (lit "A"))) st_info
          = (Returns (Some 0%Z),
             and_then
               (at_launcher stub (with_command Pytest (Some (lit "A"))) st_info
                  stub_info (world st_info))
               (Call_test [] env_dict) (world st_info)).
Proof.
  split; [reflexivity|]. split; [run|]. split; [run|]. split; [reflexivity|].
  destruct (pytest_outcomes stub (with_command Pytest (Some (lit "A"))) st_info
              info_text stub_info stub_launcher (world st_info))
    as [(env & _ & _ & E) | [(env & _ & _ & _ & E) | (env_dict & Hmap & E)]];
    [reflexivity | run | run | reflexivity | | |].
  - exfalso. vm_compute in E. discriminate E.
  - exfalso. vm_compute in E. discriminate E.
  - exists env_dict. split; [exact Hmap|exact E].
Defined.

Lemma X10_witness :
  docopt stub (Some [lit "wait"]) (external (world st_none))
  = Returns (with_command Wait None)
  /\ do_main stub (with_command Wait None) st_none
     = (Raises (LauncherError (lit "MissingInfoJSON") None
                  (Some (FileNotFoundError (lit "cluster_info.json")))),
        after_logging stub (with_command Wait None) st_none)
  /\ main stub (Some [lit "wait"]) st_none
     = (Returns (Some 1%Z),
        {| world := with_line
                      (with_line (world st_none)
                         (lit "DC/OS Launch encountered an error!"))
                      (lit "MissingInfoJSON: None");
           calls := [Call_setup_logging (lit "INFO")] |}).
Proof.
  split; [reflexivity|]. split; [run|].
  rewrite (main_reports_domain_errors stub (Some [lit "wait"])
             (with_command Wait None) st_none (lit "MissingInfoJSON") None
             (Some (FileNotFoundError (lit "cluster_info.json")))
             (after_logging stub (with_command Wait None) st_none));
    [run | reflexivity | run].
Defined.

Lemma X11_witness :
  docopt stub (Some [lit "wait"]) (external (world st_bad))
  = Returns (with_command Wait None)
  /\ fst (do_main stub (with_command Wait None) st_bad)
     = Raises (ValueError
                 (lit "Invalid JSON in cluster_info.json: Expecting value: line 1 column 1 (char 0)")
                 (Some (JSONDecodeError Expecting_value bad_text 0)))
  /\ main stub (Some [lit "wait"]) st_bad
     = do_main stub (with_command Wait None) st_bad.
Proof.
  split; [reflexivity|]. split; [run|].
  apply (main_passes_the_rest_through stub (Some [lit "wait"])
           (with_command Wait None) st_bad); [reflexivity | run].
Defined.

Lemma X12_witness :
  docopt stub (Some [lit "delete"]) (external (world st_info))
  = Returns (with_command Delete None)
  /\ args_create (with_command Delete None) = false
  /\ fst (main stub (Some [lit "delete"]) st_info) = Returns (Some 0%Z)
  /\ files (world (snd (main stub (Some [lit "delete"]) st_info)))
     = files (world st_info).
Proof.
  split; [reflexivity|]. split; [reflexivity|]. split; [run|].
  apply (only_create_writes_files stub (Some [lit "delete"]) st_info);
    [reflexivity | exact stub_factory_keeps_files].
Defined.

Lemma X13_witness :
  branch (with_command Delete None) = Some Delete
  /\ Delete <> Create
  /\ files (world st_bad) !! args_info_path (with_command Delete None)
     = Some bad_text
  /\ (forall info, loads (F := str) bad_text <> Decoded info)
  /\ calls (snd (do_main stub (with_command Delete None) st_bad))
     = [Call_setup_logging (lit "INFO")].
Proof.
  assert (Hbad : forall info, loads (F := str) bad_text <> Decoded info).
  { intros info E. vm_compute in E. discriminate E. }
  split; [reflexivity|]. split; [discriminate|]. split; [run|].
  split; [exact Hbad|].
  destruct (no_launcher_without_info stub (with_command Delete None) st_bad
              Delete) as [Hcalls _]; [reflexivity | discriminate | | exact Hcalls].
  replace (files (world st_bad) !! args_info_path (with_command Delete None))
    with (Some bad_text) by run.
  exact Hbad.
Defined.

Lemma X14_witness :
  plain_floats sample_description = true
  /\ is_plain_text (json_prettyprint sample_description) = true
  /\ json_prettyprint sample_description
     = dq "{
  'load':1.5,
  'name':'\u00e9\ud83d\ude00\n\u007f'
}".
Proof.
  split; [run|].
  destruct (written_text_is_plain (External := bool) info_path
              sample_description st_none) as [Hplain _]; [run|].
  split; [exact Hplain|run].
Defined.



Lemma X17_witness :
  supported sample_info = true
  /\ supported sample_info_reordered = true
  /\ json_prettyprint sample_info = json_prettyprint sample_info_reordered
  /\ same_value sample_info sample_info_reordered = true.
Proof.
  split; [run|]. split; [run|]. split; [run|].
  apply (same_text_same_value sample_info sample_info_reordered); run.
Defined.



Lemma X20_witness :
  files (world st_blank) !! info_path = Some [NEWLINE]
  /\ forallb is_whitespace [NEWLINE] = true
  /\ load_json stub info_path st_blank
     = (Raises (ValueError
                  (lit "Invalid JSON in cluster_info.json: Expecting value: line 2 column 1 (char 1)")
                  (Some (JSONDecodeError Expecting_value [NEWLINE] 1))),
        st_blank).
Proof.
  split; [run|]. split; [reflexivity|].
  rewrite (load_json_rejects_a_blank_file stub info_path [NEWLINE] st_blank);
    [run | run | reflexivity].
Defined.


Lemma X22_witness :
  args_env (with_command Pytest (Some (lit "A,,B"))) = Some (lit "A,,B")
  /\ allowlist (with_command Pytest (Some (lit "A,,B")))
     = [lit "A"; []; lit "B"]
  /\ length (allowlist (with_command Pytest (Some (lit "A,,B")))) = 3
  /\ str_join (lit ",") (allowlist (with_command Pytest (Some (lit "A,,B"))))
     = lit "A,,B".
Proof.
  split; [reflexivity|]. split; [reflexivity|].
  destruct (allowlist_of_env (with_command Pytest (Some (lit "A,,B")))
              (lit "A,,B")) as (Hlen & _ & Hjoin); [reflexivity|].
  split; [exact Hlen|exact Hjoin].
Defined.

Lemma X23_witness :
  branch (with_command Pytest (Some (lit "A,B,C"))) = Some Pytest
  /\ args_env (with_command Pytest (Some (lit "A,B,C"))) = Some (lit "A,B,C")
  /\ str_contains 61 (lit "A,B,C") = false
  /\ files (world st_info)
       !! args_info_path (with_command Pytest (Some (lit "A,B,C")))
     = Some info_text
  /\ loads info_text = Decoded stub_info
  /\ get_launcher stub stub_info
       (world (after_logging stub (with_command Pytest (Some (lit "A,B,C")))
                 st_info))
     = (Returns stub_launcher, world st_info)
  /\ (exists v, v ∈ str_split 44 (lit "A,B,C")
                /\ environ (world st_info) !! v = None)
  /\ forallb is_name (str_split 44 (lit "A,B,C")) = true
  /\ fst (do_main stub (with_command Pytest (Some (lit "A,B,C"))) st_info)
     = Raises (LauncherError (lit "MissingInput")
                 (Some (lit "Environment variable arguments have been indicated but not set: ['B', 'C']"))
                 None).
Proof.
  assert (Habsent : exists v, v ∈ str_split 44 (lit "A,B,C")
                              /\ environ (world st_info) !! v = None).
  { exists (lit "B"). split; [right; left|run]. }
  split; [reflexivity|]. split; [reflexivity|]. split; [reflexivity|].
  split; [run|]. split; [run|]. split; [reflexivity|]. split; [exact Habsent|].
  split; [reflexivity|].
  rewrite (missing_input_lists_the_names stub
             (with_command Pytest (Some (lit "A,B,C"))) st_info (lit "A,B,C")
             info_text stub_info stub_launcher (world st_info));
    [run | reflexivity | reflexivity | reflexivity | run | run | reflexivity
    | exact Habsent | reflexivity].
Defined.

End MoreTrials.
